(** * 2-Aside funding service: batch matching and settlement

    A shallow embedding of the batch matching and settlement engine of the
    funding service ([funding-service/celery_batch_matching.py],
    [funding-service/auto_matcher.py] and the settlement endpoints of
    [funding-service/main.py]), with the properties stated about it.

    Conventions of the embedding.
    - A [Numeric(18, 2)] / [Decimal] amount is an exact decimal number with
      two fractional digits; it is represented by the integer number of
      hundredths, a [Z].  Sums, differences, comparisons and [min] of such
      amounts are exact in Python, hence are the ones of [Z].
    - A [DateTime] is the number of microseconds since the epoch, a [Z]; a
      nullable column is an [option].  All the readings of the clock made by
      one call of an operation are the same instant [now], an argument.
    - A [UUID] primary key is a [positive]; a table is a finite map from the
      primary key to the row, so that [db.query(T).filter(T.id == k).first()]
      is the lookup [table !! k].  [uuid.uuid4()] draws the key from the
      counter [next_uuid] of the database.
    - The SQLAlchemy session is the database value itself: a row loaded twice
      is one object (identity map), so a list of loaded rows is a list of
      keys that are read again from the tables when the code reads the
      objects again.  An operation returns the committed database; a path
      that rolls back returns the database it was given.
    - The columns that none of the operations below reads or writes (the
      legacy columns, the dispute columns, the referral columns) are left
      out.  The operations are the two tasks of the merge cycle and of the
      deadline sweep, the automatic matcher, and the endpoints that create
      or cancel a request, upload or confirm a proof and ask for an
      extension.
    - The schedule of the merges ([funding-service/merge_scheduler.py]), the
      two tasks that create the merge cycles and queue their runs, the
      opt-in of the join window and the administrator's endpoints that
      match two requests by hand, unblock a user and run the matcher come
      after the example states.  The [User] rows, which the funding service
      only reads, are a finite map of their own, an argument of the
      endpoints that read them. *)

From Stdlib Require Import ZArith Lia List.
From stdpp Require Import base option list gmap strings fin_maps.

Local Open Scope Z_scope.

(** ** Data model ([shared/models.py]) *)

Abbreviation uuid := positive.
Abbreviation datetime := Z.
Abbreviation Decimal := Z.

(** [timedelta(hours=h)], [timedelta(minutes=m)] in microseconds. *)
Definition timedelta_hours (h : Z) : Z := h * 3600 * 1000000.
Definition timedelta_minutes (m : Z) : Z := m * 60 * 1000000.

Inductive CurrencyEnum := NAIRA | USDT.

#[global] Instance CurrencyEnum_eq_dec : EqDecision CurrencyEnum.
Proof. solve_decision. Defined.

Module Wallet.
Record t := Build {
  user_id : uuid;
  currency : CurrencyEnum;
  balance : Decimal;
  total_deposited : Decimal;
  is_blocked : bool;
  block_reason : option string;
  bank_details_id : option uuid;
  wallet_address : option string }.

Definition with_balance (b d : Decimal) (w : t) : t :=
  Build (user_id w) (currency w) b d (is_blocked w) (block_reason w)
        (bank_details_id w) (wallet_address w).

Definition with_block (blocked : bool) (reason : option string) (w : t) : t :=
  Build (user_id w) (currency w) (balance w) (total_deposited w) blocked reason
        (bank_details_id w) (wallet_address w).
End Wallet.

Module FundingRequest.
Record t := Build {
  wallet_id : uuid;
  amount : Decimal;
  amount_remaining : Decimal;
  is_fully_matched : bool;
  is_completed : bool;
  opted_in : bool;
  opted_in_at : option datetime;
  merge_cycle_id : option uuid;
  requested_at : datetime;
  matched_at : option datetime }.

Definition with_amount_remaining (a : Decimal) (r : t) : t :=
  Build (wallet_id r) (amount r) a (is_fully_matched r) (is_completed r)
        (opted_in r) (opted_in_at r) (merge_cycle_id r) (requested_at r) (matched_at r).

Definition with_matched (c : uuid) (now : datetime) (r : t) : t :=
  Build (wallet_id r) (amount r) (amount_remaining r) true (is_completed r)
        (opted_in r) (opted_in_at r) (Some c) (requested_at r) (Some now).

Definition with_is_completed (b : bool) (r : t) : t :=
  Build (wallet_id r) (amount r) (amount_remaining r) (is_fully_matched r) b
        (opted_in r) (opted_in_at r) (merge_cycle_id r) (requested_at r) (matched_at r).
End FundingRequest.

Module WithdrawalRequest.
Record t := Build {
  wallet_id : uuid;
  amount : Decimal;
  amount_remaining : Decimal;
  is_fully_matched : bool;
  is_completed : bool;
  opted_in : bool;
  opted_in_at : option datetime;
  merge_cycle_id : option uuid;
  requested_at : datetime;
  matched_at : option datetime;
  is_priority : bool;
  priority_timestamp : option datetime;
  failed_match_count : Z }.

Definition with_amount_remaining (a : Decimal) (r : t) : t :=
  Build (wallet_id r) (amount r) a (is_fully_matched r) (is_completed r)
        (opted_in r) (opted_in_at r) (merge_cycle_id r) (requested_at r) (matched_at r)
        (is_priority r) (priority_timestamp r) (failed_match_count r).

Definition with_matched (c : uuid) (now : datetime) (r : t) : t :=
  Build (wallet_id r) (amount r) (amount_remaining r) true (is_completed r)
        (opted_in r) (opted_in_at r) (Some c) (requested_at r) (Some now)
        (is_priority r) (priority_timestamp r) (failed_match_count r).

Definition with_is_completed (b : bool) (r : t) : t :=
  Build (wallet_id r) (amount r) (amount_remaining r) (is_fully_matched r) b
        (opted_in r) (opted_in_at r) (merge_cycle_id r) (requested_at r) (matched_at r)
        (is_priority r) (priority_timestamp r) (failed_match_count r).

(** The re-queue of [upload_proof] (main.py, lines 1036-1049), the
    assignments in the order of the source. *)
Definition requeue (pair_amount : Decimal) (r : t) : t :=
  Build (wallet_id r) (amount r)
        (amount_remaining r + pair_amount)
        false (is_completed r)
        false (opted_in_at r) None (requested_at r) None
        true
        (Some (match opted_in_at r with Some o => o | None => requested_at r end))
        (failed_match_count r + 1).
End WithdrawalRequest.

Module FundingMatchPair.
Record t := Build {
  funding_request_id : uuid;
  withdrawal_request_id : uuid;
  merge_cycle_id : uuid;
  amount : Decimal;
  proof_uploaded : bool;
  proof_url : option string;
  proof_uploaded_at : option datetime;
  proof_confirmed : bool;
  proof_confirmed_at : option datetime;
  completed_at : option datetime;
  proof_deadline : option datetime;
  confirmation_deadline : option datetime;
  extension_requested : bool;
  extension_granted : bool;
  extended_deadline : option datetime;
  funder_missed_deadline : bool;
  withdrawer_missed_deadline : bool;
  created_at : datetime }.

Definition with_funder_missed_deadline (b : bool) (p : t) : t :=
  Build (funding_request_id p) (withdrawal_request_id p) (merge_cycle_id p) (amount p)
        (proof_uploaded p) (proof_url p) (proof_uploaded_at p)
        (proof_confirmed p) (proof_confirmed_at p) (completed_at p)
        (proof_deadline p) (confirmation_deadline p)
        (extension_requested p) (extension_granted p) (extended_deadline p)
        b (withdrawer_missed_deadline p) (created_at p).

Definition with_withdrawer_missed_deadline (b : bool) (p : t) : t :=
  Build (funding_request_id p) (withdrawal_request_id p) (merge_cycle_id p) (amount p)
        (proof_uploaded p) (proof_url p) (proof_uploaded_at p)
        (proof_confirmed p) (proof_confirmed_at p) (completed_at p)
        (proof_deadline p) (confirmation_deadline p)
        (extension_requested p) (extension_granted p) (extended_deadline p)
        (funder_missed_deadline p) b (created_at p).

(** [pair.proof_uploaded = True; pair.proof_url = url;
     pair.proof_uploaded_at = now; pair.confirmation_deadline = deadline]. *)
Definition with_proof (url : string) (now deadline : datetime) (p : t) : t :=
  Build (funding_request_id p) (withdrawal_request_id p) (merge_cycle_id p) (amount p)
        true (Some url) (Some now)
        (proof_confirmed p) (proof_confirmed_at p) (completed_at p)
        (proof_deadline p) (Some deadline)
        (extension_requested p) (extension_granted p) (extended_deadline p)
        (funder_missed_deadline p) (withdrawer_missed_deadline p) (created_at p).

(** [pair.proof_confirmed = True; pair.proof_confirmed_at = now;
     pair.completed_at = now]. *)
Definition with_confirmed (now : datetime) (p : t) : t :=
  Build (funding_request_id p) (withdrawal_request_id p) (merge_cycle_id p) (amount p)
        (proof_uploaded p) (proof_url p) (proof_uploaded_at p)
        true (Some now) (Some now)
        (proof_deadline p) (confirmation_deadline p)
        (extension_requested p) (extension_granted p) (extended_deadline p)
        (funder_missed_deadline p) (withdrawer_missed_deadline p) (created_at p).

(** [pair.extension_requested = True; pair.extension_granted = True;
     pair.extended_deadline = d]. *)
Definition with_extension (d : option datetime) (p : t) : t :=
  Build (funding_request_id p) (withdrawal_request_id p) (merge_cycle_id p) (amount p)
        (proof_uploaded p) (proof_url p) (proof_uploaded_at p)
        (proof_confirmed p) (proof_confirmed_at p) (completed_at p)
        (proof_deadline p) (confirmation_deadline p)
        true true d
        (funder_missed_deadline p) (withdrawer_missed_deadline p) (created_at p).
End FundingMatchPair.

Inductive CycleStatus := pending | processing | completed | failed.

#[global] Instance CycleStatus_eq_dec : EqDecision CycleStatus.
Proof. solve_decision. Defined.

Module MergeCycle.
Record t := Build {
  scheduled_time : datetime;
  cutoff_time : datetime;
  status : CycleStatus;
  total_funding_requests : Z;
  total_withdrawal_requests : Z;
  matched_pairs : Z;
  unmatched_funding : Z;
  unmatched_withdrawal : Z;
  started_at : option datetime;
  completed_at : option datetime }.

Definition with_status (s : CycleStatus) (c : t) : t :=
  Build (scheduled_time c) (cutoff_time c) s
        (total_funding_requests c) (total_withdrawal_requests c) (matched_pairs c)
        (unmatched_funding c) (unmatched_withdrawal c) (started_at c) (completed_at c).

Definition with_started_at (d : datetime) (c : t) : t :=
  Build (scheduled_time c) (cutoff_time c) (status c)
        (total_funding_requests c) (total_withdrawal_requests c) (matched_pairs c)
        (unmatched_funding c) (unmatched_withdrawal c) (Some d) (completed_at c).

Definition with_completed_at (d : datetime) (c : t) : t :=
  Build (scheduled_time c) (cutoff_time c) (status c)
        (total_funding_requests c) (total_withdrawal_requests c) (matched_pairs c)
        (unmatched_funding c) (unmatched_withdrawal c) (started_at c) (Some d).

(** [cycle.total_funding_requests += nf; cycle.total_withdrawal_requests += nw]. *)
Definition add_totals (nf nw : Z) (c : t) : t :=
  Build (scheduled_time c) (cutoff_time c) (status c)
        (total_funding_requests c + nf) (total_withdrawal_requests c + nw) (matched_pairs c)
        (unmatched_funding c) (unmatched_withdrawal c) (started_at c) (completed_at c).

(** [cycle.matched_pairs += 1]. *)
Definition add_matched_pair (c : t) : t :=
  Build (scheduled_time c) (cutoff_time c) (status c)
        (total_funding_requests c) (total_withdrawal_requests c) (matched_pairs c + 1)
        (unmatched_funding c) (unmatched_withdrawal c) (started_at c) (completed_at c).

(** [cycle.unmatched_funding += nf; cycle.unmatched_withdrawal += nw]. *)
Definition add_unmatched (nf nw : Z) (c : t) : t :=
  Build (scheduled_time c) (cutoff_time c) (status c)
        (total_funding_requests c) (total_withdrawal_requests c) (matched_pairs c)
        (unmatched_funding c + nf) (unmatched_withdrawal c + nw) (started_at c) (completed_at c).
End MergeCycle.

Module AdminWallet.
Record t := Build {
  wallet_type : string;
  currency : CurrencyEnum;
  balance : Decimal;
  total_funded : Decimal;
  total_received : Decimal }.
End AdminWallet.

(** The value of a keyword argument of a constructor; [FormattedValue] is
    an f-string that ends with a key. *)
Inductive Value :=
  | UUIDValue (u : uuid)
  | DecimalValue (d : Decimal)
  | DateTimeValue (d : datetime)
  | StrValue (s : string)
  | FormattedValue (s : string) (u : uuid).

(** [kwargs[name]], [None] when the keyword is not given. *)
Definition keyword (name : string) (kwargs : list (string * Value)) : option Value :=
  snd <$> head (filter (λ kw : string * Value, kw.1 = name) kwargs).

(** A row of [wallet_logs] (lines 160-179), as its constructor leaves it:
    every column holds the value of its keyword, [None] when no keyword
    gives it.  The table is the list of its rows in the order they are
    added; the key [id] is not kept. *)
Module WalletLog.
Record t := Build {
  wallet_id : option Value;
  amount : option Value;
  type : option Value;
  description : option Value;
  created_at : option Value }.

(** The attributes of the class: its columns and its relationship. *)
Definition attributes : list string :=
  ["id"; "wallet_id"; "amount"; "type"; "description"; "created_at"; "wallet"]%string.

(** The constructor, called with keyword arguments.
    [Base = declarative_base()] ([shared/database.py], line 40) gives the
    class the constructor of SQLAlchemy, which raises [TypeError] on a
    keyword that is not an attribute of the class, [None] here, and assigns
    the others. *)
Definition init (kwargs : list (string * Value)) : option t :=
  if bool_decide (Forall (λ kw : string * Value, kw.1 ∈ attributes) kwargs)
  then Some (Build (keyword "wallet_id" kwargs) (keyword "amount" kwargs)
               (keyword "type" kwargs) (keyword "description" kwargs)
               (keyword "created_at" kwargs))
  else None.
End WalletLog.

(** The tables the funding service works on. *)
Record Database := Db {
  wallets : gmap positive Wallet.t;
  funding_requests : gmap positive FundingRequest.t;
  withdrawal_requests : gmap positive WithdrawalRequest.t;
  funding_match_pairs : gmap positive FundingMatchPair.t;
  merge_cycles : gmap positive MergeCycle.t;
  admin_wallets : gmap positive AdminWallet.t;
  wallet_logs : list WalletLog.t;
  next_uuid : positive }.

Definition set_wallets (f : gmap positive Wallet.t → gmap positive Wallet.t) (db : Database) :=
  Db (f (wallets db)) (funding_requests db) (withdrawal_requests db)
     (funding_match_pairs db) (merge_cycles db) (admin_wallets db) (wallet_logs db) (next_uuid db).
Definition set_funding_requests
    (f : gmap positive FundingRequest.t → gmap positive FundingRequest.t) (db : Database) :=
  Db (wallets db) (f (funding_requests db)) (withdrawal_requests db)
     (funding_match_pairs db) (merge_cycles db) (admin_wallets db) (wallet_logs db) (next_uuid db).
Definition set_withdrawal_requests
    (f : gmap positive WithdrawalRequest.t → gmap positive WithdrawalRequest.t) (db : Database) :=
  Db (wallets db) (funding_requests db) (f (withdrawal_requests db))
     (funding_match_pairs db) (merge_cycles db) (admin_wallets db) (wallet_logs db) (next_uuid db).
Definition set_funding_match_pairs
    (f : gmap positive FundingMatchPair.t → gmap positive FundingMatchPair.t) (db : Database) :=
  Db (wallets db) (funding_requests db) (withdrawal_requests db)
     (f (funding_match_pairs db)) (merge_cycles db) (admin_wallets db) (wallet_logs db) (next_uuid db).
Definition set_merge_cycles
    (f : gmap positive MergeCycle.t → gmap positive MergeCycle.t) (db : Database) :=
  Db (wallets db) (funding_requests db) (withdrawal_requests db)
     (funding_match_pairs db) (f (merge_cycles db)) (admin_wallets db) (wallet_logs db) (next_uuid db).
Definition add_wallet_log (l : WalletLog.t) (db : Database) :=
  Db (wallets db) (funding_requests db) (withdrawal_requests db)
     (funding_match_pairs db) (merge_cycles db) (admin_wallets db) (wallet_logs db ++ [l]) (next_uuid db).

(** [uuid.uuid4()]: the key drawn and the database with the counter advanced. *)
Definition uuid4 (db : Database) : positive * Database :=
  (next_uuid db,
   Db (wallets db) (funding_requests db) (withdrawal_requests db)
      (funding_match_pairs db) (merge_cycles db) (admin_wallets db) (wallet_logs db)
      (Pos.succ (next_uuid db))).

(** ** The matching algorithm ([celery_batch_matching.py], lines 54-95) *)

(** [sorted(l, key=...)]: Python's sort is stable, as is this insertion sort:
    an element is placed before the first later element whose key is not
    smaller. *)
Fixpoint insert_by {A} (key : A → Z) (x : A) (l : list A) : list A :=
  match l with
  | [] => [x]
  | y :: l' => if bool_decide (key x ≤ key y) then x :: y :: l' else y :: insert_by key x l'
  end.

Definition sorted {A} (key : A → Z) (l : list A) : list A :=
  foldr (insert_by key) [] l.

(** The local state of the [while] loop: the two mutable lists of
    [[id, remaining]], the cursors [i] and [j], and [matches]. *)
Record match_state := MatchState {
  funders : list (positive * Z);
  withdrawers : list (positive * Z);
  cursor_i : nat;
  cursor_j : nat;
  matches : list (positive * positive * Z) }.

(** One iteration of the loop; [None] when the loop condition
    [i < len(funders) and j < len(withdrawers)] is false. *)
Definition match_step (s : match_state) : option match_state :=
  match funders s !! cursor_i s, withdrawers s !! cursor_j s with
  | Some (funder_id, funder_remaining), Some (withdrawer_id, withdrawer_remaining) =>
      let match_amount := Z.min funder_remaining withdrawer_remaining in
      let funders' := <[cursor_i s := (funder_id, funder_remaining - match_amount)]> (funders s) in
      let withdrawers' :=
        <[cursor_j s := (withdrawer_id, withdrawer_remaining - match_amount)]> (withdrawers s) in
      Some (MatchState funders' withdrawers'
              (if bool_decide (funder_remaining - match_amount = 0)
               then S (cursor_i s) else cursor_i s)
              (if bool_decide (withdrawer_remaining - match_amount = 0)
               then S (cursor_j s) else cursor_j s)
              (matches s ++ [(funder_id, withdrawer_id, match_amount)]))
  | _, _ => None
  end.

(** The [while] loop, with a bound on the number of iterations: [Some] of the
    state at the exit of the loop, [None] when the bound is reached first. *)
Fixpoint match_loop (fuel : nat) (s : match_state) : option match_state :=
  match match_step s with
  | None => Some s
  | Some s' =>
      match fuel with
      | O => None
      | S fuel' => match_loop fuel' s'
      end
  end.

Definition match_init (funding_requests : list (positive * FundingRequest.t))
    (withdrawal_requests : list (positive * WithdrawalRequest.t)) : match_state :=
  let funding_sorted := sorted (λ x, FundingRequest.amount_remaining x.2) funding_requests in
  let withdrawal_sorted :=
    sorted (λ x, WithdrawalRequest.amount_remaining x.2) withdrawal_requests in
  MatchState ((λ f, (f.1, FundingRequest.amount_remaining f.2)) <$> funding_sorted)
             ((λ w, (w.1, WithdrawalRequest.amount_remaining w.2)) <$> withdrawal_sorted)
             0 0 [].

(** [smart_match_requests]: every iteration moves a cursor, so the loop exits
    within [len(funders) + len(withdrawers)] iterations (lemma
    [match_loop_exits] below) and the second branch is never taken. *)
Definition smart_match_requests (funding_requests : list (positive * FundingRequest.t))
    (withdrawal_requests : list (positive * WithdrawalRequest.t))
    : list (positive * positive * Z) :=
  match match_loop (length funding_requests + length withdrawal_requests)
                   (match_init funding_requests withdrawal_requests) with
  | Some s => matches s
  | None => []
  end.

(** The states the loop goes through from [s]. *)
Inductive loop_reaches (s : match_state) : match_state → Prop :=
  | reaches_here : loop_reaches s s
  | reaches_step s1 s2 : loop_reaches s s1 → match_step s1 = Some s2 → loop_reaches s s2.

Definition sum_amounts (ms : list (positive * positive * Z)) : Z :=
  foldr (λ m acc, m.2 + acc) 0 ms.

Definition total_funding_remaining (l : list (positive * FundingRequest.t)) : Z :=
  foldr (λ r acc, FundingRequest.amount_remaining r.2 + acc) 0 l.

Definition total_withdrawal_remaining (l : list (positive * WithdrawalRequest.t)) : Z :=
  foldr (λ r acc, WithdrawalRequest.amount_remaining r.2 + acc) 0 l.

(** Amounts attributed to one request: what a mutable list of
    [[id, remaining]] holds for the key [x], and what a list of triples
    matched for [x] as funder or as withdrawer. *)
Definition sum_snd (l : list (positive * Z)) : Z :=
  foldr (λ e acc, e.2 + acc) 0 l.

Definition remaining_of (x : positive) (l : list (positive * Z)) : Z :=
  foldr (λ e acc, (if bool_decide (e.1 = x) then e.2 else 0) + acc) 0 l.

Definition matched_for_funder (x : positive) (ms : list (positive * positive * Z)) : Z :=
  foldr (λ m acc, (if bool_decide (m.1.1 = x) then m.2 else 0) + acc) 0 ms.

Definition matched_for_withdrawer (x : positive) (ms : list (positive * positive * Z)) : Z :=
  foldr (λ m acc, (if bool_decide (m.1.2 = x) then m.2 else 0) + acc) 0 ms.

(** The triple [t] is computed by an iteration of the loop started in [s0]:
    the iteration runs in a state [s1] the loop reaches, where the entries
    under the two cursors carry the identities of [t] and the remaining
    amounts [funder_remaining] and [withdrawer_remaining], and it appends
    [t] to [matches]. *)
Definition computed_at (s0 : match_state) (t : positive * positive * Z)
    (funder_remaining withdrawer_remaining : Z) : Prop :=
  ∃ s1 s2,
    loop_reaches s0 s1 ∧ match_step s1 = Some s2 ∧
    funders s1 !! cursor_i s1 = Some (t.1.1, funder_remaining) ∧
    withdrawers s1 !! cursor_j s1 = Some (t.1.2, withdrawer_remaining) ∧
    matches s2 = matches s1 ++ [t].

(** The number of iterations the loop can still make. *)
Definition loop_measure (s : match_state) : nat :=
  ((length (funders s) - cursor_i s) + (length (withdrawers s) - cursor_j s))%nat.

(** The invariant of the amounts: nothing is negative, the entries behind
    the cursors are used up, and what [matches] holds is what the two lists
    lost, in total and for every identity. *)
Record amounts_inv (s0 s : match_state) : Prop := {
  inv_funders_nonneg : Forall (λ e, 0 ≤ e.2) (funders s);
  inv_withdrawers_nonneg : Forall (λ e, 0 ≤ e.2) (withdrawers s);
  inv_funders_done : ∀ k e, (k < cursor_i s)%nat → funders s !! k = Some e → e.2 = 0;
  inv_withdrawers_done :
    ∀ k e, (k < cursor_j s)%nat → withdrawers s !! k = Some e → e.2 = 0;
  inv_funders_sum :
    sum_amounts (matches s) + sum_snd (funders s)
    = sum_amounts (matches s0) + sum_snd (funders s0);
  inv_withdrawers_sum :
    sum_amounts (matches s) + sum_snd (withdrawers s)
    = sum_amounts (matches s0) + sum_snd (withdrawers s0);
  inv_funder_id : ∀ x,
    matched_for_funder x (matches s) + remaining_of x (funders s)
    = matched_for_funder x (matches s0) + remaining_of x (funders s0);
  inv_withdrawer_id : ∀ x,
    matched_for_withdrawer x (matches s) + remaining_of x (withdrawers s)
    = matched_for_withdrawer x (matches s0) + remaining_of x (withdrawers s0);
  inv_matches_nonneg : Forall (λ m, 0 ≤ m.2) (matches s) }.

(** ** Admin wallet fallback ([celery_batch_matching.py], lines 98-143) *)

(** The second loop of [match_with_admin_wallet]: the requests the pool can
    pay, with the running [admin_available]. *)
Fixpoint admin_as_funder_loop (admin_available : Z)
    (unmatched_withdrawal : list (positive * WithdrawalRequest.t))
    : list (string * positive * Z) :=
  match unmatched_withdrawal with
  | [] => []
  | withdrawal_req :: rest =>
      let remaining := WithdrawalRequest.amount_remaining withdrawal_req.2 in
      if bool_decide (0 < remaining ∧ remaining ≤ admin_available)
      then ("admin"%string, withdrawal_req.1, remaining)
             :: admin_as_funder_loop (admin_available - remaining) rest
      else admin_as_funder_loop admin_available rest
  end.

Definition is_funding_pool (currency : CurrencyEnum) (w : positive * AdminWallet.t) : Prop :=
  AdminWallet.wallet_type w.2 = "funding_pool"%string ∧ AdminWallet.currency w.2 = currency.

#[global] Instance is_funding_pool_dec currency w : Decision (is_funding_pool currency w).
Proof. unfold is_funding_pool. apply _. Defined.

Definition match_with_admin_wallet
    (unmatched_funding : list (positive * FundingRequest.t))
    (unmatched_withdrawal : list (positive * WithdrawalRequest.t))
    (currency : CurrencyEnum) (db : Database)
    : list (positive * string * Z) * list (string * positive * Z) :=
  match head (filter (is_funding_pool currency) (map_to_list (admin_wallets db))) with
  | None => ([], [])
  | Some admin_wallet =>
      let admin_as_withdrawer :=
        (λ funding_req : positive * FundingRequest.t,
           (funding_req.1, "admin"%string, FundingRequest.amount_remaining funding_req.2))
          <$> filter (λ funding_req : positive * FundingRequest.t,
                        0 < FundingRequest.amount_remaining funding_req.2)
                     unmatched_funding in
      (admin_as_withdrawer,
       admin_as_funder_loop (AdminWallet.balance admin_wallet.2) unmatched_withdrawal)
  end.

(** ** The merge cycle ([celery_batch_matching.py], lines 150-283) *)

(** The rows of [db.query(FundingRequest).join(Wallet).filter(...)]: the
    wallet of the request exists and is of the currency. *)
Definition funding_of_currency (db : Database) (currency : CurrencyEnum)
    (r : positive * FundingRequest.t) : Prop :=
  Wallet.currency <$> wallets db !! FundingRequest.wallet_id r.2 = Some currency.

Definition withdrawal_of_currency (db : Database) (currency : CurrencyEnum)
    (r : positive * WithdrawalRequest.t) : Prop :=
  Wallet.currency <$> wallets db !! WithdrawalRequest.wallet_id r.2 = Some currency.

Definition funding_pending (r : positive * FundingRequest.t) : Prop :=
  FundingRequest.is_fully_matched r.2 = false ∧ FundingRequest.is_completed r.2 = false.

Definition withdrawal_pending (r : positive * WithdrawalRequest.t) : Prop :=
  WithdrawalRequest.is_fully_matched r.2 = false ∧ WithdrawalRequest.is_completed r.2 = false.

#[global] Instance funding_of_currency_dec db currency r :
  Decision (funding_of_currency db currency r).
Proof. unfold funding_of_currency. apply _. Defined.
#[global] Instance withdrawal_of_currency_dec db currency r :
  Decision (withdrawal_of_currency db currency r).
Proof. unfold withdrawal_of_currency. apply _. Defined.
#[global] Instance funding_pending_dec r : Decision (funding_pending r).
Proof. unfold funding_pending. apply _. Defined.
#[global] Instance withdrawal_pending_dec r : Decision (withdrawal_pending r).
Proof. unfold withdrawal_pending. apply _. Defined.

(** The two queries of [run_merge_cycle] (lines 180-192). *)
Definition cycle_funding_requests (db : Database) (currency : CurrencyEnum)
    (cutoff_time : datetime) : list (positive * FundingRequest.t) :=
  filter (λ r, funding_of_currency db currency r ∧ funding_pending r ∧
               FundingRequest.requested_at r.2 < cutoff_time)
         (map_to_list (funding_requests db)).

Definition cycle_withdrawal_requests (db : Database) (currency : CurrencyEnum)
    (cutoff_time : datetime) : list (positive * WithdrawalRequest.t) :=
  filter (λ r, withdrawal_of_currency db currency r ∧ withdrawal_pending r ∧
               WithdrawalRequest.requested_at r.2 < cutoff_time)
         (map_to_list (withdrawal_requests db)).

(** [funding.amount_remaining -= amount] and the three assignments made
    when the remainder is zero (lines 231-235, and the same for the
    withdrawal). *)
Definition match_funding (cycle_id : positive) (now : datetime) (amount : Decimal)
    (funding : FundingRequest.t) : FundingRequest.t :=
  let funding :=
    FundingRequest.with_amount_remaining (FundingRequest.amount_remaining funding - amount)
      funding in
  if bool_decide (FundingRequest.amount_remaining funding = 0)
  then FundingRequest.with_matched cycle_id now funding
  else funding.

Definition match_withdrawal (cycle_id : positive) (now : datetime) (amount : Decimal)
    (withdrawal : WithdrawalRequest.t) : WithdrawalRequest.t :=
  let withdrawal :=
    WithdrawalRequest.with_amount_remaining
      (WithdrawalRequest.amount_remaining withdrawal - amount) withdrawal in
  if bool_decide (WithdrawalRequest.amount_remaining withdrawal = 0)
  then WithdrawalRequest.with_matched cycle_id now withdrawal
  else withdrawal.

(** The pair a cycle creates for a triple (lines 211-223); the columns that
    are not given take their defaults. *)
Definition new_match_pair (funding_id withdrawal_id cycle_id : positive) (amount : Decimal)
    (now : datetime) : FundingMatchPair.t :=
  FundingMatchPair.Build funding_id withdrawal_id cycle_id amount
    false None None false None None
    (Some (now + timedelta_hours 4)) None
    false false None false false now.

(** The body of the loop over [user_matches] (lines 209-244); [if funding:]
    and [if withdrawal:] are the [alter], which leaves the table as it is
    when the row is absent. *)
Definition create_match_pair (cycle_id : positive) (now : datetime)
    (db : Database) (m : positive * positive * Decimal) : Database :=
  let '(funding_id, withdrawal_id, amount) := m in
  let '(pair_id, db) := uuid4 db in
  let db :=
    set_funding_match_pairs
      (insert pair_id (new_match_pair funding_id withdrawal_id cycle_id amount now)) db in
  let db := set_funding_requests (alter (match_funding cycle_id now amount) funding_id) db in
  let db :=
    set_withdrawal_requests (alter (match_withdrawal cycle_id now amount) withdrawal_id) db in
  set_merge_cycles (alter MergeCycle.add_matched_pair cycle_id) db.

(** The rows of a loaded list that still have a positive remainder, read
    from the tables as they are now (lines 249-250). *)
Definition unmatched_funding_of (db : Database) (loaded : list (positive * FundingRequest.t))
    : list (positive * FundingRequest.t) :=
  filter (λ f : positive * FundingRequest.t, 0 < FundingRequest.amount_remaining f.2)
    (omap (λ f : positive * FundingRequest.t, (λ r, (f.1, r)) <$> funding_requests db !! f.1)
       loaded).

Definition unmatched_withdrawal_of (db : Database)
    (loaded : list (positive * WithdrawalRequest.t)) : list (positive * WithdrawalRequest.t) :=
  filter (λ w : positive * WithdrawalRequest.t, 0 < WithdrawalRequest.amount_remaining w.2)
    (omap (λ w : positive * WithdrawalRequest.t,
             (λ r, (w.1, r)) <$> withdrawal_requests db !! w.1)
       loaded).

(** One turn of [for currency in ["NAIRA", "USDT"]] (lines 176-261). *)
Definition process_currency (cycle_id : positive) (cutoff_time now : datetime)
    (db : Database) (currency : CurrencyEnum) : Database :=
  let funding_requests := cycle_funding_requests db currency cutoff_time in
  let withdrawal_requests := cycle_withdrawal_requests db currency cutoff_time in
  let db :=
    set_merge_cycles
      (alter (MergeCycle.add_totals (Z.of_nat (length funding_requests))
                                    (Z.of_nat (length withdrawal_requests))) cycle_id) db in
  if bool_decide (funding_requests = [] ∧ withdrawal_requests = []) then db
  else
    let user_matches := smart_match_requests funding_requests withdrawal_requests in
    let db := foldl (create_match_pair cycle_id now) db user_matches in
    let unmatched_funding := unmatched_funding_of db funding_requests in
    let unmatched_withdrawal := unmatched_withdrawal_of db withdrawal_requests in
    (* Step 3 of the source is a comment: the admin wallet is not consulted. *)
    set_merge_cycles
      (alter (MergeCycle.add_unmatched (Z.of_nat (length unmatched_funding))
                                       (Z.of_nat (length unmatched_withdrawal))) cycle_id) db.

(** The loop over the currencies.  [failure] names the currency at whose
    first query the database raises, if any: the turns before it are
    committed, and the handler of [run_merge_cycle] takes over ([inl]). *)
Fixpoint process_currencies (failure : option CurrencyEnum) (cycle_id : positive)
    (cutoff_time now : datetime) (currencies : list CurrencyEnum) (db : Database)
    : Database + Database :=
  match currencies with
  | [] => inr db
  | currency :: rest =>
      if bool_decide (failure = Some currency) then inl db
      else process_currencies failure cycle_id cutoff_time now rest
             (process_currency cycle_id cutoff_time now db currency)
  end.

Definition run_merge_cycle (failure : option CurrencyEnum) (now : datetime)
    (merge_cycle_id : positive) (db : Database) : Database :=
  match merge_cycles db !! merge_cycle_id with
  | None => db
  | Some cycle =>
      if bool_decide (MergeCycle.status cycle ≠ pending) then db
      else
        let db :=
          set_merge_cycles
            (alter (λ c, MergeCycle.with_started_at now (MergeCycle.with_status processing c))
                   merge_cycle_id) db in
        match process_currencies failure merge_cycle_id (MergeCycle.cutoff_time cycle) now
                [NAIRA; USDT] db with
        | inr db =>
            set_merge_cycles
              (alter (λ c, MergeCycle.with_completed_at now (MergeCycle.with_status completed c))
                     merge_cycle_id) db
        | inl db =>
            set_merge_cycles (alter (MergeCycle.with_status failed) merge_cycle_id) db
        end
  end.

(** ** Automatic matching ([auto_matcher.py], lines 27-136) *)

Definition pending_funding_requests (db : Database) (currency : CurrencyEnum)
    : list (positive * FundingRequest.t) :=
  filter (λ r, funding_of_currency db currency r ∧ funding_pending r)
         (map_to_list (funding_requests db)).

Definition pending_withdrawal_requests (db : Database) (currency : CurrencyEnum)
    : list (positive * WithdrawalRequest.t) :=
  filter (λ r, withdrawal_of_currency db currency r ∧ withdrawal_pending r)
         (map_to_list (withdrawal_requests db)).

(** The body of the loop over [user_matches] (lines 90-123): the same
    assignments as in the merge cycle, the counter first. *)
Definition create_auto_match_pair (cycle_id : positive) (now_utc : datetime)
    (db : Database) (m : positive * positive * Decimal) : Database :=
  let '(funding_id, withdrawal_id, amount) := m in
  let '(pair_id, db) := uuid4 db in
  let db :=
    set_funding_match_pairs
      (insert pair_id (new_match_pair funding_id withdrawal_id cycle_id amount now_utc)) db in
  let db := set_merge_cycles (alter MergeCycle.add_matched_pair cycle_id) db in
  let db := set_funding_requests (alter (match_funding cycle_id now_utc amount) funding_id) db in
  set_withdrawal_requests (alter (match_withdrawal cycle_id now_utc amount) withdrawal_id) db.

(** One turn of the loop over the currencies (lines 58-123). *)
Definition match_currency (cycle_id : positive) (now_utc : datetime)
    (db : Database) (currency : CurrencyEnum) : Database :=
  let funding_requests := pending_funding_requests db currency in
  let withdrawal_requests := pending_withdrawal_requests db currency in
  if bool_decide (funding_requests = [] ∨ withdrawal_requests = []) then db
  else
    let user_matches := smart_match_requests funding_requests withdrawal_requests in
    let db :=
      set_merge_cycles
        (alter (MergeCycle.add_totals (Z.of_nat (length funding_requests))
                                      (Z.of_nat (length withdrawal_requests))) cycle_id) db in
    foldl (create_auto_match_pair cycle_id now_utc) db user_matches.

Definition run_matching (now_utc : datetime) (db : Database) : Database :=
  let '(cycle_id, db) := uuid4 db in
  let merge_cycle :=
    MergeCycle.Build now_utc now_utc processing 0 0 0 0 0 (Some now_utc) None in
  let db := set_merge_cycles (insert cycle_id merge_cycle) db in
  let db := foldl (match_currency cycle_id now_utc) db [NAIRA; USDT] in
  set_merge_cycles
    (alter (λ c, MergeCycle.with_completed_at now_utc (MergeCycle.with_status completed c))
           cycle_id) db.

(** ** The deadline sweep ([celery_batch_matching.py], lines 382-455) *)

(** [FundingMatchPair.proof_deadline <= now]; a NULL deadline selects
    nothing. *)
Definition deadline_reached (deadline : option datetime) (now : datetime) : Prop :=
  match deadline with
  | Some d => d ≤ now
  | None => False
  end.

#[global] Instance deadline_reached_dec deadline now : Decision (deadline_reached deadline now).
Proof. destruct deadline; simpl; apply _. Defined.

Definition expired_proof (now : datetime) (p : positive * FundingMatchPair.t) : Prop :=
  deadline_reached (FundingMatchPair.proof_deadline p.2) now ∧
  FundingMatchPair.proof_uploaded p.2 = false ∧
  FundingMatchPair.funder_missed_deadline p.2 = false.

Definition expired_confirmation (now : datetime) (p : positive * FundingMatchPair.t) : Prop :=
  deadline_reached (FundingMatchPair.confirmation_deadline p.2) now ∧
  FundingMatchPair.proof_uploaded p.2 = true ∧
  FundingMatchPair.proof_confirmed p.2 = false ∧
  FundingMatchPair.withdrawer_missed_deadline p.2 = false.

#[global] Instance expired_proof_dec now p : Decision (expired_proof now p).
Proof. unfold expired_proof. apply _. Defined.
#[global] Instance expired_confirmation_dec now p : Decision (expired_confirmation now p).
Proof. unfold expired_confirmation. apply _. Defined.

(** [if wallet and not wallet.is_blocked: wallet.is_blocked = True]; the
    reason of the block is not written. *)
Definition block_if_not_blocked (wallet : Wallet.t) : Wallet.t :=
  if Wallet.is_blocked wallet then wallet
  else Wallet.with_block true (Wallet.block_reason wallet) wallet.

(** The body of the first loop (lines 403-417). *)
Definition flag_funder_missed (db : Database) (pair : positive * FundingMatchPair.t)
    : Database :=
  let db :=
    set_funding_match_pairs
      (alter (FundingMatchPair.with_funder_missed_deadline true) pair.1) db in
  match funding_requests db !! FundingMatchPair.funding_request_id pair.2 with
  | Some funding_req =>
      set_wallets (alter block_if_not_blocked (FundingRequest.wallet_id funding_req)) db
  | None => db
  end.

(** The body of the second loop (lines 430-444). *)
Definition flag_withdrawer_missed (db : Database) (pair : positive * FundingMatchPair.t)
    : Database :=
  let db :=
    set_funding_match_pairs
      (alter (FundingMatchPair.with_withdrawer_missed_deadline true) pair.1) db in
  match withdrawal_requests db !! FundingMatchPair.withdrawal_request_id pair.2 with
  | Some withdrawal_req =>
      set_wallets (alter block_if_not_blocked (WithdrawalRequest.wallet_id withdrawal_req)) db
  | None => db
  end.

Definition check_expired_deadlines (now : datetime) (db : Database) : Database :=
  let expired_proof_pairs :=
    filter (expired_proof now) (map_to_list (funding_match_pairs db)) in
  let db := foldl flag_funder_missed db expired_proof_pairs in
  let expired_confirmation_pairs :=
    filter (expired_confirmation now) (map_to_list (funding_match_pairs db)) in
  foldl flag_withdrawer_missed db expired_confirmation_pairs.

(** ** The endpoints ([main.py]) *)

(** The rejections of the endpoints modelled here, by the check that raises
    them.  [InternalServerError] is the 500 of the [except Exception]
    handlers, raised here when the code dereferences a row that is absent. *)
Inductive HTTPError :=
  | MatchPairNotFound | FundingRequestNotFound | WithdrawalRequestNotFound
  | NotYourOwn
  | ProofAlreadyUploaded | ProofDeadlinePassed | InvalidFileType
  | NoProofUploaded | ProofAlreadyConfirmed | ConfirmationDeadlinePassed
  | ExtensionAlreadyRequested | ExtensionAfterProof | OriginalDeadlinePassed
  | RequestCompleted | RequestAlreadyMatched | WithinCutoff (minutes_to_merge : Z)
  | InvalidAmount | InvalidCurrency | PendingRequestExists | WalletNotFound
  | WalletBlocked | PayoutDestinationMissing | InsufficientBalance
  | InternalServerError.

#[global] Instance HTTPError_eq_dec : EqDecision HTTPError.
Proof. solve_decision. Defined.

Definition status_code (e : HTTPError) : Z :=
  match e with
  | MatchPairNotFound | FundingRequestNotFound | WithdrawalRequestNotFound
  | WalletNotFound => 404
  | NotYourOwn | WalletBlocked => 403
  | InternalServerError => 500
  | _ => 400
  end.

Inductive Response (A : Type) :=
  | SuccessResponse (data : A)
  | HTTPException (e : HTTPError).
Arguments SuccessResponse {A} data.
Arguments HTTPException {A} e.

Definition MIN_AMOUNT : Decimal := 1000 * 100.
Definition MAX_AMOUNT : Decimal := 10000000 * 100.

(** [now > deadline] on a nullable deadline: [pair.deadline and now > pair.deadline]. *)
Definition deadline_passed (deadline : option datetime) (now : datetime) : bool :=
  match deadline with
  | Some d => bool_decide (d < now)
  | None => false
  end.

(** [get_next_merge_cycle] (lines 132-139): the pending cycle scheduled
    after [now] with the least [scheduled_time]. *)
Definition earlier_cycle (c : positive * MergeCycle.t) (best : option (positive * MergeCycle.t))
    : option (positive * MergeCycle.t) :=
  match best with
  | Some b =>
      if bool_decide (MergeCycle.scheduled_time b.2 ≤ MergeCycle.scheduled_time c.2)
      then Some b else Some c
  | None => Some c
  end.

Definition get_next_merge_cycle (now : datetime) (db : Database)
    : option (positive * MergeCycle.t) :=
  foldr earlier_cycle None
    (filter (λ c : positive * MergeCycle.t,
               now < MergeCycle.scheduled_time c.2 ∧ MergeCycle.status c.2 = pending)
            (map_to_list (merge_cycles db))).

(** [is_before_cutoff] (lines 142-145). *)
Definition is_before_cutoff (now : datetime) (merge_cycle : MergeCycle.t) : bool :=
  bool_decide (now < MergeCycle.cutoff_time merge_cycle).

(** [has_pending_request] (lines 148-168), the entry [has_any_pending]. *)
Definition wallet_of_user (db : Database) (user_id wallet_id : positive) : Prop :=
  Wallet.user_id <$> wallets db !! wallet_id = Some user_id.

#[global] Instance wallet_of_user_dec db user_id wallet_id :
  Decision (wallet_of_user db user_id wallet_id).
Proof. unfold wallet_of_user. apply _. Defined.

Definition has_pending_request (user_id : positive) (db : Database) : bool :=
  let funding :=
    head (filter (λ r : positive * FundingRequest.t,
                    wallet_of_user db user_id (FundingRequest.wallet_id r.2) ∧
                    FundingRequest.is_completed r.2 = false)
                 (map_to_list (funding_requests db))) in
  let withdrawal :=
    head (filter (λ r : positive * WithdrawalRequest.t,
                    wallet_of_user db user_id (WithdrawalRequest.wallet_id r.2) ∧
                    WithdrawalRequest.is_completed r.2 = false)
                 (map_to_list (withdrawal_requests db))) in
  bool_decide (is_Some funding ∨ is_Some withdrawal).

(** The checks the two creation endpoints share (lines 193-248 and
    310-365): the amount, the currency (the argument is the currency that
    [currency.upper()] names, [None] when it names neither), the pending
    requests, the wallet, the block and the payout destination.  Above the
    maximum the source builds [InvalidAmountError(..., maximum=...)], a
    keyword that the constructor ([shared/exceptions.py], line 239) does not
    take: the [TypeError] ends in the handler of [Exception], a 500. *)
Definition request_wallet (amount : Decimal) (currency : option CurrencyEnum)
    (user_id : positive) (db : Database) : Response (positive * Wallet.t) :=
  if bool_decide (amount < MIN_AMOUNT) then HTTPException InvalidAmount
  else if bool_decide (MAX_AMOUNT < amount) then HTTPException InternalServerError
  else
    match currency with
    | None => HTTPException InvalidCurrency
    | Some currency_upper =>
        if has_pending_request user_id db then HTTPException PendingRequestExists
        else
          match head (filter (λ w : positive * Wallet.t,
                                Wallet.user_id w.2 = user_id ∧
                                Wallet.currency w.2 = currency_upper)
                             (map_to_list (wallets db))) with
          | None => HTTPException WalletNotFound
          | Some wallet =>
              if Wallet.is_blocked wallet.2 then HTTPException WalletBlocked
              else
                match currency_upper with
                | NAIRA =>
                    if bool_decide (Wallet.bank_details_id wallet.2 = None)
                    then HTTPException PayoutDestinationMissing
                    else SuccessResponse wallet
                | USDT =>
                    if bool_decide (Wallet.wallet_address wallet.2 = None
                                    ∨ Wallet.wallet_address wallet.2 = Some ""%string)
                    then HTTPException PayoutDestinationMissing
                    else SuccessResponse wallet
                end
          end
    end.

(** [create_funding_request] (lines 181-285); the data of the response is
    the key of the request. *)
Definition create_funding_request (amount : Decimal) (currency : option CurrencyEnum)
    (user_id : positive) (now : datetime) (db : Database) : Database * Response positive :=
  match request_wallet amount currency user_id db with
  | HTTPException e => (db, HTTPException e)
  | SuccessResponse wallet =>
      let '(request_id, db) := uuid4 db in
      let funding_request :=
        FundingRequest.Build wallet.1 amount amount false false false None None now None in
      (set_funding_requests (insert request_id funding_request) db,
       SuccessResponse request_id)
  end.

(** [create_withdrawal_request] (lines 298-406). *)
Definition create_withdrawal_request (amount : Decimal) (currency : option CurrencyEnum)
    (user_id : positive) (now : datetime) (db : Database) : Database * Response positive :=
  match request_wallet amount currency user_id db with
  | HTTPException e => (db, HTTPException e)
  | SuccessResponse wallet =>
      if bool_decide (Wallet.balance wallet.2 < amount)
      then (db, HTTPException InsufficientBalance)
      else
        let '(request_id, db) := uuid4 db in
        let withdrawal_request :=
          WithdrawalRequest.Build wallet.1 amount amount false false false None None now None
            false None 0 in
        (set_withdrawal_requests (insert request_id withdrawal_request) db,
         SuccessResponse request_id)
  end.

(** The check of the cutoff the two cancellations share (lines 581-593):
    [int(time_until_merge)] truncates the minutes to the merge. *)
Definition cutoff_check (now : datetime) (db : Database) : option HTTPError :=
  match get_next_merge_cycle now db with
  | None => None
  | Some next_cycle =>
      if is_before_cutoff now next_cycle.2 then None
      else Some (WithinCutoff
                   (Z.quot (MergeCycle.scheduled_time next_cycle.2 - now) (timedelta_minutes 1)))
  end.

(** The rows of [funding_match_pairs] refer to the two requests by columns
    declared [ForeignKey(...)], with no cascade and no relationship on the
    side of the request ([shared/models.py], lines 278-279): whether the
    deletion of a request that a pair refers to is refused depends on the
    database enforcing the constraint. *)
Definition funding_request_referenced (request_id : positive) (db : Database) : Prop :=
  ¬ map_Forall (λ _ p, FundingMatchPair.funding_request_id p ≠ request_id)
      (funding_match_pairs db).

Definition withdrawal_request_referenced (request_id : positive) (db : Database) : Prop :=
  ¬ map_Forall (λ _ p, FundingMatchPair.withdrawal_request_id p ≠ request_id)
      (funding_match_pairs db).

#[global] Instance funding_request_referenced_dec request_id db :
  Decision (funding_request_referenced request_id db).
Proof. unfold funding_request_referenced. apply _. Defined.
#[global] Instance withdrawal_request_referenced_dec request_id db :
  Decision (withdrawal_request_referenced request_id db).
Proof. unfold withdrawal_request_referenced. apply _. Defined.

(** [cancel_funding_request] (lines 542-613).  [foreign_keys] tells whether
    the database enforces the foreign keys: when it does, [db.commit()]
    raises on the deletion of a request that a pair refers to, which the
    handler of [Exception] rolls back and answers with a 500. *)
Definition cancel_funding_request (foreign_keys : bool) (request_id user_id : positive)
    (now : datetime) (db : Database) : Database * Response positive :=
  match funding_requests db !! request_id with
  | None => (db, HTTPException FundingRequestNotFound)
  | Some funding_req =>
      match wallets db !! FundingRequest.wallet_id funding_req with
      | None => (db, HTTPException InternalServerError)
      | Some wallet =>
          if bool_decide (Wallet.user_id wallet ≠ user_id) then (db, HTTPException NotYourOwn)
          else if FundingRequest.is_completed funding_req
          then (db, HTTPException RequestCompleted)
          else if FundingRequest.is_fully_matched funding_req
                  || bool_decide (is_Some (FundingRequest.matched_at funding_req))
          then (db, HTTPException RequestAlreadyMatched)
          else
            match cutoff_check now db with
            | Some e => (db, HTTPException e)
            | None =>
                if foreign_keys && bool_decide (funding_request_referenced request_id db)
                then (db, HTTPException InternalServerError)
                else (set_funding_requests (delete request_id) db,
                      SuccessResponse request_id)
            end
      end
  end.

(** [cancel_withdrawal_request] (lines 617-688). *)
Definition cancel_withdrawal_request (foreign_keys : bool) (request_id user_id : positive)
    (now : datetime) (db : Database) : Database * Response positive :=
  match withdrawal_requests db !! request_id with
  | None => (db, HTTPException WithdrawalRequestNotFound)
  | Some withdrawal_req =>
      match wallets db !! WithdrawalRequest.wallet_id withdrawal_req with
      | None => (db, HTTPException InternalServerError)
      | Some wallet =>
          if bool_decide (Wallet.user_id wallet ≠ user_id) then (db, HTTPException NotYourOwn)
          else if WithdrawalRequest.is_completed withdrawal_req
          then (db, HTTPException RequestCompleted)
          else if WithdrawalRequest.is_fully_matched withdrawal_req
                  || bool_decide (is_Some (WithdrawalRequest.matched_at withdrawal_req))
          then (db, HTTPException RequestAlreadyMatched)
          else
            match cutoff_check now db with
            | Some e => (db, HTTPException e)
            | None =>
                if foreign_keys && bool_decide (withdrawal_request_referenced request_id db)
                then (db, HTTPException InternalServerError)
                else (set_withdrawal_requests (delete request_id) db,
                      SuccessResponse request_id)
            end
      end
  end.

(** *** Proof upload, confirmation and extension (lines 999-1297) *)

Definition allowed_extensions : list string :=
  [".jpg"; ".jpeg"; ".png"; ".gif"; ".webp"; ".pdf"]%string.

Definition missed_proof_block_reason : string :=
  "Failed to upload payment proof within 4 hours. Please contact support at support@2aside.com to resolve this issue and unblock your account."%string.

(** The branch of [upload_proof] taken when the proof deadline has passed
    (lines 1027-1054), up to its [db.commit()]. *)
Definition block_and_requeue (pair_id : positive) (pair : FundingMatchPair.t)
    (wallet_id : positive) (db : Database) : Database :=
  let db :=
    set_wallets (alter (Wallet.with_block true (Some missed_proof_block_reason)) wallet_id) db in
  let db :=
    set_withdrawal_requests
      (alter (WithdrawalRequest.requeue (FundingMatchPair.amount pair))
             (FundingMatchPair.withdrawal_request_id pair)) db in
  set_funding_match_pairs (alter (FundingMatchPair.with_funder_missed_deadline true) pair_id) db.

(** [upload_proof].  [file_ext] is the lower-cased suffix of the file name
    and [stored] the reference the blob store, or the local fallback, gives
    for the bytes ([None] when both raise).  The data of the response is the
    confirmation deadline. *)
Definition upload_proof (pair_id : positive) (file_ext : string) (stored : option string)
    (user_id : positive) (now : datetime) (db : Database) : Database * Response datetime :=
  match funding_match_pairs db !! pair_id with
  | None => (db, HTTPException MatchPairNotFound)
  | Some match_pair =>
      match funding_requests db !! FundingMatchPair.funding_request_id match_pair with
      | None => (db, HTTPException FundingRequestNotFound)
      | Some funding_req =>
          match wallets db !! FundingRequest.wallet_id funding_req with
          | None => (db, HTTPException InternalServerError)
          | Some wallet =>
              if bool_decide (Wallet.user_id wallet ≠ user_id)
              then (db, HTTPException NotYourOwn)
              else if FundingMatchPair.proof_uploaded match_pair
              then (db, HTTPException ProofAlreadyUploaded)
              else if deadline_passed (FundingMatchPair.proof_deadline match_pair) now
              then (block_and_requeue pair_id match_pair (FundingRequest.wallet_id funding_req) db,
                    HTTPException ProofDeadlinePassed)
              else if bool_decide (file_ext ∉ allowed_extensions)
              then (db, HTTPException InvalidFileType)
              else
                match stored with
                | None => (db, HTTPException InternalServerError)
                | Some proof_url =>
                    let confirmation_deadline := now + timedelta_hours 4 in
                    (set_funding_match_pairs
                       (alter (FundingMatchPair.with_proof proof_url now confirmation_deadline)
                              pair_id) db,
                     SuccessResponse confirmation_deadline)
                end
          end
      end
  end.

(** [all(p.proof_confirmed for p in funding_pairs)] over the pairs of a
    funding request, and of a withdrawal request (lines 1195-1205). *)
Definition all_funding_pairs_confirmed (funding_id : positive) (db : Database) : Prop :=
  map_Forall (λ _ p, FundingMatchPair.funding_request_id p = funding_id →
                     FundingMatchPair.proof_confirmed p = true)
             (funding_match_pairs db).

Definition all_withdrawal_pairs_confirmed (withdrawal_id : positive) (db : Database) : Prop :=
  map_Forall (λ _ p, FundingMatchPair.withdrawal_request_id p = withdrawal_id →
                     FundingMatchPair.proof_confirmed p = true)
             (funding_match_pairs db).

#[global] Instance all_funding_pairs_confirmed_dec funding_id db :
  Decision (all_funding_pairs_confirmed funding_id db).
Proof. unfold all_funding_pairs_confirmed. apply _. Defined.
#[global] Instance all_withdrawal_pairs_confirmed_dec withdrawal_id db :
  Decision (all_withdrawal_pairs_confirmed withdrawal_id db).
Proof. unfold all_withdrawal_pairs_confirmed. apply _. Defined.

Definition credit (amount : Decimal) (w : Wallet.t) : Wallet.t :=
  Wallet.with_balance (Wallet.balance w + amount) (Wallet.total_deposited w + amount) w.

Definition debit (amount : Decimal) (w : Wallet.t) : Wallet.t :=
  Wallet.with_balance (Wallet.balance w - amount) (Wallet.total_deposited w) w.

(** The assignments of [confirm_proof] once its checks have passed (lines
    1155-1169): the pair, then the two balances; the funder's wallet and
    the withdrawer's are rows of one table, updated one after the other. *)
Definition update_balances (pair_id : positive) (pair : FundingMatchPair.t)
    (funder_wallet_id withdrawer_wallet_id : positive) (now : datetime) (db : Database)
    : Database :=
  let amount := FundingMatchPair.amount pair in
  let db := set_funding_match_pairs (alter (FundingMatchPair.with_confirmed now) pair_id) db in
  let db := set_wallets (alter (credit amount) funder_wallet_id) db in
  set_wallets (alter (debit amount) withdrawer_wallet_id) db.

(** [tx = WalletLog(id=uuid.uuid4(), wallet_id=..., transaction_type=...,
    amount=..., balance_after=..., description=..., created_at=...)] and
    [db.add(tx)] (lines 1172-1192); [None] when the constructor raises. *)
Definition log_transaction (wallet_id : positive) (transaction_type : string)
    (amount balance_after : Decimal) (description : Value) (now : datetime) (db : Database)
    : option Database :=
  let '(id, db) := uuid4 db in
  tx ← WalletLog.init
         [("id"%string, UUIDValue id);
          ("wallet_id"%string, UUIDValue wallet_id);
          ("transaction_type"%string, StrValue transaction_type);
          ("amount"%string, DecimalValue amount);
          ("balance_after"%string, DecimalValue balance_after);
          ("description"%string, description);
          ("created_at"%string, DateTimeValue now)];
  Some (add_wallet_log tx db).

(** The updates of [confirm_proof] up to the two [WalletLog] rows (lines
    1155-1192); each row reads its wallet after both updates. *)
Definition transfer (pair_id : positive) (pair : FundingMatchPair.t)
    (funder_wallet_id withdrawer_wallet_id : positive) (now : datetime) (db : Database)
    : option Database :=
  let amount := FundingMatchPair.amount pair in
  let db := update_balances pair_id pair funder_wallet_id withdrawer_wallet_id now db in
  funder_wallet ← wallets db !! funder_wallet_id;
  withdrawer_wallet ← wallets db !! withdrawer_wallet_id;
  db ← log_transaction funder_wallet_id "DEPOSIT" amount (Wallet.balance funder_wallet)
         (FormattedValue "P2P Funding from " (Wallet.user_id withdrawer_wallet)) now db;
  log_transaction withdrawer_wallet_id "WITHDRAWAL" amount (Wallet.balance withdrawer_wallet)
    (FormattedValue "P2P Withdrawal to " (Wallet.user_id funder_wallet)) now db.

(** Then the completion of the two requests (lines 1194-1205). *)
Definition complete_requests (pair : FundingMatchPair.t) (db : Database) : Database :=
  let db :=
    if bool_decide (all_funding_pairs_confirmed (FundingMatchPair.funding_request_id pair) db)
    then set_funding_requests
           (alter (FundingRequest.with_is_completed true)
                  (FundingMatchPair.funding_request_id pair)) db
    else db in
  if bool_decide (all_withdrawal_pairs_confirmed (FundingMatchPair.withdrawal_request_id pair) db)
  then set_withdrawal_requests
         (alter (WithdrawalRequest.with_is_completed true)
                (FundingMatchPair.withdrawal_request_id pair)) db
  else db.

Definition settle (pair_id : positive) (pair : FundingMatchPair.t)
    (funder_wallet_id withdrawer_wallet_id : positive) (now : datetime) (db : Database)
    : option Database :=
  complete_requests pair
    <$> transfer pair_id pair funder_wallet_id withdrawer_wallet_id now db.

(** [confirm_proof] (lines 1118-1233).  The data of the response are the new
    balances of the funder and of the withdrawer.  When an update raises,
    the handler of [Exception] rolls back and answers 500 (lines
    1231-1233). *)
Definition confirm_proof (pair_id user_id : positive) (now : datetime) (db : Database)
    : Database * Response (Decimal * Decimal) :=
  match funding_match_pairs db !! pair_id with
  | None => (db, HTTPException MatchPairNotFound)
  | Some match_pair =>
      match withdrawal_requests db !! FundingMatchPair.withdrawal_request_id match_pair with
      | None => (db, HTTPException WithdrawalRequestNotFound)
      | Some withdrawal_req =>
          match wallets db !! WithdrawalRequest.wallet_id withdrawal_req with
          | None => (db, HTTPException InternalServerError)
          | Some wallet =>
              if bool_decide (Wallet.user_id wallet ≠ user_id)
              then (db, HTTPException NotYourOwn)
              else if negb (FundingMatchPair.proof_uploaded match_pair)
              then (db, HTTPException NoProofUploaded)
              else if FundingMatchPair.proof_confirmed match_pair
              then (db, HTTPException ProofAlreadyConfirmed)
              else if deadline_passed (FundingMatchPair.confirmation_deadline match_pair) now
              then (db, HTTPException ConfirmationDeadlinePassed)
              else
                match funding_requests db !! FundingMatchPair.funding_request_id match_pair with
                | None => (db, HTTPException InternalServerError)
                | Some funding_req =>
                    match wallets db !! FundingRequest.wallet_id funding_req with
                    | None => (db, HTTPException InternalServerError)
                    | Some _ =>
                        match settle pair_id match_pair (FundingRequest.wallet_id funding_req)
                                (WithdrawalRequest.wallet_id withdrawal_req) now db with
                        | None => (db, HTTPException InternalServerError)
                        | Some db' =>
                            (db',
                             SuccessResponse
                               (from_option Wallet.balance 0
                                  (wallets db' !! FundingRequest.wallet_id funding_req),
                                from_option Wallet.balance 0
                                  (wallets db' !! WithdrawalRequest.wallet_id withdrawal_req)))
                        end
                    end
                end
          end
      end
  end.

(** [request_extension] (lines 1237-1297).  The data of the response is the
    new deadline. *)
Definition request_extension (pair_id user_id : positive) (now : datetime) (db : Database)
    : Database * Response datetime :=
  match funding_match_pairs db !! pair_id with
  | None => (db, HTTPException MatchPairNotFound)
  | Some match_pair =>
      match funding_requests db !! FundingMatchPair.funding_request_id match_pair with
      | None => (db, HTTPException FundingRequestNotFound)
      | Some funding_req =>
          match wallets db !! FundingRequest.wallet_id funding_req with
          | None => (db, HTTPException InternalServerError)
          | Some wallet =>
              if bool_decide (Wallet.user_id wallet ≠ user_id)
              then (db, HTTPException NotYourOwn)
              else if FundingMatchPair.extension_requested match_pair
              then (db, HTTPException ExtensionAlreadyRequested)
              else if FundingMatchPair.proof_uploaded match_pair
              then (db, HTTPException ExtensionAfterProof)
              else if deadline_passed (FundingMatchPair.proof_deadline match_pair) now
              then (db, HTTPException OriginalDeadlinePassed)
              else
                match FundingMatchPair.proof_deadline match_pair with
                | None => (db, HTTPException InternalServerError)
                | Some proof_deadline =>
                    let extended_deadline := proof_deadline + timedelta_hours 1 in
                    (set_funding_match_pairs
                       (alter (FundingMatchPair.with_extension (Some extended_deadline))
                              pair_id) db,
                     SuccessResponse extended_deadline)
                end
          end
      end
  end.

(** The deadline [get_my_active_matches] shows to the funder (line 929). *)
Definition shown_deadline (pair : FundingMatchPair.t) : option datetime :=
  if FundingMatchPair.extension_granted pair
  then FundingMatchPair.extended_deadline pair
  else FundingMatchPair.proof_deadline pair.

(** ** The service as a transition system *)

(** The operations modelled above, with their arguments. *)
Inductive Action :=
  | CreateFundingRequest (amount : Decimal) (currency : option CurrencyEnum) (user_id : positive)
  | CreateWithdrawalRequest (amount : Decimal) (currency : option CurrencyEnum)
      (user_id : positive)
  | CancelFundingRequest (foreign_keys : bool) (request_id user_id : positive)
  | CancelWithdrawalRequest (foreign_keys : bool) (request_id user_id : positive)
  | UploadProof (pair_id : positive) (file_ext : string) (stored : option string)
      (user_id : positive)
  | ConfirmProof (pair_id user_id : positive)
  | RequestExtension (pair_id user_id : positive)
  | RunMergeCycle (failure : option CurrencyEnum) (merge_cycle_id : positive)
  | RunMatching
  | CheckExpiredDeadlines.

Definition rejection {A} (r : Database * Response A) : Database * option HTTPError :=
  match r.2 with
  | SuccessResponse _ => (r.1, None)
  | HTTPException e => (r.1, Some e)
  end.

(** The database an action leaves and the rejection it answers, if any. *)
Definition perform (a : Action) (now : datetime) (db : Database)
    : Database * option HTTPError :=
  match a with
  | CreateFundingRequest amount currency user_id =>
      rejection (create_funding_request amount currency user_id now db)
  | CreateWithdrawalRequest amount currency user_id =>
      rejection (create_withdrawal_request amount currency user_id now db)
  | CancelFundingRequest foreign_keys request_id user_id =>
      rejection (cancel_funding_request foreign_keys request_id user_id now db)
  | CancelWithdrawalRequest foreign_keys request_id user_id =>
      rejection (cancel_withdrawal_request foreign_keys request_id user_id now db)
  | UploadProof pair_id file_ext stored user_id =>
      rejection (upload_proof pair_id file_ext stored user_id now db)
  | ConfirmProof pair_id user_id => rejection (confirm_proof pair_id user_id now db)
  | RequestExtension pair_id user_id => rejection (request_extension pair_id user_id now db)
  | RunMergeCycle failure merge_cycle_id => (run_merge_cycle failure now merge_cycle_id db, None)
  | RunMatching => (run_matching now db, None)
  | CheckExpiredDeadlines => (check_expired_deadlines now db, None)
  end.

(** A history: the actions with the instants at which they run. *)
Definition run_history (history : list (datetime * Action)) (db : Database) : Database :=
  foldl (λ db step, (perform step.2 step.1 db).1) db history.

(** The forward order of the status of a merge cycle. *)
Inductive status_step : CycleStatus → CycleStatus → Prop :=
  | status_claimed : status_step pending processing
  | status_completed : status_step processing completed
  | status_failed : status_step processing failed.

Definition status_forward : CycleStatus → CycleStatus → Prop := rtc status_step.

(** The bounds of the remaining amounts of the two request tables. *)
Definition requests_bounded (db : Database) : Prop :=
  map_Forall (λ _ r, 0 ≤ FundingRequest.amount_remaining r ≤ FundingRequest.amount r)
             (funding_requests db) ∧
  map_Forall (λ _ r, 0 ≤ WithdrawalRequest.amount_remaining r ≤ WithdrawalRequest.amount r)
             (withdrawal_requests db).

(** ** Example states *)

Definition hour : Z := timedelta_hours 1.

Definition wallet_of (user_id : positive) (balance : Decimal) : Wallet.t :=
  Wallet.Build user_id NAIRA balance 0 false None (Some 900%positive) None.

(** A funder (user 1, wallet 11) and a withdrawer (user 2, wallet 12, balance
    5,000.00) whose requests 21 and 22 of 5,000.00 were matched in full by
    the cycle 31 at the instant [0]: the pair 41 awaits the proof until
    [4 * hour]. *)
Definition request_21 : FundingRequest.t :=
  FundingRequest.Build 11 500000 0 true false false None (Some 31%positive) (- hour) (Some 0).

Definition request_22 : WithdrawalRequest.t :=
  WithdrawalRequest.Build 12 500000 0 true false false None (Some 31%positive) (- hour)
    (Some 0) false None 0.

Definition pair_41 : FundingMatchPair.t := new_match_pair 21 22 31 500000 0.

Definition cycle_31 : MergeCycle.t :=
  MergeCycle.Build 0 (- timedelta_minutes 10) completed 1 1 1 0 0 (Some 0) (Some 0).

Definition matched_db : Database :=
  Db (<[11%positive := wallet_of 1 0]> (<[12%positive := wallet_of 2 500000]> ∅))
     (<[21%positive := request_21]> ∅)
     (<[22%positive := request_22]> ∅)
     (<[41%positive := pair_41]> ∅)
     (<[31%positive := cycle_31]> ∅)
     ∅ [] 100.

(** A funding request of 5,000.00 with no counterpart, a funding pool of
    1,000,000.00 and the pending cycle 31 scheduled at [0]. *)
Definition pending_cycle_31 : MergeCycle.t :=
  MergeCycle.Build 0 (- timedelta_minutes 10) pending 0 0 0 0 0 None None.

Definition request_21_unmatched : FundingRequest.t :=
  FundingRequest.Build 11 500000 500000 false false false None None (- hour) None.

Definition leftover_db : Database :=
  Db (<[11%positive := wallet_of 1 0]> ∅)
     (<[21%positive := request_21_unmatched]> ∅)
     ∅ ∅
     (<[31%positive := pending_cycle_31]> ∅)
     (<[51%positive := AdminWallet.Build "funding_pool" NAIRA 100000000 0 0]> ∅)
     [] 100.

(** A funding request 21 of 7,000.00 matched for 3,000.00 only (the pair 41
    with the withdrawal request 22), beside the fully matched request 23 of
    the user 3; no cycle is pending. *)
Definition partial_db : Database :=
  Db (<[11%positive := wallet_of 1 0]>
        (<[12%positive := wallet_of 2 300000]> (<[13%positive := wallet_of 3 0]> ∅)))
     (<[21%positive :=
          FundingRequest.Build 11 700000 400000 false false false None None (- hour) None]>
        (<[23%positive :=
             FundingRequest.Build 13 500000 0 true false false None (Some 31%positive)
               (- hour) (Some 0)]> ∅))
     (<[22%positive :=
          WithdrawalRequest.Build 12 300000 0 true false false None (Some 31%positive)
            (- hour) (Some 0) false None 0]> ∅)
     (<[41%positive := new_match_pair 21 22 31 300000 0]> ∅)
     (<[31%positive := MergeCycle.Build 0 (- timedelta_minutes 10) completed 2 1 1 1 0
                         (Some 0) (Some 0)]> ∅)
     ∅ [] 100.

(** Four users with a wallet each; only the user 2 holds a balance
    (5,000.00).  No request has been made yet. *)
Definition initial_db : Database :=
  Db (<[11%positive := wallet_of 1 0]>
        (<[12%positive := wallet_of 2 500000]>
           (<[13%positive := wallet_of 3 0]> (<[14%positive := wallet_of 4 0]> ∅))))
     ∅ ∅ ∅ ∅ ∅ [] 100.

(** The user 2 asks to withdraw 5,000.00 and is matched with the user 1, who
    lets the deadline pass and then tries to upload twice; the request, put
    back twice and left with a remainder of 10,000.00, is matched in full
    with the funding request of 10,000.00 of the user 3, who uploads the
    proof of the pair 106. *)
Definition overdraw_history : list (datetime * Action) :=
  [ (0, CreateWithdrawalRequest 500000 (Some NAIRA) 2);
    (0, CreateFundingRequest 500000 (Some NAIRA) 1);
    (hour, RunMatching);
    (6 * hour, UploadProof 103 ".png" (Some "proof-1"%string) 1);
    (6 * hour, UploadProof 103 ".png" (Some "proof-1"%string) 1);
    (6 * hour, CreateFundingRequest 1000000 (Some NAIRA) 3);
    (7 * hour, RunMatching);
    (8 * hour, UploadProof 106 ".png" (Some "proof-3"%string) 3) ].

(** The statuses of the merge cycles. *)
Definition statuses (db : Database) : gmap positive CycleStatus :=
  MergeCycle.status <$> merge_cycles db.

(** A request keeps its amount and its remainder stays between zero and what
    it was; a database whose requests all do. *)
Definition funding_shrinks (r r' : FundingRequest.t) : Prop :=
  FundingRequest.amount r' = FundingRequest.amount r ∧
  0 ≤ FundingRequest.amount_remaining r' ≤ FundingRequest.amount_remaining r.

Definition withdrawal_shrinks (r r' : WithdrawalRequest.t) : Prop :=
  WithdrawalRequest.amount r' = WithdrawalRequest.amount r ∧
  0 ≤ WithdrawalRequest.amount_remaining r' ≤ WithdrawalRequest.amount_remaining r.

Definition requests_shrink (db db' : Database) : Prop :=
  (∀ k, option_Forall2 funding_shrinks (funding_requests db !! k) (funding_requests db' !! k)) ∧
  (∀ k, option_Forall2 withdrawal_shrinks
          (withdrawal_requests db !! k) (withdrawal_requests db' !! k)).

(** The total of the amounts the pool is proposed to pay. *)
Definition sum_admin (l : list (string * positive * Z)) : Z :=
  foldr (λ e acc, e.2 + acc) 0 l.

(** The invariant of the settlement: a confirmed pair has its proof. *)
Definition has_proof_if_confirmed (p : FundingMatchPair.t) : Prop :=
  FundingMatchPair.proof_confirmed p = true → FundingMatchPair.proof_uploaded p = true.

Definition confirmed_have_proof (db : Database) : Prop :=
  map_Forall (λ _ p, has_proof_if_confirmed p) (funding_match_pairs db).

(** A request after a step, against the request before: the same wallet,
    time of request and completion, no greater a remainder and, if it was
    not fully matched and keeps a positive remainder, still not fully
    matched. *)
Definition funding_kept (r r' : FundingRequest.t) : Prop :=
  FundingRequest.wallet_id r' = FundingRequest.wallet_id r ∧
  FundingRequest.requested_at r' = FundingRequest.requested_at r ∧
  FundingRequest.is_completed r' = FundingRequest.is_completed r ∧
  FundingRequest.amount_remaining r' ≤ FundingRequest.amount_remaining r ∧
  (FundingRequest.is_fully_matched r = false → 0 < FundingRequest.amount_remaining r' →
   FundingRequest.is_fully_matched r' = false).

Definition withdrawal_kept (r r' : WithdrawalRequest.t) : Prop :=
  WithdrawalRequest.wallet_id r' = WithdrawalRequest.wallet_id r ∧
  WithdrawalRequest.requested_at r' = WithdrawalRequest.requested_at r ∧
  WithdrawalRequest.is_completed r' = WithdrawalRequest.is_completed r ∧
  WithdrawalRequest.amount_remaining r' ≤ WithdrawalRequest.amount_remaining r ∧
  (WithdrawalRequest.is_fully_matched r = false → 0 < WithdrawalRequest.amount_remaining r' →
   WithdrawalRequest.is_fully_matched r' = false).

Definition requests_kept (db db' : Database) : Prop :=
  (∀ k, option_Forall2 funding_kept (funding_requests db !! k) (funding_requests db' !! k)) ∧
  (∀ k, option_Forall2 withdrawal_kept
          (withdrawal_requests db !! k) (withdrawal_requests db' !! k)).

(** Two withdrawal requests, of 800,000.00 and of 500,000.00, as the pool
    of [leftover_db] finds them. *)
Definition two_leftovers : list (positive * WithdrawalRequest.t) :=
  [(25%positive,
    WithdrawalRequest.Build 15 80000000 80000000 false false false None None 0 None false
      None 0);
   (26%positive,
    WithdrawalRequest.Build 16 50000000 50000000 false false false None None 0 None false
      None 0)].

(** A funder of 7,000.00 and two withdrawers of 4,000.00 and 3,000.00. *)
Definition one_funder : list (positive * FundingRequest.t) :=
  [(1%positive, FundingRequest.Build 11 700000 700000 false false false None None 0 None)].

Definition two_withdrawers : list (positive * WithdrawalRequest.t) :=
  [(2%positive,
    WithdrawalRequest.Build 12 400000 400000 false false false None None 0 None false None 0);
   (3%positive,
    WithdrawalRequest.Build 13 300000 300000 false false false None None 0 None false None 0)].

(** [matched_db] once the funder has uploaded the proof, one hour after the
    match. *)
Definition uploaded_db : Database :=
  (upload_proof 41 ".png" (Some "proof-1"%string) 1 hour matched_db).1.

Definition pair_41_uploaded : FundingMatchPair.t :=
  FundingMatchPair.with_proof "proof-1" hour (hour + timedelta_hours 4) pair_41.

(** A goal about a nest of checks that all leave some table alone. *)
Ltac endpoint_frame :=
  repeat (first [ progress simpl | case_match | case_bool_decide ]); done.

(** * The schedule, the join window and the administration *)

(** ** The schedule of the merges ([funding-service/merge_scheduler.py]) *)

(** The epoch of a [datetime] is a midnight of UTC.  [WAT] is
    [pytz.timezone('Africa/Lagos')], West Africa Time: one hour ahead of
    UTC, with no daylight saving time, at every instant a clock of today
    reads.  An aware datetime of that zone is represented by its wall clock,
    the naive datetime it shows; a [date] is a number of days since the
    epoch and a [time] a number of microseconds since midnight. *)
Definition timedelta_days (d : Z) : Z := d * 24 * 3600 * 1000000.
Definition timedelta_seconds (s : Z) : Z := s * 1000000.

Definition WAT_utcoffset : Z := timedelta_hours 1.

(** [d.date()], [d.time()], [datetime.combine(date, time)], [time(h, m)],
    [t.hour] and [t.minute]. *)
Definition date_of (d : datetime) : Z := d `div` timedelta_days 1.
Definition time_of (d : datetime) : Z := d `mod` timedelta_days 1.
Definition combine (date time : Z) : datetime := timedelta_days date + time.
Definition time_at (hour minute : Z) : Z := timedelta_hours hour + timedelta_minutes minute.
Definition time_hour (t : Z) : Z := t `div` timedelta_hours 1.
Definition time_minute (t : Z) : Z := (t `div` timedelta_minutes 1) `mod` 60.

(** [d.astimezone(pytz.utc).replace(tzinfo=None)] on a datetime of [WAT]. *)
Definition to_utc (d : datetime) : datetime := d - WAT_utcoffset.

Definition MERGE_TIMES : list Z := [time_at 9 0; time_at 15 0; time_at 21 0].
Definition JOIN_WINDOW_MINUTES : Z := 5.

(** [get_current_wat_time] (lines 24-26), from the instant the clock reads. *)
Definition get_current_wat_time (now : datetime) : datetime := now + WAT_utcoffset.

(** [get_next_merge_time] (lines 29-57): the merge time in UTC and the
    instant the join window closes. *)
Definition get_next_merge_time (now : datetime) : datetime * datetime :=
  let now_wat := get_current_wat_time now in
  let today_wat := date_of now_wat in
  match head (filter (λ merge_time, now_wat < combine today_wat merge_time) MERGE_TIMES) with
  | Some merge_time =>
      let merge_datetime_wat := combine today_wat merge_time in
      (to_utc merge_datetime_wat,
       to_utc (merge_datetime_wat + timedelta_minutes JOIN_WINDOW_MINUTES))
  | None =>
      let tomorrow_wat := today_wat + 1 in
      let first_merge_time := MERGE_TIMES !!! 0%nat in
      let merge_datetime_wat := combine tomorrow_wat first_merge_time in
      (to_utc merge_datetime_wat,
       to_utc (merge_datetime_wat + timedelta_minutes JOIN_WINDOW_MINUTES))
  end.

(** [is_merge_time_now] (lines 60-77). *)
Definition is_merge_time_now (now : datetime) : bool :=
  let current_time := time_of (get_current_wat_time now) in
  bool_decide
    (Exists (λ merge_time,
               time_hour current_time = time_hour merge_time ∧
               time_minute merge_time ≤ time_minute current_time < time_minute merge_time + 1)
            MERGE_TIMES).

(** The test of the two loops over [MERGE_TIMES] (lines 93-97 and
    121-126): [merge_time <= current_time < window_end]. *)
Definition in_join_window (today current_time merge_time : Z) : Prop :=
  merge_time ≤ current_time
  < time_of (combine today merge_time + timedelta_minutes JOIN_WINDOW_MINUTES).

#[global] Instance in_join_window_dec today current_time merge_time :
  Decision (in_join_window today current_time merge_time).
Proof. unfold in_join_window. apply _. Defined.

(** [is_within_join_window] (lines 80-100). *)
Definition is_within_join_window (now : datetime) : bool :=
  let now_wat := get_current_wat_time now in
  bool_decide (Exists (in_join_window (date_of now_wat) (time_of now_wat)) MERGE_TIMES).

(** [t.strftime('%I:%M %p WAT')]: the hour of the 12-hour clock and the
    minute, on two digits each. *)
Definition two_digits (n : Z) : string :=
  String (Ascii.ascii_of_nat (Z.to_nat (48 + n `div` 10)))
    (String (Ascii.ascii_of_nat (Z.to_nat (48 + n `mod` 10))) "").

Definition strftime_wat (t : Z) : string :=
  let hour12 := if bool_decide (time_hour t `mod` 12 = 0) then 12 else time_hour t `mod` 12 in
  (two_digits hour12 +:+ ":" +:+ two_digits (time_minute t) +:+
   (if bool_decide (time_hour t < 12) then " AM" else " PM") +:+ " WAT")%string.

(** The dictionary [get_current_merge_window_info] returns. *)
Record MergeWindowInfo := Build_MergeWindowInfo {
  merge_time_wat : string;
  window_closes_wat : string;
  seconds_remaining : Z;
  merge_time_utc : datetime;
  window_closes_utc : datetime }.

(** [get_current_merge_window_info] (lines 103-139).  [merge_datetime] is a
    naive datetime there, and [astimezone] takes a naive datetime for a time
    of the zone of the host: [system_utcoffset] is the offset of that zone. *)
Definition get_current_merge_window_info (system_utcoffset : Z) (now : datetime)
    : option MergeWindowInfo :=
  if negb (is_within_join_window now) then None
  else
    let now_wat := get_current_wat_time now in
    let current_time := time_of now_wat in
    match head (filter (in_join_window (date_of now_wat) current_time) MERGE_TIMES) with
    | Some merge_time =>
        let merge_datetime := combine (date_of now_wat) merge_time in
        let window_closes_datetime := merge_datetime + timedelta_minutes JOIN_WINDOW_MINUTES in
        let now_datetime := combine (date_of now_wat) current_time in
        let seconds_remaining := window_closes_datetime - now_datetime in
        Some (Build_MergeWindowInfo
                (strftime_wat (time_of merge_datetime))
                (strftime_wat (time_of window_closes_datetime))
                (Z.quot seconds_remaining (timedelta_seconds 1))
                (merge_datetime - system_utcoffset)
                (window_closes_datetime - system_utcoffset))
    | None => None
    end.

(** ** The tasks that schedule the merge cycles
       ([celery_batch_matching.py], lines 286-379) *)

(** The columns [join_window_closes] and [created_at] of [merge_cycles]:
    [create_daily_merge_cycles] writes them and no operation reads them.
    They are kept beside the table, under the key of the row. *)
Module MergeCycleWindow.
Record t := Build {
  join_window_closes : option datetime;
  created_at : datetime }.
End MergeCycleWindow.

Definition scheduled_at (scheduled_time_utc : datetime) (c : positive * MergeCycle.t) : Prop :=
  MergeCycle.scheduled_time c.2 = scheduled_time_utc.

#[global] Instance scheduled_at_dec scheduled_time_utc c :
  Decision (scheduled_at scheduled_time_utc c).
Proof. unfold scheduled_at. apply _. Defined.

(** The body of the inner loop (lines 312-343), for the merge time
    [scheduled_time_utc].  The session does not flush before a query
    ([autoflush=False], shared/database.py, line 34): [existing] is looked
    up in the table as it was committed, without the cycles added by the
    turns before. *)
Definition create_cycle (committed : gmap positive MergeCycle.t) (now_utc : datetime)
    (s : Database * gmap positive MergeCycleWindow.t) (scheduled_time_utc : datetime)
    : Database * gmap positive MergeCycleWindow.t :=
  if bool_decide (scheduled_time_utc < now_utc) then s
  else
    match head (filter (scheduled_at scheduled_time_utc) (map_to_list committed)) with
    | Some existing => s
    | None =>
        let cutoff_time := scheduled_time_utc - timedelta_minutes 10 in
        let join_window_closes := scheduled_time_utc + timedelta_minutes 5 in
        let '(id, db) := uuid4 s.1 in
        let cycle :=
          MergeCycle.Build scheduled_time_utc cutoff_time pending 0 0 0 0 0 None None in
        (set_merge_cycles (insert id cycle) db,
         <[id := MergeCycleWindow.Build (Some join_window_closes) now_utc]> s.2)
    end.

(** [create_daily_merge_cycles] (lines 287-353). *)
Definition create_daily_merge_cycles (now_utc : datetime)
    (s : Database * gmap positive MergeCycleWindow.t)
    : Database * gmap positive MergeCycleWindow.t :=
  let committed := merge_cycles s.1 in
  let merge_times := [9; 15; 21] in
  let now_wat := get_current_wat_time now_utc in
  let today_wat := date_of now_wat in
  foldl (λ s day_offset,
           let date := today_wat + day_offset in
           foldl (λ s hour,
                    create_cycle committed now_utc s (to_utc (combine date (time_at hour 0))))
                 s merge_times)
        s (seqZ 0 7).

(** [schedule_merge_cycle_execution] (lines 357-379): the tasks
    [run_merge_cycle.delay(str(cycle.id))] it queues, by the key of their
    cycle. *)
Definition ready_cycle (now : datetime) (c : positive * MergeCycle.t) : Prop :=
  MergeCycle.scheduled_time c.2 ≤ now ∧ MergeCycle.status c.2 = pending.

#[global] Instance ready_cycle_dec now c : Decision (ready_cycle now c).
Proof. unfold ready_cycle. apply _. Defined.

Definition schedule_merge_cycle_execution (now : datetime) (db : Database) : list positive :=
  (filter (ready_cycle now) (map_to_list (merge_cycles db))).*1.

(** The instants of the merges: 9:00, 15:00 and 21:00 of Lagos, every day. *)
Definition merge_instant (m : datetime) : Prop :=
  ∃ day merge_time, merge_time ∈ MERGE_TIMES ∧ m = to_utc (combine day merge_time).

(** The keys of a table lie below the counter of [uuid4]: the keys it draws
    are new. *)
Definition cycles_below_counter (db : Database) : Prop :=
  ∀ k, is_Some (merge_cycles db !! k) → (k < next_uuid db)%positive.

(** No two cycles are scheduled at the same time (the column is declared
    [unique=True]). *)
Definition scheduled_once (cycles : gmap positive MergeCycle.t) : Prop :=
  ∀ k1 k2 c1 c2,
    cycles !! k1 = Some c1 → cycles !! k2 = Some c2 →
    MergeCycle.scheduled_time c1 = MergeCycle.scheduled_time c2 → k1 = k2.

(** The merge times [create_daily_merge_cycles] goes through, in the order
    of its two loops. *)
Definition merge_slots (today_wat : Z) : list datetime :=
  day_offset ← seqZ 0 7;
  hour ← [9; 15; 21];
  [to_utc (combine (today_wat + day_offset) (time_at hour 0))].

(** The cycle [create_daily_merge_cycles] adds for the merge time [t], and
    the columns beside it. *)
Definition created_cycle (now t : datetime) (c : MergeCycle.t) (w : option MergeCycleWindow.t)
    : Prop :=
  c = MergeCycle.Build t (t - timedelta_minutes 10) pending 0 0 0 0 0 None None ∧
  w = Some (MergeCycleWindow.Build (Some (t + timedelta_minutes 5)) now).

(** The scheduled times of the merge cycles. *)
Definition schedule (db : Database) : gmap positive datetime :=
  MergeCycle.scheduled_time <$> merge_cycles db.

(** ** The join window and the administrator's endpoints ([main.py]) *)

(** The rows of [users], with the columns these endpoints read; no
    operation of the funding service writes them. *)
Module User.
Record t := Build {
  email : string;
  username : string;
  is_admin : bool }.
End User.

(** The rejections of these endpoints.  [ServerError] is the 500 of the
    [except Exception] handlers. *)
Inductive EndpointError :=
  | JoinWindowNotOpen (minutes_until_window : Z)
  | NoPendingRequests
  | AdminAccessRequired
  | RequestNotFound
  | AmountExceedsRemaining
  | NoMergeCycleAvailable
  | UserNotFound
  | NoWalletsFound
  | ServerError.

#[global] Instance EndpointError_eq_dec : EqDecision EndpointError.
Proof. solve_decision. Defined.

Definition endpoint_status_code (e : EndpointError) : Z :=
  match e with
  | AdminAccessRequired => 403
  | RequestNotFound | UserNotFound | NoWalletsFound => 404
  | ServerError => 500
  | _ => 400
  end.

Inductive Reply (A : Type) :=
  | Success (data : A)
  | Rejected (e : EndpointError).
Arguments Success {A} data.
Arguments Rejected {A} e.

(** *** The join window (lines 729-862) *)

(** The queries of [join_merge_cycle] (lines 759-769): the requests of the
    wallets of the user that are neither completed nor opted in. *)
Definition joinable_funding (db : Database) (user_id : positive)
    (r : positive * FundingRequest.t) : Prop :=
  wallet_of_user db user_id (FundingRequest.wallet_id r.2) ∧
  FundingRequest.is_completed r.2 = false ∧ FundingRequest.opted_in r.2 = false.

Definition joinable_withdrawal (db : Database) (user_id : positive)
    (r : positive * WithdrawalRequest.t) : Prop :=
  wallet_of_user db user_id (WithdrawalRequest.wallet_id r.2) ∧
  WithdrawalRequest.is_completed r.2 = false ∧ WithdrawalRequest.opted_in r.2 = false.

#[global] Instance joinable_funding_dec db user_id r : Decision (joinable_funding db user_id r).
Proof. unfold joinable_funding. apply _. Defined.
#[global] Instance joinable_withdrawal_dec db user_id r :
  Decision (joinable_withdrawal db user_id r).
Proof. unfold joinable_withdrawal. apply _. Defined.

(** [req.opted_in = True; req.opted_in_at = now]. *)
Definition opt_in_funding (now : datetime) (r : FundingRequest.t) : FundingRequest.t :=
  FundingRequest.Build (FundingRequest.wallet_id r) (FundingRequest.amount r)
    (FundingRequest.amount_remaining r) (FundingRequest.is_fully_matched r)
    (FundingRequest.is_completed r) true (Some now) (FundingRequest.merge_cycle_id r)
    (FundingRequest.requested_at r) (FundingRequest.matched_at r).

Definition opt_in_withdrawal (now : datetime) (r : WithdrawalRequest.t) : WithdrawalRequest.t :=
  WithdrawalRequest.Build (WithdrawalRequest.wallet_id r) (WithdrawalRequest.amount r)
    (WithdrawalRequest.amount_remaining r) (WithdrawalRequest.is_fully_matched r)
    (WithdrawalRequest.is_completed r) true (Some now) (WithdrawalRequest.merge_cycle_id r)
    (WithdrawalRequest.requested_at r) (WithdrawalRequest.matched_at r)
    (WithdrawalRequest.is_priority r) (WithdrawalRequest.priority_timestamp r)
    (WithdrawalRequest.failed_match_count r).

(** The updates of [join_merge_cycle] and the data of its response (lines
    777-801).  [now] is the local variable of that name, [None] while it is
    not assigned: reading it then raises [UnboundLocalError], which gives
    [None] here. *)
Definition join_updates (now : option datetime)
    (funding_req : option (positive * FundingRequest.t))
    (withdrawal_req : option (positive * WithdrawalRequest.t))
    (window_info : MergeWindowInfo) (db : Database)
    : option (Database * (string * MergeWindowInfo * datetime)) :=
  let request_type := ""%string in
  '(db, request_type) ←
    match funding_req with
    | Some funding_req =>
        now ← now;
        Some (set_funding_requests (alter (opt_in_funding now) funding_req.1) db,
              "funding"%string)
    | None => Some (db, request_type)
    end;
  '(db, request_type) ←
    match withdrawal_req with
    | Some withdrawal_req =>
        now ← now;
        Some (set_withdrawal_requests (alter (opt_in_withdrawal now) withdrawal_req.1) db,
              "withdrawal"%string)
    | None => Some (db, request_type)
    end;
  now ← now;
  Some (db, (request_type, window_info, now)).

(** [join_merge_cycle] (lines 730-807), at the instant [utcnow].  The only
    assignment of the local [now] is in the branch that rejects the call
    outside of a join window (line 750); past that branch [now] is not
    assigned.  The handler of [Exception] rolls back and answers 500. *)
Definition join_merge_cycle (system_utcoffset : Z) (user_id : positive) (utcnow : datetime)
    (db : Database) : Database * Reply (string * MergeWindowInfo * datetime) :=
  match get_current_merge_window_info system_utcoffset utcnow with
  | None =>
      let next_merge_utc := (get_next_merge_time utcnow).1 in
      let now := utcnow in
      let minutes_until_window := Z.quot (next_merge_utc - now) (timedelta_minutes 1) in
      (db, Rejected (JoinWindowNotOpen minutes_until_window))
  | Some window_info =>
      let now : option datetime := None in
      let funding_req :=
        head (filter (joinable_funding db user_id) (map_to_list (funding_requests db))) in
      let withdrawal_req :=
        head (filter (joinable_withdrawal db user_id) (map_to_list (withdrawal_requests db))) in
      if bool_decide (funding_req = None ∧ withdrawal_req = None)
      then (db, Rejected NoPendingRequests)
      else
        match join_updates now funding_req withdrawal_req window_info db with
        | Some (db, data) => (db, Success data)
        | None => (db, Rejected ServerError)
        end
  end.

(** The data of [get_my_merge_cycle_status]. *)
Record MergeCycleStatus := Build_MergeCycleStatus {
  status_next_merge_time : datetime;
  status_join_window_closes : datetime;
  status_has_pending_request : bool;
  status_already_opted_in : option bool;
  status_in_join_window : bool;
  status_window_info : option MergeWindowInfo;
  status_can_join : bool;
  status_request_type : option string }.

(** The queries of [get_my_merge_cycle_status] (lines 828-836). *)
Definition open_funding (db : Database) (user_id : positive)
    (r : positive * FundingRequest.t) : Prop :=
  wallet_of_user db user_id (FundingRequest.wallet_id r.2) ∧
  FundingRequest.is_completed r.2 = false.

Definition open_withdrawal (db : Database) (user_id : positive)
    (r : positive * WithdrawalRequest.t) : Prop :=
  wallet_of_user db user_id (WithdrawalRequest.wallet_id r.2) ∧
  WithdrawalRequest.is_completed r.2 = false.

#[global] Instance open_funding_dec db user_id r : Decision (open_funding db user_id r).
Proof. unfold open_funding. apply _. Defined.
#[global] Instance open_withdrawal_dec db user_id r : Decision (open_withdrawal db user_id r).
Proof. unfold open_withdrawal. apply _. Defined.

(** [get_my_merge_cycle_status] (lines 811-862).  [already_opted_in] is
    the value of
    [(funding_req and funding_req.opted_in) or (withdrawal_req and withdrawal_req.opted_in)],
    which is [None] when the second operand is reached without a withdrawal
    request. *)
Definition get_my_merge_cycle_status (system_utcoffset : Z) (user_id : positive)
    (utcnow : datetime) (db : Database) : MergeCycleStatus :=
  let window_info := get_current_merge_window_info system_utcoffset utcnow in
  let '(next_merge_utc, join_window_closes_utc) := get_next_merge_time utcnow in
  let funding_req :=
    head (filter (open_funding db user_id) (map_to_list (funding_requests db))) in
  let withdrawal_req :=
    head (filter (open_withdrawal db user_id) (map_to_list (withdrawal_requests db))) in
  let has_pending := bool_decide (is_Some funding_req ∨ is_Some withdrawal_req) in
  let already_opted_in :=
    match funding_req with
    | Some funding_req =>
        if FundingRequest.opted_in funding_req.2 then Some true
        else (λ w : positive * WithdrawalRequest.t, WithdrawalRequest.opted_in w.2)
               <$> withdrawal_req
    | None =>
        (λ w : positive * WithdrawalRequest.t, WithdrawalRequest.opted_in w.2)
          <$> withdrawal_req
    end in
  let in_join_window := bool_decide (is_Some window_info) in
  let can_join :=
    has_pending && negb (bool_decide (already_opted_in = Some true)) && in_join_window in
  Build_MergeCycleStatus next_merge_utc join_window_closes_utc has_pending already_opted_in
    in_join_window window_info can_join
    (match funding_req, withdrawal_req with
     | Some _, _ => Some "funding"%string
     | None, Some _ => Some "withdrawal"%string
     | None, None => None
     end).

(** *** The administrator's endpoints (lines 1448-1528, 1715-1774 and
        1823-1863) *)

(** [user = db.query(User)...first()] and the check
    [if not user or not user.is_admin]. *)
Definition admin_user (users : gmap positive User.t) (user_id : positive) : option User.t :=
  match users !! user_id with
  | Some user => if User.is_admin user then Some user else None
  | None => None
  end.

(** The pair [manual_match_requests] creates (lines 1484-1493): no deadline
    is given. *)
Definition manual_match_pair (funding_id withdrawal_id cycle_id : positive) (amount : Decimal)
    (now : datetime) : FundingMatchPair.t :=
  FundingMatchPair.Build funding_id withdrawal_id cycle_id amount
    false None None false None None
    None None
    false false None false false now.

(** [manual_match_requests] (lines 1449-1528).  The data of the response
    are the key of the pair and the two remaining amounts. *)
Definition manual_match_requests (users : gmap positive User.t)
    (funding_request_id withdrawal_request_id : positive) (amount : Decimal)
    (user_id : positive) (now : datetime) (db : Database)
    : Database * Reply (positive * Decimal * Decimal) :=
  match admin_user users user_id with
  | None => (db, Rejected AdminAccessRequired)
  | Some user =>
      match funding_requests db !! funding_request_id,
            withdrawal_requests db !! withdrawal_request_id with
      | Some funding_req, Some withdrawal_req =>
          if bool_decide (FundingRequest.amount_remaining funding_req < amount ∨
                          WithdrawalRequest.amount_remaining withdrawal_req < amount)
          then (db, Rejected AmountExceedsRemaining)
          else
            match get_next_merge_cycle now db with
            | None => (db, Rejected NoMergeCycleAvailable)
            | Some next_cycle =>
                let '(pair_id, db) := uuid4 db in
                let db :=
                  set_funding_match_pairs
                    (insert pair_id
                       (manual_match_pair funding_request_id withdrawal_request_id
                          next_cycle.1 amount now)) db in
                let db :=
                  set_funding_requests
                    (alter (match_funding next_cycle.1 now amount) funding_request_id) db in
                let db :=
                  set_withdrawal_requests
                    (alter (match_withdrawal next_cycle.1 now amount) withdrawal_request_id)
                    db in
                (db,
                 Success (pair_id,
                          FundingRequest.amount_remaining funding_req - amount,
                          WithdrawalRequest.amount_remaining withdrawal_req - amount))
            end
      | _, _ => (db, Rejected RequestNotFound)
      end
  end.

(** [wallet.is_blocked = False]: the reason of the block stays. *)
Definition unblock (w : Wallet.t) : Wallet.t :=
  Wallet.with_block false (Wallet.block_reason w) w.

(** [unblock_user] (lines 1716-1774).  [user_email] is the lower-cased
    argument, [user_email.lower()]; the data of the response are the key of
    the user and the number of wallets unblocked. *)
Definition unblock_user (users : gmap positive User.t) (user_email : string)
    (user_id : positive) (db : Database) : Database * Reply (positive * Z) :=
  match admin_user users user_id with
  | None => (db, Rejected AdminAccessRequired)
  | Some admin_user =>
      match head (filter (λ u : positive * User.t, User.email u.2 = user_email)
                         (map_to_list users)) with
      | None => (db, Rejected UserNotFound)
      | Some target_user =>
          let user_wallets :=
            filter (λ w : positive * Wallet.t, Wallet.user_id w.2 = target_user.1)
                   (map_to_list (wallets db)) in
          if bool_decide (user_wallets = []) then (db, Rejected NoWalletsFound)
          else
            let '(db, unblocked_count) :=
              foldl (λ '(db, unblocked_count) (wallet : positive * Wallet.t),
                       if Wallet.is_blocked wallet.2
                       then (set_wallets (alter unblock wallet.1) db, unblocked_count + 1)
                       else (db, unblocked_count))
                    (db, 0) user_wallets in
            (db, Success (target_user.1, unblocked_count))
      end
  end.

(** [demo_trigger_merge] (lines 1824-1863): the automatic matcher, run for
    an administrator.  The data of the response is the name of the
    administrator. *)
Definition demo_trigger_merge (users : gmap positive User.t) (user_id : positive)
    (now : datetime) (db : Database) : Database * Reply string :=
  match admin_user users user_id with
  | None => (db, Rejected AdminAccessRequired)
  | Some user => (run_matching now db, Success (User.username user))
  end.

(** ** Properties of the requests and of the balances *)

(** Every creation of a request by the user is refused for the request the
    user already has. *)
Definition creation_refused (user_id : positive) (db : Database) : Prop :=
  ∀ amount currency now,
    MIN_AMOUNT ≤ amount ≤ MAX_AMOUNT → is_Some currency →
    create_funding_request amount currency user_id now db
    = (db, HTTPException PendingRequestExists) ∧
    create_withdrawal_request amount currency user_id now db
    = (db, HTTPException PendingRequestExists).

(** The balance and the total of the deposits of every wallet. *)
Definition balances (db : Database) : gmap positive (Decimal * Decimal) :=
  (λ w, (Wallet.balance w, Wallet.total_deposited w)) <$> wallets db.

(** ** Further example states *)

(** [leftover_db] with a withdrawal request of the user 2 made five minutes
    before the merge of the cycle 31, after its cutoff. *)
Definition late_request_22 : WithdrawalRequest.t :=
  WithdrawalRequest.Build 12 500000 500000 false false false None None
    (- timedelta_minutes 5) None false None 0.

Definition late_withdrawal_db : Database :=
  Db (<[11%positive := wallet_of 1 0]> (<[12%positive := wallet_of 2 500000]> ∅))
     (<[21%positive := request_21_unmatched]> ∅)
     (<[22%positive := late_request_22]> ∅)
     ∅
     (<[31%positive := pending_cycle_31]> ∅)
     ∅ [] 100.

(** The users 1 and 2, and the administrator 9. *)
Definition example_users : gmap positive User.t :=
  <[1%positive := User.Build "funder@example.com" "funder" false]>
    (<[2%positive := User.Build "withdrawer@example.com" "withdrawer" false]>
       (<[9%positive := User.Build "admin@example.com" "admin" true]> ∅)).

(** * Properties *)

(** ** The matching algorithm *)

Lemma insert_by_perm {A} (key : A → Z) x l : insert_by key x l ≡ₚ x :: l.
Proof.
  induction l as [|y l IH]; simpl; [done|].
  case_bool_decide; [done|]. rewrite IH. apply Permutation_swap.
Qed.

Lemma sorted_perm {A} (key : A → Z) l : sorted key l ≡ₚ l.
Proof.
  induction l as [|x l IH]; [done|].
  unfold sorted in *. simpl. rewrite insert_by_perm. by rewrite IH.
Qed.

Lemma sum_snd_insert l (k : nat) e e' :
  l !! k = Some e → sum_snd (<[k := e']> l) = sum_snd l - e.2 + e'.2.
Proof.
  revert k. induction l as [|y l IH]; intros [|k] H; simplify_eq/=; [lia|].
  rewrite (IH _ H). lia.
Qed.

Lemma sum_snd_nonneg l : Forall (λ e : positive * Z, 0 ≤ e.2) l → 0 ≤ sum_snd l.
Proof. induction 1; simpl; lia. Qed.

Lemma sum_snd_zero l : (∀ (k : nat) e, l !! k = Some e → e.2 = 0) → sum_snd l = 0.
Proof.
  induction l as [|y l IH]; intros H; simpl; [done|].
  rewrite (H 0%nat y eq_refl), IH; [done|]. intros k e Hk. by apply (H (S k)).
Qed.

Lemma remaining_of_insert x l (k : nat) id v v' :
  l !! k = Some (id, v) →
  remaining_of x (<[k := (id, v')]> l)
  = remaining_of x l + (if bool_decide (id = x) then v' - v else 0).
Proof.
  revert k. induction l as [|y l IH]; intros [|k] H; simplify_eq/=.
  - case_bool_decide; lia.
  - rewrite (IH _ H). lia.
Qed.

Lemma remaining_of_nonneg x l :
  Forall (λ e : positive * Z, 0 ≤ e.2) l → 0 ≤ remaining_of x l.
Proof. induction 1; simpl; [lia|case_bool_decide; lia]. Qed.

Lemma sum_amounts_app ms ms' : sum_amounts (ms ++ ms') = sum_amounts ms + sum_amounts ms'.
Proof. induction ms; simpl in *; lia. Qed.

Lemma matched_for_funder_app x ms ms' :
  matched_for_funder x (ms ++ ms') = matched_for_funder x ms + matched_for_funder x ms'.
Proof. induction ms; simpl in *; lia. Qed.

Lemma matched_for_withdrawer_app x ms ms' :
  matched_for_withdrawer x (ms ++ ms')
  = matched_for_withdrawer x ms + matched_for_withdrawer x ms'.
Proof. induction ms; simpl in *; lia. Qed.

(** What an iteration does, read off [match_step]. *)
Lemma match_step_Some s s' :
  match_step s = Some s' →
  ∃ fid fr wid wr,
    funders s !! cursor_i s = Some (fid, fr) ∧
    withdrawers s !! cursor_j s = Some (wid, wr) ∧
    s' = MatchState (<[cursor_i s := (fid, fr - Z.min fr wr)]> (funders s))
           (<[cursor_j s := (wid, wr - Z.min fr wr)]> (withdrawers s))
           (if bool_decide (fr - Z.min fr wr = 0) then S (cursor_i s) else cursor_i s)
           (if bool_decide (wr - Z.min fr wr = 0) then S (cursor_j s) else cursor_j s)
           (matches s ++ [(fid, wid, Z.min fr wr)]).
Proof.
  unfold match_step. intros H.
  destruct (funders s !! cursor_i s) as [[fid fr]|] eqn:Hf; [|done].
  destruct (withdrawers s !! cursor_j s) as [[wid wr]|] eqn:Hw; [|done].
  simplify_eq. by exists fid, fr, wid, wr.
Qed.

(** Every iteration moves a cursor: the loop ends. *)
Lemma match_step_measure s s' :
  match_step s = Some s' → (loop_measure s' < loop_measure s)%nat.
Proof.
  intros (fid & fr & wid & wr & Hf & Hw & ->)%match_step_Some.
  apply lookup_lt_Some in Hf, Hw. unfold loop_measure. simpl.
  rewrite !length_insert.
  repeat case_bool_decide; lia.
Qed.

Lemma match_loop_exits fuel s :
  (loop_measure s ≤ fuel)%nat → ∃ s', match_loop fuel s = Some s'.
Proof.
  revert s. induction fuel as [|fuel IH]; intros s Hm; simpl.
  - destruct (match_step s) as [s'|] eqn:Hs; [|eauto].
    apply match_step_measure in Hs. lia.
  - destruct (match_step s) as [s'|] eqn:Hs; [|eauto].
    apply IH. apply match_step_measure in Hs. lia.
Qed.

(** The rule of the loop invariant. *)
Lemma match_loop_invariant (P : match_state → Prop) :
  (∀ s s', P s → match_step s = Some s' → P s') →
  ∀ fuel s s', match_loop fuel s = Some s' → P s → P s' ∧ match_step s' = None.
Proof.
  intros Hstep. induction fuel as [|fuel IH]; intros s s'; simpl.
  - destruct (match_step s) eqn:Hs; [done|]. by intros [= <-].
  - destruct (match_step s) as [s1|] eqn:Hs.
    + intros Hl HP. eapply IH; eauto.
    + by intros [= <-].
Qed.

Lemma amounts_inv_init s0 :
  Forall (λ e, 0 ≤ e.2) (funders s0) → Forall (λ e, 0 ≤ e.2) (withdrawers s0) →
  cursor_i s0 = 0%nat → cursor_j s0 = 0%nat → matches s0 = [] →
  amounts_inv s0 s0.
Proof.
  intros Hf Hw Hi Hj Hm. split; try done.
  - intros k e. rewrite Hi. lia.
  - intros k e. rewrite Hj. lia.
  - rewrite Hm. constructor.
Qed.

Lemma amounts_inv_step s0 s s' :
  amounts_inv s0 s → match_step s = Some s' → amounts_inv s0 s'.
Proof.
  intros [Hfn Hwn Hfd Hwd Hfs Hws Hfi Hwi Hmn]
         (fid & fr & wid & wr & Hf & Hw & ->)%match_step_Some.
  pose proof (Forall_lookup_1 _ _ _ _ Hfn Hf) as Hfr.
  pose proof (Forall_lookup_1 _ _ _ _ Hwn Hw) as Hwr. simpl in Hfr, Hwr.
  split; simpl.
  - apply Forall_insert; [done|]. simpl. lia.
  - apply Forall_insert; [done|]. simpl. lia.
  - intros k e Hk. destruct (decide (k = cursor_i s)) as [->|Hne].
    + rewrite list_lookup_insert_eq by (by eapply lookup_lt_Some).
      intros [= <-]. simpl. case_bool_decide; [done|lia].
    + rewrite list_lookup_insert_ne by done. apply Hfd.
      case_bool_decide; lia.
  - intros k e Hk. destruct (decide (k = cursor_j s)) as [->|Hne].
    + rewrite list_lookup_insert_eq by (by eapply lookup_lt_Some).
      intros [= <-]. simpl. case_bool_decide; [done|lia].
    + rewrite list_lookup_insert_ne by done. apply Hwd.
      case_bool_decide; lia.
  - rewrite sum_amounts_app, (sum_snd_insert _ _ _ _ Hf). simpl. lia.
  - rewrite sum_amounts_app, (sum_snd_insert _ _ _ _ Hw). simpl. lia.
  - intros x. rewrite matched_for_funder_app, (remaining_of_insert _ _ _ _ _ _ Hf).
    simpl. specialize (Hfi x). case_bool_decide; lia.
  - intros x. rewrite matched_for_withdrawer_app, (remaining_of_insert _ _ _ _ _ _ Hw).
    simpl. specialize (Hwi x). case_bool_decide; lia.
  - apply Forall_app; split; [done|]. repeat constructor. simpl. lia.
Qed.

(** At the exit one list is used up: the matches add up to the smaller
    total. *)
Lemma amounts_inv_exit s0 s :
  amounts_inv s0 s → match_step s = None →
  sum_amounts (matches s) - sum_amounts (matches s0)
  = Z.min (sum_snd (funders s0)) (sum_snd (withdrawers s0)).
Proof.
  intros [Hfn Hwn Hfd Hwd Hfs Hws _ _ _] Hstep.
  pose proof (sum_snd_nonneg _ Hfn). pose proof (sum_snd_nonneg _ Hwn).
  unfold match_step in Hstep.
  destruct (funders s !! cursor_i s) as [[fid fr]|] eqn:Hf.
  - destruct (withdrawers s !! cursor_j s) as [[wid wr]|] eqn:Hw; [done|].
    apply lookup_ge_None in Hw.
    assert (sum_snd (withdrawers s) = 0); [|lia].
    apply sum_snd_zero. intros k e Hk. eapply Hwd; [|done].
    apply lookup_lt_Some in Hk. lia.
  - apply lookup_ge_None in Hf.
    assert (sum_snd (funders s) = 0); [|lia].
    apply sum_snd_zero. intros k e Hk. eapply Hfd; [|done].
    apply lookup_lt_Some in Hk. lia.
Qed.

(** Every triple of [matches] was appended by an iteration, which took the
    minimum of the two remaining amounts under the cursors. *)
Lemma computed_inv_step s0 s s' :
  (loop_reaches s0 s ∧
   ∀ t, t ∈ matches s → t ∈ matches s0 ∨
        ∃ fr wr, computed_at s0 t fr wr ∧ t.2 ≤ fr ∧ t.2 ≤ wr) →
  match_step s = Some s' →
  loop_reaches s0 s' ∧
  ∀ t, t ∈ matches s' → t ∈ matches s0 ∨
       ∃ fr wr, computed_at s0 t fr wr ∧ t.2 ≤ fr ∧ t.2 ≤ wr.
Proof.
  intros [Hr Hm] Hs. split; [by eapply reaches_step|].
  pose proof Hs as (fid & fr & wid & wr & Hf & Hw & ->)%match_step_Some. simpl.
  intros t [Ht|Ht%list_elem_of_singleton]%elem_of_app; [by apply Hm|]. subst t.
  right. exists fr, wr. simpl. split_and!; [|lia|lia].
  eexists s, _. simpl. split_and!; first [done | exact Hs].
Qed.

Lemma total_funding_remaining_perm l l' :
  l ≡ₚ l' → total_funding_remaining l = total_funding_remaining l'.
Proof. induction 1; simpl in *; lia. Qed.

Lemma total_withdrawal_remaining_perm l l' :
  l ≡ₚ l' → total_withdrawal_remaining l = total_withdrawal_remaining l'.
Proof. induction 1; simpl in *; lia. Qed.

Lemma sum_snd_funders l :
  sum_snd ((λ f, (f.1, FundingRequest.amount_remaining f.2)) <$> l)
  = total_funding_remaining l.
Proof.
  induction l as [|x l IH]; [done|].
  rewrite fmap_cons. unfold sum_snd in *. simpl. by rewrite IH.
Qed.

Lemma sum_snd_withdrawers l :
  sum_snd ((λ w, (w.1, WithdrawalRequest.amount_remaining w.2)) <$> l)
  = total_withdrawal_remaining l.
Proof.
  induction l as [|x l IH]; [done|].
  rewrite fmap_cons. unfold sum_snd in *. simpl. by rewrite IH.
Qed.

Lemma match_init_funders_sum F W :
  sum_snd (funders (match_init F W)) = total_funding_remaining F.
Proof.
  unfold match_init; simpl. rewrite sum_snd_funders.
  apply total_funding_remaining_perm, sorted_perm.
Qed.

Lemma match_init_withdrawers_sum F W :
  sum_snd (withdrawers (match_init F W)) = total_withdrawal_remaining W.
Proof.
  unfold match_init; simpl. rewrite sum_snd_withdrawers.
  apply total_withdrawal_remaining_perm, sorted_perm.
Qed.

Lemma match_init_measure F W :
  loop_measure (match_init F W) = (length F + length W)%nat.
Proof.
  unfold loop_measure. simpl. rewrite !length_fmap, !Nat.sub_0_r.
  by rewrite !sorted_perm.
Qed.

Lemma match_init_nonneg F W :
  Forall (λ r, 0 ≤ FundingRequest.amount_remaining r.2) F →
  Forall (λ r, 0 ≤ WithdrawalRequest.amount_remaining r.2) W →
  Forall (λ e, 0 ≤ e.2) (funders (match_init F W)) ∧
  Forall (λ e, 0 ≤ e.2) (withdrawers (match_init F W)).
Proof.
  intros HF HW. simpl. split; apply Forall_fmap; by rewrite sorted_perm.
Qed.

(** The loop of [smart_match_requests] runs to its exit. *)
Lemma smart_match_requests_exit F W :
  ∃ s, match_loop (length F + length W) (match_init F W) = Some s ∧
       smart_match_requests F W = matches s.
Proof.
  destruct (match_loop_exits (length F + length W) (match_init F W)) as [s Hs].
  { by rewrite match_init_measure. }
  exists s. split; [done|]. unfold smart_match_requests. by rewrite Hs.
Qed.

(** C1.  For two lists of requests whose remaining amounts are all strictly
    positive, the loop of [smart_match_requests] runs to its exit and returns
    triples whose amounts add up to the minimum of the two totals of
    remaining amounts; each triple is computed by an iteration in which its
    amount is at most the remaining amount of the funder and at most the
    remaining amount of the withdrawer under the cursors at that moment. *)
Theorem smart_match_requests_sum_and_bound
    (F : list (positive * FundingRequest.t)) (W : list (positive * WithdrawalRequest.t)) :
  Forall (λ r, 0 < FundingRequest.amount_remaining r.2) F →
  Forall (λ r, 0 < WithdrawalRequest.amount_remaining r.2) W →
  ∃ s_end,
    match_loop (length F + length W) (match_init F W) = Some s_end ∧
    smart_match_requests F W = matches s_end ∧
    sum_amounts (smart_match_requests F W)
    = Z.min (total_funding_remaining F) (total_withdrawal_remaining W) ∧
    ∀ t, t ∈ smart_match_requests F W →
      ∃ funder_remaining withdrawer_remaining,
        computed_at (match_init F W) t funder_remaining withdrawer_remaining ∧
        t.2 ≤ funder_remaining ∧ t.2 ≤ withdrawer_remaining.
Proof.
  intros HF HW.
  destruct (smart_match_requests_exit F W) as (s & Hloop & Hres).
  exists s. split; [done|]. split; [done|]. rewrite Hres.
  destruct (match_init_nonneg F W) as [Hfn Hwn].
  { eapply Forall_impl; [exact HF|]. simpl. lia. }
  { eapply Forall_impl; [exact HW|]. simpl. lia. }
  split.
  - destruct (match_loop_invariant (amounts_inv (match_init F W))
                (amounts_inv_step _) _ _ _ Hloop) as [Hinv Hexit].
    { by apply amounts_inv_init. }
    pose proof (amounts_inv_exit _ _ Hinv Hexit) as Hsum.
    rewrite match_init_funders_sum, match_init_withdrawers_sum in Hsum.
    simpl in Hsum. lia.
  - destruct (match_loop_invariant _ (computed_inv_step (match_init F W)) _ _ _ Hloop)
      as [[_ Hc] _].
    { split; [constructor|]. intros t Ht. by left. }
    intros t Ht. destruct (Hc t Ht) as [Hin|]; [|done].
    simpl in Hin. by apply elem_of_nil in Hin.
Qed.

Lemma smart_match_requests_sum_and_bound_witness :
  Forall (λ r, 0 < FundingRequest.amount_remaining r.2) one_funder ∧
  Forall (λ r, 0 < WithdrawalRequest.amount_remaining r.2) two_withdrawers ∧
  ∃ s_end,
    match_loop 3 (match_init one_funder two_withdrawers) = Some s_end ∧
    smart_match_requests one_funder two_withdrawers = matches s_end ∧
    sum_amounts (smart_match_requests one_funder two_withdrawers)
    = Z.min (total_funding_remaining one_funder) (total_withdrawal_remaining two_withdrawers) ∧
    ∀ t, t ∈ smart_match_requests one_funder two_withdrawers →
      ∃ funder_remaining withdrawer_remaining,
        computed_at (match_init one_funder two_withdrawers) t
          funder_remaining withdrawer_remaining ∧
        t.2 ≤ funder_remaining ∧ t.2 ≤ withdrawer_remaining.
Proof.
  assert (Forall (λ r, 0 < FundingRequest.amount_remaining r.2) one_funder) as HF.
  { repeat constructor. }
  assert (Forall (λ r, 0 < WithdrawalRequest.amount_remaining r.2) two_withdrawers) as HW.
  { repeat constructor. }
  split; [exact HF|]. split; [exact HW|].
  exact (smart_match_requests_sum_and_bound one_funder two_withdrawers HF HW).
Defined.

(** Scenario 2 of the specification: 3,000.00 first, then 4,000.00. *)
Example scenario_two_pairs :
  smart_match_requests one_funder two_withdrawers
  = [(1%positive, 3%positive, 300000); (1%positive, 2%positive, 400000)].
Proof. reflexivity. Qed.

(** ** The status of a merge cycle *)


Lemma create_funding_request_cycles amount currency user_id now db :
  merge_cycles (create_funding_request amount currency user_id now db).1 = merge_cycles db.
Proof. unfold create_funding_request. endpoint_frame. Qed.
Lemma create_withdrawal_request_cycles amount currency user_id now db :
  merge_cycles (create_withdrawal_request amount currency user_id now db).1 = merge_cycles db.
Proof. unfold create_withdrawal_request. endpoint_frame. Qed.
Lemma cancel_funding_request_cycles fk request_id user_id now db :
  merge_cycles (cancel_funding_request fk request_id user_id now db).1 = merge_cycles db.
Proof. unfold cancel_funding_request. endpoint_frame. Qed.
Lemma cancel_withdrawal_request_cycles fk request_id user_id now db :
  merge_cycles (cancel_withdrawal_request fk request_id user_id now db).1 = merge_cycles db.
Proof. unfold cancel_withdrawal_request. endpoint_frame. Qed.
Lemma upload_proof_cycles pair_id file_ext stored user_id now db :
  merge_cycles (upload_proof pair_id file_ext stored user_id now db).1 = merge_cycles db.
Proof. unfold upload_proof. endpoint_frame. Qed.

(** The construction of a [WalletLog] row raises: the keywords
    [transaction_type] and [balance_after] of the two calls are not
    attributes of the class. *)
Lemma log_transaction_raises wallet_id transaction_type amount balance_after description now
    db :
  log_transaction wallet_id transaction_type amount balance_after description now db = None.
Proof. reflexivity. Qed.

Lemma transfer_raises pair_id p f w now db : transfer pair_id p f w now db = None.
Proof.
  unfold transfer. cbv zeta.
  destruct (wallets _ !! f) as [fw|]; [|done]. cbn [mbind option_bind].
  destruct (wallets _ !! w) as [ww|]; [|done]. cbn [mbind option_bind].
  by rewrite log_transaction_raises.
Qed.

Lemma settle_raises pair_id p f w now db : settle pair_id p f w now db = None.
Proof. unfold settle. by rewrite transfer_raises. Qed.

(** Hence [confirm_proof] commits nothing and never answers with a
    success. *)
Lemma confirm_proof_unchanged pair_id user_id now db :
  (confirm_proof pair_id user_id now db).1 = db.
Proof.
  unfold confirm_proof.
  repeat case_match; try done;
    match goal with H : settle _ _ _ _ _ _ = Some _ |- _ => by rewrite settle_raises in H end.
Qed.

Lemma confirm_proof_no_success pair_id user_id now db data :
  (confirm_proof pair_id user_id now db).2 ≠ SuccessResponse data.
Proof.
  unfold confirm_proof.
  repeat case_match; try done;
    match goal with H : settle _ _ _ _ _ _ = Some _ |- _ => by rewrite settle_raises in H end.
Qed.

Lemma confirm_proof_cycles pair_id user_id now db :
  merge_cycles (confirm_proof pair_id user_id now db).1 = merge_cycles db.
Proof. by rewrite confirm_proof_unchanged. Qed.
Lemma request_extension_cycles pair_id user_id now db :
  merge_cycles (request_extension pair_id user_id now db).1 = merge_cycles db.
Proof. unfold request_extension. endpoint_frame. Qed.

Lemma foldl_frame {A B} (f : Database → A → Database) (proj : Database → B) l db :
  (∀ db a, proj (f db a) = proj db) → proj (foldl f db l) = proj db.
Proof.
  intros Hf. revert db. induction l as [|a l IH]; intros db; simpl; [done|].
  by rewrite IH, Hf.
Qed.

Lemma check_expired_deadlines_cycles now db :
  merge_cycles (check_expired_deadlines now db) = merge_cycles db.
Proof.
  unfold check_expired_deadlines.
  rewrite (foldl_frame flag_withdrawer_missed merge_cycles).
  - rewrite (foldl_frame flag_funder_missed merge_cycles); [done|].
    intros. unfold flag_funder_missed. endpoint_frame.
  - intros. unfold flag_withdrawer_missed. endpoint_frame.
Qed.

Lemma statuses_alter f k db :
  (∀ c, MergeCycle.status (f c) = MergeCycle.status c) →
  statuses (set_merge_cycles (alter f k) db) = statuses db.
Proof.
  intros Hf. unfold statuses. simpl. apply map_eq. intros i.
  rewrite !lookup_fmap, lookup_alter. case_decide; [subst|done].
  destruct (merge_cycles db !! i); simpl; [|done]. by rewrite Hf.
Qed.

Lemma statuses_alter_set s f k db :
  (∀ c, MergeCycle.status (f c) = s) →
  statuses (set_merge_cycles (alter f k) db) = alter (λ _, s) k (statuses db).
Proof.
  intros Hf. unfold statuses. simpl. apply map_eq. intros i.
  rewrite lookup_fmap, !lookup_alter. case_decide; [subst|by rewrite lookup_fmap].
  rewrite lookup_fmap.
  destruct (merge_cycles db !! i); simpl; [|done]. by rewrite Hf.
Qed.

Lemma create_match_pair_statuses c now db m :
  statuses (create_match_pair c now db m) = statuses db.
Proof. destruct m as [[f w] a]. unfold create_match_pair. simpl. by rewrite statuses_alter. Qed.

Lemma create_auto_match_pair_statuses c now db m :
  statuses (create_auto_match_pair c now db m) = statuses db.
Proof.
  destruct m as [[f w] a]. unfold create_auto_match_pair. simpl.
  change (statuses (set_merge_cycles (alter MergeCycle.add_matched_pair c)
            (set_funding_match_pairs (insert (next_uuid db) (new_match_pair f w c a now)) (uuid4 db).2)) = statuses db).
  by rewrite statuses_alter.
Qed.

Lemma process_currency_statuses c cutoff now db cur :
  statuses (process_currency c cutoff now db cur) = statuses db.
Proof.
  unfold process_currency. case_bool_decide.
  - by rewrite statuses_alter.
  - rewrite statuses_alter by done.
    rewrite (foldl_frame (create_match_pair c now) statuses) by apply create_match_pair_statuses.
    by rewrite statuses_alter.
Qed.

Lemma process_currencies_statuses failure c cutoff now l db :
  statuses (match process_currencies failure c cutoff now l db with inl d | inr d => d end)
  = statuses db.
Proof.
  revert db. induction l as [|cur l IH]; intros db; simpl; [done|].
  case_bool_decide; [done|]. by rewrite IH, process_currency_statuses.
Qed.

Lemma match_currency_statuses c now db cur :
  statuses (match_currency c now db cur) = statuses db.
Proof.
  unfold match_currency. case_bool_decide; [done|].
  rewrite (foldl_frame (create_auto_match_pair c now) statuses)
    by apply create_auto_match_pair_statuses.
  by rewrite statuses_alter.
Qed.

Lemma run_merge_cycle_statuses failure now id db :
  statuses (run_merge_cycle failure now id db) = statuses db ∨
  statuses db !! id = Some pending ∧
  ∃ s, (s = completed ∨ s = failed) ∧
       statuses (run_merge_cycle failure now id db) = <[id := s]> (statuses db).
Proof.
  unfold run_merge_cycle.
  destruct (merge_cycles db !! id) as [cycle|] eqn:Hc; [|by left].
  case_bool_decide as Hs; [by left|]. right.
  assert (MergeCycle.status cycle = pending) as Hp by (by destruct (MergeCycle.status cycle)).
  split; [unfold statuses; by rewrite lookup_fmap, Hc; simpl; rewrite Hp|].
  set (db1 := set_merge_cycles _ db).
  pose proof (process_currencies_statuses failure id (MergeCycle.cutoff_time cycle) now
                [NAIRA; USDT] db1) as Hst.
  assert (statuses db1 = <[id := processing]> (statuses db)) as H1.
  { unfold db1. rewrite (statuses_alter_set processing) by done.
    apply map_eq; intros i. destruct (decide (id = i)) as [<-|Hne].
    - rewrite lookup_alter_eq, lookup_insert_eq. unfold statuses.
      by rewrite lookup_fmap, Hc.
    - by rewrite lookup_alter_ne, lookup_insert_ne. }
  destruct (process_currencies _ _ _ _ _ db1) as [d|d].
  - exists failed. split; [by right|].
    rewrite (statuses_alter_set failed) by done.
    by rewrite Hst, H1, alter_insert_eq.
  - exists completed. split; [by left|].
    rewrite (statuses_alter_set completed) by done.
    by rewrite Hst, H1, alter_insert_eq.
Qed.

Lemma run_matching_statuses now db :
  statuses (run_matching now db) = <[next_uuid db := completed]> (statuses db).
Proof.
  unfold run_matching, uuid4. cbv beta iota zeta.
  rewrite (statuses_alter_set completed) by done.
  rewrite (foldl_frame (match_currency (next_uuid db) now) statuses) by apply match_currency_statuses.
  unfold statuses. simpl. rewrite fmap_insert. simpl.
  by rewrite alter_insert_eq.
Qed.

Lemma rejection_fst {A} (r : Database * Response A) : (rejection r).1 = r.1.
Proof. unfold rejection. by destruct r as [d []]. Qed.

Lemma status_forward_refl s : status_forward s s.
Proof. apply rtc_refl. Qed.

Lemma status_forward_from_pending s :
  s = completed ∨ s = failed → status_forward pending s.
Proof.
  intros [->| ->]; (eapply rtc_l; [constructor|]); apply rtc_once; constructor.
Qed.


(** C8.  The status of a merge cycle only moves forward along pending,
    processing, then completed or failed: whatever action the service
    performs, every cycle of the database is still there afterwards, with a
    status reached from its former one by steps of [status_step] ([uuid4]
    is supposed to give a key that no cycle has yet).  And
    [run_merge_cycle] on a cycle whose status is not pending returns the
    database it was given: no counter of the cycle and no request changes. *)
Theorem merge_cycle_status_forward :
  (∀ a now db k c,
     merge_cycles db !! next_uuid db = None →
     merge_cycles db !! k = Some c →
     ∃ c', merge_cycles (perform a now db).1 !! k = Some c' ∧
           status_forward (MergeCycle.status c) (MergeCycle.status c')) ∧
  (∀ failure now merge_cycle_id db c,
     merge_cycles db !! merge_cycle_id = Some c →
     MergeCycle.status c ≠ pending →
     run_merge_cycle failure now merge_cycle_id db = db).
Proof.
  split.
  - intros a now db k c Hfresh Hc.
    assert (∀ db', statuses db' !! k = Some (MergeCycle.status c) ∨
                   (MergeCycle.status c = pending ∧
                    ∃ s, (s = completed ∨ s = failed) ∧ statuses db' !! k = Some s) →
            ∃ c', merge_cycles db' !! k = Some c' ∧
              status_forward (MergeCycle.status c) (MergeCycle.status c')) as Hconcl.
    { intros db'. unfold statuses. rewrite !lookup_fmap.
      intros [H|(Hp & s & Hs & H)];
        destruct (merge_cycles db' !! k) as [c'|]; simplify_eq/=; exists c'; split; try done.
      - rewrite H. apply status_forward_refl.
      - rewrite Hp. by apply status_forward_from_pending. }
    assert (∀ db', merge_cycles db' = merge_cycles db →
              ∃ c', merge_cycles db' !! k = Some c' ∧
                status_forward (MergeCycle.status c) (MergeCycle.status c')) as Hframe.
    { intros db' ->. exists c. split; [done|apply status_forward_refl]. }
    assert (statuses db !! k = Some (MergeCycle.status c)) as Hk.
    { unfold statuses. by rewrite lookup_fmap, Hc. }
    destruct a; unfold perform; rewrite ?rejection_fst; cbn [fst].
    + apply Hframe, create_funding_request_cycles.
    + apply Hframe, create_withdrawal_request_cycles.
    + apply Hframe, cancel_funding_request_cycles.
    + apply Hframe, cancel_withdrawal_request_cycles.
    + apply Hframe, upload_proof_cycles.
    + apply Hframe, confirm_proof_cycles.
    + apply Hframe, request_extension_cycles.
    + apply Hconcl.
      destruct (run_merge_cycle_statuses failure now merge_cycle_id db)
        as [->|(Hp & s & Hs & ->)]; [by left|].
      destruct (decide (merge_cycle_id = k)) as [->|Hne].
      * right. rewrite Hk in Hp. simplify_eq. split; [done|].
        exists s. by rewrite lookup_insert_eq.
      * left. by rewrite lookup_insert_ne.
    + apply Hconcl. left. rewrite run_matching_statuses.
      rewrite lookup_insert_ne; [done|]. intros Heq. rewrite Heq in Hfresh. congruence.
    + apply Hframe, check_expired_deadlines_cycles.
  - intros failure now id db c Hc Hs. unfold run_merge_cycle.
    rewrite Hc. by rewrite bool_decide_eq_true_2.
Qed.

(** ** Confirmation of a proof *)

(** What the session holds when the construction of the first [WalletLog]
    row raises. *)
Lemma update_balances_wallets pair_id p f w now db :
  wallets (update_balances pair_id p f w now db)
  = alter (debit (FundingMatchPair.amount p)) w
      (alter (credit (FundingMatchPair.amount p)) f (wallets db)).
Proof. done. Qed.

Lemma update_balances_pairs pair_id p f w now db :
  funding_match_pairs (update_balances pair_id p f w now db)
  = alter (FundingMatchPair.with_confirmed now) pair_id (funding_match_pairs db).
Proof. done. Qed.

Lemma foldl_invariant {A} (P : Database → Prop) (f : Database → A → Database) l db :
  (∀ db a, P db → P (f db a)) → P db → P (foldl f db l).
Proof.
  intros Hf. revert db. induction l as [|a l IH]; intros db HP; simpl; [done|].
  by apply IH, Hf.
Qed.

Lemma confirmed_have_proof_ext db db' :
  funding_match_pairs db' = funding_match_pairs db →
  confirmed_have_proof db → confirmed_have_proof db'.
Proof. unfold confirmed_have_proof. by intros ->. Qed.

Lemma confirmed_have_proof_alter f k db :
  (∀ p, has_proof_if_confirmed p → has_proof_if_confirmed (f p)) →
  confirmed_have_proof db →
  confirmed_have_proof (set_funding_match_pairs (alter f k) db).
Proof.
  intros Hf Hinv i x. simpl. rewrite lookup_alter. case_decide; [subst|by apply Hinv].
  destruct (funding_match_pairs db !! i) as [p|] eqn:Hp; [|done].
  intros [= <-]. apply Hf. exact (Hinv i p Hp).
Qed.

Lemma confirmed_have_proof_insert p k db :
  has_proof_if_confirmed p →
  confirmed_have_proof db →
  confirmed_have_proof (set_funding_match_pairs (insert k p) db).
Proof.
  intros Hp Hinv i x. simpl. rewrite lookup_insert. case_decide; [subst|by apply Hinv].
  by intros [= <-].
Qed.

Lemma create_match_pair_confirmed c now db m :
  confirmed_have_proof db → confirmed_have_proof (create_match_pair c now db m).
Proof.
  destruct m as [[f w] a]. intros Hinv. unfold create_match_pair, uuid4.
  eapply confirmed_have_proof_ext;
    [|apply (confirmed_have_proof_insert (new_match_pair f w c a now) (next_uuid db) db);
      [done|exact Hinv]].
  done.
Qed.

Lemma create_auto_match_pair_confirmed c now db m :
  confirmed_have_proof db → confirmed_have_proof (create_auto_match_pair c now db m).
Proof.
  destruct m as [[f w] a]. intros Hinv. unfold create_auto_match_pair, uuid4.
  eapply confirmed_have_proof_ext;
    [|apply (confirmed_have_proof_insert (new_match_pair f w c a now) (next_uuid db) db);
      [done|exact Hinv]].
  done.
Qed.

Lemma process_currencies_confirmed failure c cutoff now l db :
  confirmed_have_proof db →
  confirmed_have_proof
    (match process_currencies failure c cutoff now l db with inl d | inr d => d end).
Proof.
  revert db. induction l as [|cur l IH]; intros db Hinv; simpl; [done|].
  case_bool_decide; [done|]. apply IH. unfold process_currency.
  case_bool_decide; [done|].
  eapply confirmed_have_proof_ext; [reflexivity|].
  apply foldl_invariant; [intros; by apply create_match_pair_confirmed|done].
Qed.

Lemma run_merge_cycle_confirmed failure now id db :
  confirmed_have_proof db → confirmed_have_proof (run_merge_cycle failure now id db).
Proof.
  intros Hinv. unfold run_merge_cycle. destruct (merge_cycles db !! id) as [cycle|]; [|done].
  case_bool_decide; [done|].
  set (db1 := set_merge_cycles _ db).
  pose proof (process_currencies_confirmed failure id (MergeCycle.cutoff_time cycle) now
                [NAIRA; USDT] db1 Hinv) as H1.
  by destruct (process_currencies _ _ _ _ _ db1).
Qed.

Lemma run_matching_confirmed now db :
  confirmed_have_proof db → confirmed_have_proof (run_matching now db).
Proof.
  intros Hinv. unfold run_matching, uuid4. cbv beta iota zeta.
  eapply confirmed_have_proof_ext; [reflexivity|].
  apply foldl_invariant; [|exact Hinv].
  intros d cur Hd. unfold match_currency. case_bool_decide; [done|].
  apply foldl_invariant; [intros; by apply create_auto_match_pair_confirmed|done].
Qed.

Lemma check_expired_deadlines_confirmed now db :
  confirmed_have_proof db → confirmed_have_proof (check_expired_deadlines now db).
Proof.
  intros Hinv. unfold check_expired_deadlines.
  apply foldl_invariant.
  { intros d p Hd. unfold flag_withdrawer_missed.
    assert (confirmed_have_proof
              (set_funding_match_pairs
                 (alter (FundingMatchPair.with_withdrawer_missed_deadline true) p.1) d)) as H1
      by (by apply confirmed_have_proof_alter).
    by case_match. }
  apply foldl_invariant; [|done].
  intros d p Hd. unfold flag_funder_missed.
  assert (confirmed_have_proof
            (set_funding_match_pairs
               (alter (FundingMatchPair.with_funder_missed_deadline true) p.1) d)) as H1
    by (by apply confirmed_have_proof_alter).
  by case_match.
Qed.

Lemma upload_proof_confirmed pair_id file_ext stored user_id now db :
  confirmed_have_proof db →
  confirmed_have_proof (upload_proof pair_id file_ext stored user_id now db).1.
Proof.
  intros Hinv. unfold upload_proof.
  destruct (funding_match_pairs db !! _); [|done]. destruct (funding_requests db !! _); [|done].
  destruct (wallets db !! _); [|done]. case_bool_decide; [done|].
  destruct (FundingMatchPair.proof_uploaded _); [done|].
  destruct (deadline_passed _ _).
  { unfold block_and_requeue. by apply confirmed_have_proof_alter. }
  case_bool_decide; [done|]. destruct stored; [|done].
  by apply confirmed_have_proof_alter.
Qed.

Lemma request_extension_confirmed pair_id user_id now db :
  confirmed_have_proof db →
  confirmed_have_proof (request_extension pair_id user_id now db).1.
Proof.
  intros Hinv. unfold request_extension.
  destruct (funding_match_pairs db !! _); [|done]. destruct (funding_requests db !! _); [|done].
  destruct (wallets db !! _); [|done]. case_bool_decide; [done|].
  destruct (FundingMatchPair.extension_requested _); [done|].
  destruct (FundingMatchPair.proof_uploaded _); [done|].
  destruct (deadline_passed _ _); [done|].
  destruct (FundingMatchPair.proof_deadline _); [|done].
  by apply confirmed_have_proof_alter.
Qed.

Lemma confirm_proof_confirmed pair_id user_id now db :
  confirmed_have_proof db →
  confirmed_have_proof (confirm_proof pair_id user_id now db).1.
Proof. by rewrite confirm_proof_unchanged. Qed.

Lemma perform_confirmed a now db :
  confirmed_have_proof db → confirmed_have_proof (perform a now db).1.
Proof.
  intros Hinv. destruct a; unfold perform; rewrite ?rejection_fst; cbn [fst].
  - unfold create_funding_request. by destruct (request_wallet _ _ _ _).
  - unfold create_withdrawal_request. destruct (request_wallet _ _ _ _); [|done].
    by case_bool_decide.
  - unfold cancel_funding_request. repeat case_match; done.
  - unfold cancel_withdrawal_request. repeat case_match; done.
  - by apply upload_proof_confirmed.
  - by apply confirm_proof_confirmed.
  - by apply request_extension_confirmed.
  - by apply run_merge_cycle_confirmed.
  - by apply run_matching_confirmed.
  - by apply check_expired_deadlines_confirmed.
Qed.


(** C9.  For a pair with its proof uploaded and not yet confirmed, a
    confirmation by the withdrawer no later than the confirmation deadline
    passes every check of [confirm_proof]; the session then holds the pair
    marked confirmed, the funder's wallet credited with the amount of the
    pair and the withdrawer's wallet (another wallet) debited by it; but
    the construction of the first [WalletLog] row raises, the session is
    rolled back and the answer is the internal error (500).  So no
    confirmation is ever committed: [confirm_proof] leaves every database
    as it was and never answers with a success; on [uploaded_db] the
    confirmation of the pair 41 by the user 2, two hours before the
    deadline, leaves the two balances, the pair and the requests as they
    were.  Through every action of the service the confirmed pairs are
    pairs with a proof. *)
Theorem confirm_proof_never_settles :
  (∀ pair_id user_id now db,
     (confirm_proof pair_id user_id now db).1 = db ∧
     ∀ data, (confirm_proof pair_id user_id now db).2 ≠ SuccessResponse data) ∧
  (∀ pair_id user_id now db p wreq ww freq fw,
     funding_match_pairs db !! pair_id = Some p →
     FundingMatchPair.proof_uploaded p = true →
     FundingMatchPair.proof_confirmed p = false →
     deadline_passed (FundingMatchPair.confirmation_deadline p) now = false →
     withdrawal_requests db !! FundingMatchPair.withdrawal_request_id p = Some wreq →
     wallets db !! WithdrawalRequest.wallet_id wreq = Some ww →
     Wallet.user_id ww = user_id →
     funding_requests db !! FundingMatchPair.funding_request_id p = Some freq →
     wallets db !! FundingRequest.wallet_id freq = Some fw →
     let amount := FundingMatchPair.amount p in
     let session :=
       update_balances pair_id p (FundingRequest.wallet_id freq)
         (WithdrawalRequest.wallet_id wreq) now db in
     funding_match_pairs session !! pair_id = Some (FundingMatchPair.with_confirmed now p) ∧
     (FundingRequest.wallet_id freq ≠ WithdrawalRequest.wallet_id wreq →
      wallets session !! FundingRequest.wallet_id freq = Some (credit amount fw) ∧
      wallets session !! WithdrawalRequest.wallet_id wreq = Some (debit amount ww)) ∧
     transfer pair_id p (FundingRequest.wallet_id freq) (WithdrawalRequest.wallet_id wreq)
       now db = None ∧
     confirm_proof pair_id user_id now db = (db, HTTPException InternalServerError)) ∧
  (funding_match_pairs uploaded_db !! 41%positive = Some pair_41_uploaded ∧
   FundingMatchPair.proof_uploaded pair_41_uploaded = true ∧
   FundingMatchPair.proof_confirmed pair_41_uploaded = false ∧
   FundingMatchPair.confirmation_deadline pair_41_uploaded = Some (5 * hour) ∧
   2 * hour ≤ 5 * hour ∧
   Wallet.user_id <$> wallets uploaded_db !! 12%positive = Some 2%positive ∧
   confirm_proof 41 2 (2 * hour) uploaded_db
   = (uploaded_db, HTTPException InternalServerError) ∧
   Wallet.balance <$> wallets uploaded_db !! 11%positive = Some 0 ∧
   Wallet.balance <$> wallets uploaded_db !! 12%positive = Some 500000 ∧
   FundingRequest.is_completed <$> funding_requests uploaded_db !! 21%positive
   = Some false ∧
   WithdrawalRequest.is_completed <$> withdrawal_requests uploaded_db !! 22%positive
   = Some false) ∧
  (∀ a now db, confirmed_have_proof db → confirmed_have_proof (perform a now db).1).
Proof.
  split; [|split; [|split; [|apply perform_confirmed]]].
  - intros pair_id user_id now db. split; [apply confirm_proof_unchanged|].
    intros data. apply confirm_proof_no_success.
  - intros pair_id user_id now db p wreq ww freq fw Hp Hup Hconf Hdl Hwreq Hww Huser
           Hfreq Hfw amount session.
    split_and!.
    + unfold session. by rewrite update_balances_pairs, lookup_alter_eq, Hp.
    + intros Hne. unfold session. rewrite update_balances_wallets. split.
      * by rewrite lookup_alter_ne, lookup_alter_eq, Hfw.
      * by rewrite lookup_alter_eq, lookup_alter_ne, Hww.
    + apply transfer_raises.
    + unfold confirm_proof. rewrite Hp, Hwreq, Hww, Hfreq, Hfw, Hup, Hconf, Hdl.
      rewrite bool_decide_eq_false_2 by (intros Hn; by apply Hn). cbn [negb].
      by rewrite settle_raises.
  - split_and!; try (vm_compute; reflexivity). vm_compute. discriminate.
Qed.

(** ** The remaining amounts under matching *)

Lemma remaining_of_perm x l l' : l ≡ₚ l' → remaining_of x l = remaining_of x l'.
Proof. induction 1; simpl in *; lia. Qed.

Lemma remaining_of_cons x e l :
  remaining_of x (e :: l) = (if bool_decide (e.1 = x) then e.2 else 0) + remaining_of x l.
Proof. done. Qed.

Lemma remaining_of_absent x (l : list (positive * Z)) : x ∉ l.*1 → remaining_of x l = 0.
Proof.
  induction l as [|[k v] l IH]; simpl; [done|].
  rewrite not_elem_of_cons. intros [Hne Hl]. simpl in Hne.
  rewrite bool_decide_eq_false_2 by done. rewrite IH by done. lia.
Qed.

(** What the matcher takes from one request is at most what the lists held for it. *)
Lemma smart_match_requests_per_request F W :
  Forall (λ r, 0 ≤ FundingRequest.amount_remaining r.2) F →
  Forall (λ r, 0 ≤ WithdrawalRequest.amount_remaining r.2) W →
  ∀ x,
    0 ≤ matched_for_funder x (smart_match_requests F W)
      ≤ remaining_of x ((λ f, (f.1, FundingRequest.amount_remaining f.2)) <$> F) ∧
    0 ≤ matched_for_withdrawer x (smart_match_requests F W)
      ≤ remaining_of x ((λ w, (w.1, WithdrawalRequest.amount_remaining w.2)) <$> W).
Proof.
  intros HF HW x.
  destruct (smart_match_requests_exit F W) as (s & Hloop & ->).
  destruct (match_init_nonneg F W HF HW) as [Hfn Hwn].
  destruct (match_loop_invariant (amounts_inv (match_init F W))
              (amounts_inv_step _) _ _ _ Hloop) as [Hinv _].
  { by apply amounts_inv_init. }
  destruct Hinv as [Hfn' Hwn' _ _ _ _ Hfi Hwi Hmn].
  specialize (Hfi x). specialize (Hwi x).
  pose proof (remaining_of_nonneg x _ Hfn'). pose proof (remaining_of_nonneg x _ Hwn').
  assert (remaining_of x (funders (match_init F W))
          = remaining_of x ((λ f, (f.1, FundingRequest.amount_remaining f.2)) <$> F)) as Hf0.
  { apply remaining_of_perm. simpl. by rewrite sorted_perm. }
  assert (remaining_of x (withdrawers (match_init F W))
          = remaining_of x ((λ w, (w.1, WithdrawalRequest.amount_remaining w.2)) <$> W)) as Hw0.
  { apply remaining_of_perm. simpl. by rewrite sorted_perm. }
  rewrite Hf0 in Hfi. rewrite Hw0 in Hwi.
  change (matches (match_init F W)) with (@nil (positive * positive * Z)) in Hfi, Hwi.
  simpl in Hfi, Hwi.
  assert (0 ≤ matched_for_funder x (matches s)).
  { clear -Hmn. induction Hmn; simpl; [lia|case_bool_decide; lia]. }
  assert (0 ≤ matched_for_withdrawer x (matches s)).
  { clear -Hmn. induction Hmn; simpl; [lia|case_bool_decide; lia]. }
  lia.
Qed.

(** A list of rows of a table holds for a key at most the remainder of its row. *)
Lemma funding_rows_remaining_of (m : gmap positive FundingRequest.t) l x r :
  NoDup l.*1 → (∀ e, e ∈ l → m !! e.1 = Some e.2) →
  m !! x = Some r → 0 ≤ FundingRequest.amount_remaining r →
  remaining_of x ((λ f, (f.1, FundingRequest.amount_remaining f.2)) <$> l)
  ≤ FundingRequest.amount_remaining r.
Proof.
  intros Hnd Hl Hx Hr. induction l as [|[k r0] l IH]; [done|].
  rewrite fmap_cons in *. rewrite remaining_of_cons. cbn [fst snd] in *.
  apply NoDup_cons in Hnd as [Hk Hnd].
  case_bool_decide as Heq.
  - subst k. rewrite remaining_of_absent.
    + pose proof (Hl (x, r0) ltac:(left)) as H0. simpl in H0. simplify_eq. lia.
    + by rewrite <- list_fmap_compose.
  - assert (∀ e, e ∈ l → m !! e.1 = Some e.2) as Hl'.
    { intros e He. apply Hl. by right. }
    specialize (IH Hnd Hl'). lia.
Qed.

Lemma withdrawal_rows_remaining_of (m : gmap positive WithdrawalRequest.t) l x r :
  NoDup l.*1 → (∀ e, e ∈ l → m !! e.1 = Some e.2) →
  m !! x = Some r → 0 ≤ WithdrawalRequest.amount_remaining r →
  remaining_of x ((λ f, (f.1, WithdrawalRequest.amount_remaining f.2)) <$> l)
  ≤ WithdrawalRequest.amount_remaining r.
Proof.
  intros Hnd Hl Hx Hr. induction l as [|[k r0] l IH]; [done|].
  rewrite fmap_cons in *. rewrite remaining_of_cons. cbn [fst snd] in *.
  apply NoDup_cons in Hnd as [Hk Hnd].
  case_bool_decide as Heq.
  - subst k. rewrite remaining_of_absent.
    + pose proof (Hl (x, r0) ltac:(left)) as H0. simpl in H0. simplify_eq. lia.
    + by rewrite <- list_fmap_compose.
  - assert (∀ e, e ∈ l → m !! e.1 = Some e.2) as Hl'.
    { intros e He. apply Hl. by right. }
    specialize (IH Hnd Hl'). lia.
Qed.

Lemma filter_rows {A} (m : gmap positive A) (P : positive * A → Prop)
    `{!∀ x, Decision (P x)} :
  NoDup (filter P (map_to_list m)).*1 ∧
  ∀ e, e ∈ filter P (map_to_list m) → m !! e.1 = Some e.2.
Proof.
  split.
  - eapply sublist_NoDup; [apply (NoDup_fst_map_to_list m)|].
    apply fmap_sublist, sublist_filter.
  - intros [k v] [_ He]%list_elem_of_filter. by apply elem_of_map_to_list.
Qed.

Lemma match_funding_amounts c now a r :
  FundingRequest.amount (match_funding c now a r) = FundingRequest.amount r ∧
  FundingRequest.amount_remaining (match_funding c now a r)
  = FundingRequest.amount_remaining r - a.
Proof. unfold match_funding. by case_bool_decide. Qed.

Lemma match_withdrawal_amounts c now a r :
  WithdrawalRequest.amount (match_withdrawal c now a r) = WithdrawalRequest.amount r ∧
  WithdrawalRequest.amount_remaining (match_withdrawal c now a r)
  = WithdrawalRequest.amount_remaining r - a.
Proof. unfold match_withdrawal. by case_bool_decide. Qed.

Section apply_matches.
Context (step : Database → positive * positive * Z → Database) (c : positive) (now : Z).
Hypothesis step_funding : ∀ db f w a,
  funding_requests (step db (f, w, a))
  = alter (match_funding c now a) f (funding_requests db).
Hypothesis step_withdrawal : ∀ db f w a,
  withdrawal_requests (step db (f, w, a))
  = alter (match_withdrawal c now a) w (withdrawal_requests db).

Lemma foldl_matches_funding ms db k :
  ∃ g, (∀ r, FundingRequest.amount (g r) = FundingRequest.amount r ∧
             FundingRequest.amount_remaining (g r)
             = FundingRequest.amount_remaining r - matched_for_funder k ms) ∧
       funding_requests (foldl step db ms) !! k = g <$> funding_requests db !! k.
Proof.
  revert db. induction ms as [|[[f w] a] ms IH]; intros db.
  - exists id. split; [intros r; simpl; split; [done|lia]|]. simpl. by rewrite option_fmap_id.
  - destruct (IH (step db (f, w, a))) as (g & Hg & Hl).
    cbn [foldl]. rewrite Hl, step_funding.
    destruct (decide (f = k)) as [->|Hne].
    + exists (g ∘ match_funding c now a). split.
      * intros r. simpl. rewrite bool_decide_eq_true_2 by done.
        destruct (Hg (match_funding c now a r)) as [-> ->].
        destruct (match_funding_amounts c now a r) as [-> ->]. split; [done|lia].
      * rewrite lookup_alter_eq. by rewrite option_fmap_compose.
    + exists g. split.
      * intros r. simpl. rewrite bool_decide_eq_false_2 by done.
        destruct (Hg r) as [-> ->]. split; [done|lia].
      * by rewrite lookup_alter_ne.
Qed.

Lemma foldl_matches_withdrawal ms db k :
  ∃ g, (∀ r, WithdrawalRequest.amount (g r) = WithdrawalRequest.amount r ∧
             WithdrawalRequest.amount_remaining (g r)
             = WithdrawalRequest.amount_remaining r - matched_for_withdrawer k ms) ∧
       withdrawal_requests (foldl step db ms) !! k = g <$> withdrawal_requests db !! k.
Proof.
  revert db. induction ms as [|[[f w] a] ms IH]; intros db.
  - exists id. split; [intros r; simpl; split; [done|lia]|]. simpl. by rewrite option_fmap_id.
  - destruct (IH (step db (f, w, a))) as (g & Hg & Hl).
    cbn [foldl]. rewrite Hl, step_withdrawal.
    destruct (decide (w = k)) as [->|Hne].
    + exists (g ∘ match_withdrawal c now a). split.
      * intros r. simpl. rewrite bool_decide_eq_true_2 by done.
        destruct (Hg (match_withdrawal c now a r)) as [-> ->].
        destruct (match_withdrawal_amounts c now a r) as [-> ->]. split; [done|lia].
      * rewrite lookup_alter_eq. by rewrite option_fmap_compose.
    + exists g. split.
      * intros r. simpl. rewrite bool_decide_eq_false_2 by done.
        destruct (Hg r) as [-> ->]. split; [done|lia].
      * by rewrite lookup_alter_ne.
Qed.

(** Applying the triples the matcher returns for rows of the two tables
    leaves every remainder between zero and what it was. *)
Lemma apply_matches_shrink db F W :
  requests_bounded db →
  NoDup F.*1 → (∀ e, e ∈ F → funding_requests db !! e.1 = Some e.2) →
  NoDup W.*1 → (∀ e, e ∈ W → withdrawal_requests db !! e.1 = Some e.2) →
  requests_shrink db (foldl step db (smart_match_requests F W)).
Proof.
  intros [Hbf Hbw] HFn HF HWn HW.
  assert (Forall (λ r, 0 ≤ FundingRequest.amount_remaining r.2) F) as HFpos.
  { apply Forall_forall. intros e He. apply (Hbf e.1). by apply HF. }
  assert (Forall (λ r, 0 ≤ WithdrawalRequest.amount_remaining r.2) W) as HWpos.
  { apply Forall_forall. intros e He. apply (Hbw e.1). by apply HW. }
  split; intros k.
  - destruct (foldl_matches_funding (smart_match_requests F W) db k) as (g & Hg & ->).
    destruct (funding_requests db !! k) as [r|] eqn:Hr; constructor.
    destruct (Hg r) as [Ha Hrem].
    destruct (smart_match_requests_per_request F W HFpos HWpos k) as [Hm _].
    pose proof (funding_rows_remaining_of _ F k r HFn HF Hr (proj1 (Hbf k r Hr))).
    split; [done|lia].
  - destruct (foldl_matches_withdrawal (smart_match_requests F W) db k) as (g & Hg & ->).
    destruct (withdrawal_requests db !! k) as [r|] eqn:Hr; constructor.
    destruct (Hg r) as [Ha Hrem].
    destruct (smart_match_requests_per_request F W HFpos HWpos k) as [_ Hm].
    pose proof (withdrawal_rows_remaining_of _ W k r HWn HW Hr (proj1 (Hbw k r Hr))).
    split; [done|lia].
Qed.
End apply_matches.

Lemma requests_shrink_refl db : requests_bounded db → requests_shrink db db.
Proof.
  intros [Hf Hw]. split; intros k.
  - destruct (funding_requests db !! k) as [r|] eqn:Hr; constructor.
    specialize (Hf k r Hr). simpl in Hf. split; [done|lia].
  - destruct (withdrawal_requests db !! k) as [r|] eqn:Hr; constructor.
    specialize (Hw k r Hr). simpl in Hw. split; [done|lia].
Qed.

Lemma requests_shrink_trans db1 db2 db3 :
  requests_shrink db1 db2 → requests_shrink db2 db3 → requests_shrink db1 db3.
Proof.
  intros [Hf1 Hw1] [Hf2 Hw2]. split; intros k.
  - specialize (Hf1 k). specialize (Hf2 k).
    destruct Hf1 as [r1 r2 H1|]; inversion Hf2 as [? r3 H2|]; constructor.
    destruct H1, H2. split; [congruence|lia].
  - specialize (Hw1 k). specialize (Hw2 k).
    destruct Hw1 as [r1 r2 H1|]; inversion Hw2 as [? r3 H2|]; constructor.
    destruct H1, H2. split; [congruence|lia].
Qed.

Lemma requests_shrink_bounded db db' :
  requests_bounded db → requests_shrink db db' → requests_bounded db'.
Proof.
  intros [Hf Hw] [Hsf Hsw]. split; intros k r' Hr'.
  - specialize (Hsf k). rewrite Hr' in Hsf. inversion Hsf as [r ? [Ha Hrem] Hr|]. symmetry in Hr.
    specialize (Hf k r Hr). simpl in Hf. lia.
  - specialize (Hsw k). rewrite Hr' in Hsw. inversion Hsw as [r ? [Ha Hrem] Hr|]. symmetry in Hr.
    specialize (Hw k r Hr). simpl in Hw. lia.
Qed.

Lemma requests_shrink_ext db db1 db2 :
  funding_requests db2 = funding_requests db1 →
  withdrawal_requests db2 = withdrawal_requests db1 →
  requests_shrink db db1 → requests_shrink db db2.
Proof. intros Hf Hw [H1 H2]. split; intros k; [rewrite Hf; apply H1|rewrite Hw; apply H2]. Qed.

Lemma requests_bounded_ext db1 db2 :
  funding_requests db2 = funding_requests db1 →
  withdrawal_requests db2 = withdrawal_requests db1 →
  requests_bounded db1 → requests_bounded db2.
Proof. intros Hf Hw [H1 H2]. split; intros k; [rewrite Hf; apply H1|rewrite Hw; apply H2]. Qed.

Lemma match_currency_shrink c now db cur :
  requests_bounded db → requests_shrink db (match_currency c now db cur).
Proof.
  intros Hb. unfold match_currency. case_bool_decide; [by apply requests_shrink_refl|].
  set (F := pending_funding_requests db cur). set (W := pending_withdrawal_requests db cur).
  set (db1 := set_merge_cycles _ db).
  change (requests_shrink db1 (foldl (create_auto_match_pair c now) db1
                                     (smart_match_requests F W))).
  apply (apply_matches_shrink _ c now).
  - by intros ? ? ? ?.
  - by intros ? ? ? ?.
  - done.
  - apply filter_rows.
  - apply (filter_rows (funding_requests db)).
  - apply filter_rows.
  - apply (filter_rows (withdrawal_requests db)).
Qed.

Lemma run_matching_shrink now db :
  requests_bounded db → requests_shrink db (run_matching now db).
Proof.
  intros Hb. unfold run_matching, uuid4. cbv beta iota zeta.
  set (c := next_uuid db). set (db0 := set_merge_cycles (insert _ _) _).
  assert (requests_bounded db0) as Hb0 by exact Hb.
  eapply requests_shrink_ext with
    (db1 := foldl (match_currency c now) db0 [NAIRA; USDT]); [done..|].
  change (requests_shrink db0 (foldl (match_currency c now) db0 [NAIRA; USDT])).
  cbn [foldl].
  pose proof (match_currency_shrink c now db0 NAIRA Hb0) as H1.
  eapply requests_shrink_trans; [exact H1|].
  apply match_currency_shrink. by eapply requests_shrink_bounded.
Qed.

Lemma process_currency_shrink c cutoff now db cur :
  requests_bounded db → requests_shrink db (process_currency c cutoff now db cur).
Proof.
  intros Hb. unfold process_currency.
  case_bool_decide; [by eapply requests_shrink_ext; [..|by apply requests_shrink_refl]|].
  set (F := cycle_funding_requests db cur cutoff).
  set (W := cycle_withdrawal_requests db cur cutoff).
  set (db1 := set_merge_cycles _ db).
  eapply requests_shrink_ext with
    (db1 := foldl (create_match_pair c now) db1 (smart_match_requests F W)); [done..|].
  change (requests_shrink db1 (foldl (create_match_pair c now) db1
                                     (smart_match_requests F W))).
  apply (apply_matches_shrink _ c now).
  - by intros ? ? ? ?.
  - by intros ? ? ? ?.
  - done.
  - apply filter_rows.
  - apply (filter_rows (funding_requests db)).
  - apply filter_rows.
  - apply (filter_rows (withdrawal_requests db)).
Qed.

Lemma process_currencies_shrink failure c cutoff now l db :
  requests_bounded db →
  requests_shrink db
    (match process_currencies failure c cutoff now l db with inl d | inr d => d end).
Proof.
  revert db. induction l as [|cur l IH]; intros db Hb; simpl.
  - by apply requests_shrink_refl.
  - case_bool_decide; [by apply requests_shrink_refl|].
    pose proof (process_currency_shrink c cutoff now db cur Hb) as H1.
    eapply requests_shrink_trans; [exact H1|].
    apply IH. by eapply requests_shrink_bounded.
Qed.

Lemma run_merge_cycle_shrink failure now id db :
  requests_bounded db → requests_shrink db (run_merge_cycle failure now id db).
Proof.
  intros Hb. unfold run_merge_cycle.
  destruct (merge_cycles db !! id) as [cycle|]; [|by apply requests_shrink_refl].
  case_bool_decide; [by apply requests_shrink_refl|].
  set (db1 := set_merge_cycles _ db).
  pose proof (process_currencies_shrink failure id (MergeCycle.cutoff_time cycle) now
                [NAIRA; USDT] db1 Hb) as Hs.
  destruct (process_currencies _ _ _ _ _ db1) as [d|d]; exact Hs.
Qed.

Lemma requests_shrink_funding db db' k r :
  requests_shrink db db' → funding_requests db !! k = Some r →
  ∃ r', funding_requests db' !! k = Some r' ∧
        FundingRequest.amount r' = FundingRequest.amount r ∧
        0 ≤ FundingRequest.amount_remaining r' ≤ FundingRequest.amount_remaining r.
Proof.
  intros [Hf _] Hr. specialize (Hf k). rewrite Hr in Hf.
  inversion Hf as [? r' [Ha Hrem]|]. by exists r'.
Qed.

Lemma requests_shrink_withdrawal db db' k r :
  requests_shrink db db' → withdrawal_requests db !! k = Some r →
  ∃ r', withdrawal_requests db' !! k = Some r' ∧
        WithdrawalRequest.amount r' = WithdrawalRequest.amount r ∧
        0 ≤ WithdrawalRequest.amount_remaining r' ≤ WithdrawalRequest.amount_remaining r.
Proof.
  intros [_ Hw] Hr. specialize (Hw k). rewrite Hr in Hw.
  inversion Hw as [? r' [Ha Hrem]|]. by exists r'.
Qed.

Lemma upload_proof_late pair_id file_ext stored user_id now db :
  (upload_proof pair_id file_ext stored user_id now db).2 = HTTPException ProofDeadlinePassed →
  ∃ p freq,
    funding_match_pairs db !! pair_id = Some p ∧
    funding_requests db !! FundingMatchPair.funding_request_id p = Some freq ∧
    FundingMatchPair.proof_uploaded p = false ∧
    deadline_passed (FundingMatchPair.proof_deadline p) now = true ∧
    (upload_proof pair_id file_ext stored user_id now db).1
    = block_and_requeue pair_id p (FundingRequest.wallet_id freq) db.
Proof.
  unfold upload_proof.
  destruct (funding_match_pairs db !! pair_id) as [p|] eqn:Hp; [|done].
  destruct (funding_requests db !! _) as [freq|] eqn:Hfreq; [|done].
  destruct (wallets db !! _) as [w|]; [|done].
  case_bool_decide; [done|].
  destruct (FundingMatchPair.proof_uploaded p) eqn:Hup; [done|].
  destruct (deadline_passed _ now) eqn:Hd.
  - intros _. by exists p, freq.
  - case_bool_decide; [done|]. by destruct stored.
Qed.


(** C5, as amended.  In a database whose requests all have
    [0 <= amount_remaining <= amount], the matching of [run_matching] and of
    [run_merge_cycle] keeps every request, with its amount, and leaves its
    remainder between zero and what it was; the bounds hold again
    afterwards.  The branch of [upload_proof] taken after the proof deadline
    adds the amount of the pair to the remainder of the withdrawal request
    and touches no funding request. *)
Theorem matching_never_increases_remaining :
  (∀ now db,
     requests_bounded db →
     requests_bounded (run_matching now db) ∧
     (∀ k r, funding_requests db !! k = Some r →
        ∃ r', funding_requests (run_matching now db) !! k = Some r' ∧
              FundingRequest.amount r' = FundingRequest.amount r ∧
              0 ≤ FundingRequest.amount_remaining r' ≤ FundingRequest.amount_remaining r) ∧
     (∀ k r, withdrawal_requests db !! k = Some r →
        ∃ r', withdrawal_requests (run_matching now db) !! k = Some r' ∧
              WithdrawalRequest.amount r' = WithdrawalRequest.amount r ∧
              0 ≤ WithdrawalRequest.amount_remaining r'
                ≤ WithdrawalRequest.amount_remaining r)) ∧
  (∀ failure now merge_cycle_id db,
     requests_bounded db →
     requests_bounded (run_merge_cycle failure now merge_cycle_id db) ∧
     (∀ k r, funding_requests db !! k = Some r →
        ∃ r', funding_requests (run_merge_cycle failure now merge_cycle_id db) !! k = Some r' ∧
              FundingRequest.amount r' = FundingRequest.amount r ∧
              0 ≤ FundingRequest.amount_remaining r' ≤ FundingRequest.amount_remaining r) ∧
     (∀ k r, withdrawal_requests db !! k = Some r →
        ∃ r', withdrawal_requests (run_merge_cycle failure now merge_cycle_id db) !! k
              = Some r' ∧
              WithdrawalRequest.amount r' = WithdrawalRequest.amount r ∧
              0 ≤ WithdrawalRequest.amount_remaining r'
                ≤ WithdrawalRequest.amount_remaining r)) ∧
  (∀ pair_id file_ext stored user_id now db p wreq,
     (upload_proof pair_id file_ext stored user_id now db).2
     = HTTPException ProofDeadlinePassed →
     funding_match_pairs db !! pair_id = Some p →
     withdrawal_requests db !! FundingMatchPair.withdrawal_request_id p = Some wreq →
     let db' := (upload_proof pair_id file_ext stored user_id now db).1 in
     funding_requests db' = funding_requests db ∧
     ∃ wreq', withdrawal_requests db' !! FundingMatchPair.withdrawal_request_id p = Some wreq' ∧
       WithdrawalRequest.amount wreq' = WithdrawalRequest.amount wreq ∧
       WithdrawalRequest.amount_remaining wreq'
       = WithdrawalRequest.amount_remaining wreq + FundingMatchPair.amount p).
Proof.
  split_and!.
  - intros now db Hb. pose proof (run_matching_shrink now db Hb) as Hs. split_and!.
    + by eapply requests_shrink_bounded.
    + intros k r. by apply requests_shrink_funding.
    + intros k r. by apply requests_shrink_withdrawal.
  - intros failure now id db Hb.
    pose proof (run_merge_cycle_shrink failure now id db Hb) as Hs. split_and!.
    + by eapply requests_shrink_bounded.
    + intros k r. by apply requests_shrink_funding.
    + intros k r. by apply requests_shrink_withdrawal.
  - intros pair_id file_ext stored user_id now db p wreq Hlate Hp Hw db'.
    destruct (upload_proof_late _ _ _ _ _ _ Hlate) as (p' & freq & Hp' & _ & _ & _ & Hdb).
    unfold db'. rewrite Hdb. simplify_eq. split; [done|].
    exists (WithdrawalRequest.requeue (FundingMatchPair.amount p) wreq).
    unfold block_and_requeue. simpl. by rewrite lookup_alter_eq, Hw.
Qed.

(** ** The admin wallet *)

Lemma process_currency_admin_wallets c cutoff now db cur :
  admin_wallets (process_currency c cutoff now db cur) = admin_wallets db.
Proof.
  unfold process_currency. case_bool_decide; [done|]. simpl.
  rewrite (foldl_frame (create_match_pair c now) admin_wallets); [done|].
  by intros ? [[? ?] ?].
Qed.

Lemma process_currencies_admin_wallets failure c cutoff now l db :
  admin_wallets (match process_currencies failure c cutoff now l db with inl d | inr d => d end)
  = admin_wallets db.
Proof.
  revert db. induction l as [|cur l IH]; intros db; simpl; [done|].
  case_bool_decide; [done|]. by rewrite IH, process_currency_admin_wallets.
Qed.

Lemma run_merge_cycle_admin_wallets failure now id db :
  admin_wallets (run_merge_cycle failure now id db) = admin_wallets db.
Proof.
  unfold run_merge_cycle. destruct (merge_cycles db !! id) as [cycle|]; [|done].
  case_bool_decide; [done|].
  set (db1 := set_merge_cycles _ db).
  pose proof (process_currencies_admin_wallets failure id (MergeCycle.cutoff_time cycle) now
                [NAIRA; USDT] db1) as H1.
  by destruct (process_currencies _ _ _ _ _ db1).
Qed.

Lemma admin_as_funder_loop_sum avail W :
  0 ≤ avail → sum_admin (admin_as_funder_loop avail W) ≤ avail.
Proof.
  revert avail. induction W as [|w W IH]; intros avail Ha; simpl; [done|].
  case_bool_decide as Hc; [|by apply IH]. simpl.
  specialize (IH (avail - WithdrawalRequest.amount_remaining w.2)). lia.
Qed.

Lemma admin_as_funder_loop_elem avail W e :
  e ∈ admin_as_funder_loop avail W →
  ∃ w, w ∈ W ∧ e = ("admin"%string, w.1, WithdrawalRequest.amount_remaining w.2) ∧
       0 < WithdrawalRequest.amount_remaining w.2.
Proof.
  revert avail. induction W as [|w W IH]; intros avail; simpl.
  - by intros ?%elem_of_nil.
  - case_bool_decide as Hc.
    + intros [->|He]%elem_of_cons.
      * exists w. split_and!; [by left|done|lia].
      * destruct (IH _ He) as (w' & ? & ? & ?). exists w'. split_and!; [by right|done..].
    + intros He. destruct (IH _ He) as (w' & ? & ? & ?). exists w'. split_and!; [by right|done..].
Qed.

Lemma admin_as_funder_loop_sublist avail W :
  admin_as_funder_loop avail W
  `sublist_of` (λ w : positive * WithdrawalRequest.t,
                  ("admin"%string, w.1, WithdrawalRequest.amount_remaining w.2)) <$> W.
Proof.
  revert avail. induction W as [|w W IH]; intros avail; [done|].
  rewrite fmap_cons. cbn [admin_as_funder_loop]. case_bool_decide.
  - apply sublist_skip, IH.
  - apply sublist_cons, IH.
Qed.

Lemma admin_as_funder_loop_all avail W :
  total_withdrawal_remaining
    (filter (λ w : positive * WithdrawalRequest.t, 0 < WithdrawalRequest.amount_remaining w.2) W)
  ≤ avail →
  ∀ w, w ∈ W → 0 < WithdrawalRequest.amount_remaining w.2 →
       ("admin"%string, w.1, WithdrawalRequest.amount_remaining w.2)
       ∈ admin_as_funder_loop avail W.
Proof.
  revert avail. induction W as [|w0 W IH]; intros avail Hsum w Hw Hpos.
  - by apply elem_of_nil in Hw.
  - assert (0 ≤ total_withdrawal_remaining
                  (filter (λ w : positive * WithdrawalRequest.t,
                             0 < WithdrawalRequest.amount_remaining w.2) W)) as Hnn.
    { clear. induction W as [|x W IH]; [done|]. rewrite filter_cons. case_decide; simpl; lia. }
    rewrite filter_cons in Hsum. simpl. case_decide as Hp0.
    + simpl in Hsum. rewrite bool_decide_eq_true_2 by lia.
      apply elem_of_cons in Hw as [->|Hw]; [by left|]. right. apply IH; [lia|done..].
    + rewrite bool_decide_eq_false_2 by lia.
      apply elem_of_cons in Hw as [->|Hw]; [lia|]. by apply IH.
Qed.


Lemma create_match_pair_wallets c now db m :
  wallets (create_match_pair c now db m) = wallets db.
Proof. by destruct m as [[f w] a]. Qed.

Lemma process_currency_wallets c cutoff now db cur :
  wallets (process_currency c cutoff now db cur) = wallets db.
Proof.
  unfold process_currency. case_bool_decide; [done|]. simpl.
  by rewrite (foldl_frame (create_match_pair c now) wallets)
    by apply create_match_pair_wallets.
Qed.

Lemma process_currencies_wallets failure c cutoff now l db :
  wallets (match process_currencies failure c cutoff now l db with inl d | inr d => d end)
  = wallets db.
Proof.
  revert db. induction l as [|cur l IH]; intros db; simpl; [done|].
  case_bool_decide; [done|]. by rewrite IH, process_currency_wallets.
Qed.

Lemma run_merge_cycle_wallets failure now id db :
  wallets (run_merge_cycle failure now id db) = wallets db.
Proof.
  unfold run_merge_cycle.
  destruct (merge_cycles db !! id) as [cycle|]; [|done].
  case_bool_decide; [done|].
  set (db1 := set_merge_cycles _ db).
  pose proof (process_currencies_wallets failure id (MergeCycle.cutoff_time cycle) now
                [NAIRA; USDT] db1) as Hw.
  by destruct (process_currencies _ _ _ _ _ db1).
Qed.

Lemma admin_as_funder_loop_snoc avail W w :
  admin_as_funder_loop avail (W ++ [w])
  = admin_as_funder_loop avail W
    ++ (if bool_decide (0 < WithdrawalRequest.amount_remaining w.2 ∧
                        WithdrawalRequest.amount_remaining w.2
                        ≤ avail - sum_admin (admin_as_funder_loop avail W))
        then [("admin"%string, w.1, WithdrawalRequest.amount_remaining w.2)] else []).
Proof.
  revert avail. induction W as [|w0 W IH]; intros avail.
  - simpl. rewrite Z.sub_0_r. by case_bool_decide.
  - cbn [app admin_as_funder_loop]. case_bool_decide as Hc.
    + rewrite IH. change (sum_admin (?e :: ?l)) with (e.2 + sum_admin l).
      cbn [snd app]. by rewrite Z.sub_add_distr.
    + by rewrite IH.
Qed.

Lemma funding_kept_refl r : funding_kept r r.
Proof. unfold funding_kept. split_and!; done. Qed.

Lemma withdrawal_kept_refl r : withdrawal_kept r r.
Proof. unfold withdrawal_kept. split_and!; done. Qed.

Lemma funding_kept_trans r1 r2 r3 : funding_kept r1 r2 → funding_kept r2 r3 → funding_kept r1 r3.
Proof.
  intros (Hw1 & Ht1 & Hc1 & Hr1 & Hm1) (Hw2 & Ht2 & Hc2 & Hr2 & Hm2).
  unfold funding_kept. split_and!; try congruence; [lia|].
  intros Hf Hpos. apply Hm2; [|done]. apply Hm1; [done|lia].
Qed.

Lemma withdrawal_kept_trans r1 r2 r3 :
  withdrawal_kept r1 r2 → withdrawal_kept r2 r3 → withdrawal_kept r1 r3.
Proof.
  intros (Hw1 & Ht1 & Hc1 & Hr1 & Hm1) (Hw2 & Ht2 & Hc2 & Hr2 & Hm2).
  unfold withdrawal_kept. split_and!; try congruence; [lia|].
  intros Hf Hpos. apply Hm2; [|done]. apply Hm1; [done|lia].
Qed.

Lemma match_funding_kept c now a r : 0 ≤ a → funding_kept r (match_funding c now a r).
Proof.
  intros Ha. unfold funding_kept, match_funding. cbv zeta.
  case_bool_decide as Hz; simpl in *; split_and!; try done; lia.
Qed.

Lemma match_withdrawal_kept c now a r : 0 ≤ a → withdrawal_kept r (match_withdrawal c now a r).
Proof.
  intros Ha. unfold withdrawal_kept, match_withdrawal. cbv zeta.
  case_bool_decide as Hz; simpl in *; split_and!; try done; lia.
Qed.

Lemma requests_kept_refl db : requests_kept db db.
Proof.
  split; intros k.
  - destruct (funding_requests db !! k); constructor. apply funding_kept_refl.
  - destruct (withdrawal_requests db !! k); constructor. apply withdrawal_kept_refl.
Qed.

Lemma requests_kept_trans db1 db2 db3 :
  requests_kept db1 db2 → requests_kept db2 db3 → requests_kept db1 db3.
Proof.
  intros [Hf1 Hw1] [Hf2 Hw2]. split; intros k.
  - specialize (Hf1 k). specialize (Hf2 k).
    destruct Hf1 as [r1 r2 H1|]; inversion Hf2 as [? r3 H2|]; subst; constructor.
    by eapply funding_kept_trans.
  - specialize (Hw1 k). specialize (Hw2 k).
    destruct Hw1 as [r1 r2 H1|]; inversion Hw2 as [? r3 H2|]; subst; constructor.
    by eapply withdrawal_kept_trans.
Qed.

Lemma requests_kept_ext db db1 db2 :
  funding_requests db2 = funding_requests db1 →
  withdrawal_requests db2 = withdrawal_requests db1 →
  requests_kept db db1 → requests_kept db db2.
Proof. intros Hf Hw [H1 H2]. split; intros k; [rewrite Hf; apply H1|rewrite Hw; apply H2]. Qed.

Lemma create_match_pair_kept c now db m :
  0 ≤ m.2 → requests_kept db (create_match_pair c now db m).
Proof.
  destruct m as [[f w] a]. simpl. intros Ha. split; intros k; simpl.
  - rewrite lookup_alter. case_decide; [subst|].
    + destruct (funding_requests db !! k); constructor. by apply match_funding_kept.
    + destruct (funding_requests db !! k); constructor. apply funding_kept_refl.
  - rewrite lookup_alter. case_decide; [subst|].
    + destruct (withdrawal_requests db !! k); constructor. by apply match_withdrawal_kept.
    + destruct (withdrawal_requests db !! k); constructor. apply withdrawal_kept_refl.
Qed.

Lemma create_match_pairs_kept c now ms db :
  Forall (λ m, 0 ≤ m.2) ms → requests_kept db (foldl (create_match_pair c now) db ms).
Proof.
  revert db. induction ms as [|m ms IH]; intros db Hms; [apply requests_kept_refl|].
  apply Forall_cons in Hms as [Hm Hms]. cbn [foldl].
  eapply requests_kept_trans; [by apply create_match_pair_kept|by apply IH].
Qed.

Lemma smart_match_requests_nonneg F W :
  Forall (λ r, 0 ≤ FundingRequest.amount_remaining r.2) F →
  Forall (λ r, 0 ≤ WithdrawalRequest.amount_remaining r.2) W →
  Forall (λ m, 0 ≤ m.2) (smart_match_requests F W).
Proof.
  intros HF HW. destruct (smart_match_requests_exit F W) as (s & Hloop & ->).
  destruct (match_init_nonneg F W HF HW) as [Hf Hw].
  destruct (match_loop_invariant (amounts_inv (match_init F W))
              (amounts_inv_step (match_init F W)) _ _ _ Hloop) as [Hinv _].
  - by apply amounts_inv_init.
  - apply Hinv.
Qed.

Lemma process_currency_kept c cutoff now db cur :
  requests_bounded db → requests_kept db (process_currency c cutoff now db cur).
Proof.
  intros [Hbf Hbw]. unfold process_currency.
  case_bool_decide; [by eapply requests_kept_ext; [..|apply requests_kept_refl]|].
  set (F := cycle_funding_requests db cur cutoff).
  set (W := cycle_withdrawal_requests db cur cutoff).
  set (db1 := set_merge_cycles _ db).
  eapply requests_kept_ext with
    (db1 := foldl (create_match_pair c now) db1 (smart_match_requests F W)); [done..|].
  change (requests_kept db1 (foldl (create_match_pair c now) db1 (smart_match_requests F W))).
  apply create_match_pairs_kept, smart_match_requests_nonneg.
  - apply Forall_forall. intros [k r] [_ Hr%elem_of_map_to_list]%list_elem_of_filter.
    apply (Hbf k r Hr).
  - apply Forall_forall. intros [k r] [_ Hr%elem_of_map_to_list]%list_elem_of_filter.
    apply (Hbw k r Hr).
Qed.

Lemma process_currencies_kept failure c cutoff now l db :
  requests_bounded db →
  requests_kept db
    (match process_currencies failure c cutoff now l db with inl d | inr d => d end).
Proof.
  revert db. induction l as [|cur l IH]; intros db Hb; simpl.
  - apply requests_kept_refl.
  - case_bool_decide; [apply requests_kept_refl|].
    eapply requests_kept_trans; [by apply process_currency_kept|].
    apply IH. eapply requests_shrink_bounded; [done|]. by apply process_currency_shrink.
Qed.

Lemma run_merge_cycle_kept failure now id db :
  requests_bounded db → requests_kept db (run_merge_cycle failure now id db).
Proof.
  intros Hb. unfold run_merge_cycle.
  destruct (merge_cycles db !! id) as [cycle|]; [|apply requests_kept_refl].
  case_bool_decide; [apply requests_kept_refl|].
  set (db1 := set_merge_cycles _ db).
  pose proof (process_currencies_kept failure id (MergeCycle.cutoff_time cycle) now
                [NAIRA; USDT] db1 Hb) as Hs.
  destruct (process_currencies _ _ _ _ _ db1) as [d|d]; exact Hs.
Qed.

(** C3, as amended.  [run_merge_cycle] does not consult or change the admin
    wallets: after the peer matching of a currency the request, pair and
    wallet tables are left as the loop over the triples left them, and the
    requests that still have a positive remainder are only counted.  They
    are left for the next cycle: a request the queries of a cycle select,
    and which has a positive remainder after the cycle, is selected again
    by the queries of a cycle with a later cutoff.  The helper
    [match_with_admin_wallet], which the cycle does not call, changes
    nothing either: when the currency has a funding pool, it proposes every
    funding request with a positive remainder, for the whole remainder; it
    takes the withdrawal requests in the order of the list and proposes a
    request, for its whole remainder, exactly when the remainder is
    positive and covered by the running balance, the balance of the pool
    less what it proposes for the requests before; so the requests
    proposed have a positive remainder, their total is within the balance
    of the pool, and all of them are proposed when the balance covers their
    total; with no pool it proposes nothing. *)
Theorem merge_cycle_leaves_leftovers :
  (∀ failure now merge_cycle_id db,
     admin_wallets (run_merge_cycle failure now merge_cycle_id db) = admin_wallets db) ∧
  (∀ cycle_id cutoff_time now db currency,
     let funding_requests' := cycle_funding_requests db currency cutoff_time in
     let withdrawal_requests' := cycle_withdrawal_requests db currency cutoff_time in
     let counted :=
       set_merge_cycles
         (alter (MergeCycle.add_totals (Z.of_nat (length funding_requests'))
                                       (Z.of_nat (length withdrawal_requests'))) cycle_id) db in
     let peer_matched :=
       foldl (create_match_pair cycle_id now) counted
         (smart_match_requests funding_requests' withdrawal_requests') in
     let db' := process_currency cycle_id cutoff_time now db currency in
     funding_requests db' = funding_requests peer_matched ∧
     withdrawal_requests db' = withdrawal_requests peer_matched ∧
     funding_match_pairs db' = funding_match_pairs peer_matched ∧
     wallets db' = wallets peer_matched ∧
     (¬ (funding_requests' = [] ∧ withdrawal_requests' = []) →
      merge_cycles db'
      = alter (MergeCycle.add_unmatched
                 (Z.of_nat (length (unmatched_funding_of peer_matched funding_requests')))
                 (Z.of_nat (length (unmatched_withdrawal_of peer_matched
                                      withdrawal_requests'))))
              cycle_id (merge_cycles peer_matched))) ∧
  (∀ failure now merge_cycle_id db currency cutoff_time later_cutoff,
     requests_bounded db → cutoff_time ≤ later_cutoff →
     let db' := run_merge_cycle failure now merge_cycle_id db in
     (∀ k r r',
        (k, r) ∈ cycle_funding_requests db currency cutoff_time →
        funding_requests db' !! k = Some r' → 0 < FundingRequest.amount_remaining r' →
        (k, r') ∈ cycle_funding_requests db' currency later_cutoff) ∧
     (∀ k r r',
        (k, r) ∈ cycle_withdrawal_requests db currency cutoff_time →
        withdrawal_requests db' !! k = Some r' → 0 < WithdrawalRequest.amount_remaining r' →
        (k, r') ∈ cycle_withdrawal_requests db' currency later_cutoff)) ∧
  (∀ unmatched_funding unmatched_withdrawal currency db,
     let result :=
       match_with_admin_wallet unmatched_funding unmatched_withdrawal currency db in
     match head (filter (is_funding_pool currency) (map_to_list (admin_wallets db))) with
     | None => result = ([], [])
     | Some admin_wallet =>
         result.1
         = (λ f : positive * FundingRequest.t,
              (f.1, "admin"%string, FundingRequest.amount_remaining f.2))
             <$> filter (λ f : positive * FundingRequest.t,
                           0 < FundingRequest.amount_remaining f.2) unmatched_funding ∧
         result.2
         `sublist_of` (λ w : positive * WithdrawalRequest.t,
                         ("admin"%string, w.1, WithdrawalRequest.amount_remaining w.2))
                        <$> unmatched_withdrawal ∧
         (∀ e, e ∈ result.2 →
            ∃ w, w ∈ unmatched_withdrawal ∧
                 e = ("admin"%string, w.1, WithdrawalRequest.amount_remaining w.2) ∧
                 0 < WithdrawalRequest.amount_remaining w.2) ∧
         (0 ≤ AdminWallet.balance admin_wallet.2 →
          sum_admin result.2 ≤ AdminWallet.balance admin_wallet.2) ∧
         (total_withdrawal_remaining
            (filter (λ w : positive * WithdrawalRequest.t,
                       0 < WithdrawalRequest.amount_remaining w.2) unmatched_withdrawal)
          ≤ AdminWallet.balance admin_wallet.2 →
          ∀ w, w ∈ unmatched_withdrawal → 0 < WithdrawalRequest.amount_remaining w.2 →
               ("admin"%string, w.1, WithdrawalRequest.amount_remaining w.2) ∈ result.2) ∧
         (match_with_admin_wallet unmatched_funding [] currency db).2 = [] ∧
         (∀ before w,
            let proposed_before :=
              (match_with_admin_wallet unmatched_funding before currency db).2 in
            let available := AdminWallet.balance admin_wallet.2 - sum_admin proposed_before in
            (match_with_admin_wallet unmatched_funding (before ++ [w]) currency db).2
            = proposed_before
              ++ (if bool_decide (0 < WithdrawalRequest.amount_remaining w.2 ∧
                                  WithdrawalRequest.amount_remaining w.2 ≤ available)
                  then [("admin"%string, w.1, WithdrawalRequest.amount_remaining w.2)]
                  else []))
     end).
Proof.
  split; [apply run_merge_cycle_admin_wallets|].
  split; [|split].
  - intros c cutoff now db cur F W counted peer_matched db'.
    unfold db', peer_matched, counted, process_currency. fold F W.
    case_bool_decide as Hempty; [|done].
    split_and!; [by destruct Hempty as [-> ->]..|done].
  - intros failure now id db cur cutoff later Hb Hcut db'.
    destruct (run_merge_cycle_kept failure now id db Hb) as [Hkf Hkw]. fold db' in Hkf, Hkw.
    split; intros k r r' [(Hcur & Hpend & Htime) Hr%elem_of_map_to_list]%list_elem_of_filter
                  Hr' Hpos;
      simpl in *; apply list_elem_of_filter; (split; [|by apply elem_of_map_to_list]).
    + specialize (Hkf k). rewrite Hr, Hr' in Hkf.
      inversion Hkf as [? ? (Hw & Ht & Hc & Hrem & Hm)|]; subst.
      destruct Hpend as [Hfm Hco]. simpl in *. split; [|split; [split|]]; simpl.
      * unfold funding_of_currency, db'. simpl. by rewrite run_merge_cycle_wallets, Hw.
      * by apply Hm.
      * by rewrite Hc.
      * rewrite Ht. lia.
    + specialize (Hkw k). rewrite Hr, Hr' in Hkw.
      inversion Hkw as [? ? (Hw & Ht & Hc & Hrem & Hm)|]; subst.
      destruct Hpend as [Hfm Hco]. simpl in *. split; [|split; [split|]]; simpl.
      * unfold withdrawal_of_currency, db'. simpl. by rewrite run_merge_cycle_wallets, Hw.
      * by apply Hm.
      * by rewrite Hc.
      * rewrite Ht. lia.
  - intros F W cur db result. unfold result, match_with_admin_wallet.
    destruct (head _) as [aw|]; [|done]. simpl. split_and!.
    + done.
    + apply admin_as_funder_loop_sublist.
    + intros e. apply admin_as_funder_loop_elem.
    + apply admin_as_funder_loop_sum.
    + apply admin_as_funder_loop_all.
    + done.
    + intros before w. apply admin_as_funder_loop_snoc.
Qed.

(** ** Rejections *)

Lemma rejection_snd {A} (r : Database * Response A) e :
  (rejection r).2 = Some e ↔ r.2 = HTTPException e.
Proof. unfold rejection. destruct r as [d [data|e']]; simpl; split; congruence. Qed.

Lemma create_funding_request_rejected amount currency user_id now db e :
  (create_funding_request amount currency user_id now db).2 = HTTPException e →
  (create_funding_request amount currency user_id now db).1 = db.
Proof. unfold create_funding_request. by destruct (request_wallet _ _ _ _). Qed.

Lemma create_withdrawal_request_rejected amount currency user_id now db e :
  (create_withdrawal_request amount currency user_id now db).2 = HTTPException e →
  (create_withdrawal_request amount currency user_id now db).1 = db.
Proof.
  unfold create_withdrawal_request. destruct (request_wallet _ _ _ _); [|done].
  by case_bool_decide.
Qed.

Lemma cancel_funding_request_rejected fk request_id user_id now db e :
  (cancel_funding_request fk request_id user_id now db).2 = HTTPException e →
  (cancel_funding_request fk request_id user_id now db).1 = db.
Proof.
  unfold cancel_funding_request.
  destruct (funding_requests db !! _); [|done]. destruct (wallets db !! _); [|done].
  case_bool_decide; [done|]. destruct (FundingRequest.is_completed _); [done|].
  destruct (_ || _); [done|]. destruct (cutoff_check now db); [done|].
  by destruct (fk && _).
Qed.

Lemma cancel_withdrawal_request_rejected fk request_id user_id now db e :
  (cancel_withdrawal_request fk request_id user_id now db).2 = HTTPException e →
  (cancel_withdrawal_request fk request_id user_id now db).1 = db.
Proof.
  unfold cancel_withdrawal_request.
  destruct (withdrawal_requests db !! _); [|done]. destruct (wallets db !! _); [|done].
  case_bool_decide; [done|]. destruct (WithdrawalRequest.is_completed _); [done|].
  destruct (_ || _); [done|]. destruct (cutoff_check now db); [done|].
  by destruct (fk && _).
Qed.

Lemma upload_proof_rejected pair_id file_ext stored user_id now db e :
  (upload_proof pair_id file_ext stored user_id now db).2 = HTTPException e →
  e ≠ ProofDeadlinePassed →
  (upload_proof pair_id file_ext stored user_id now db).1 = db.
Proof.
  unfold upload_proof.
  destruct (funding_match_pairs db !! _); [|done]. destruct (funding_requests db !! _); [|done].
  destruct (wallets db !! _); [|done]. case_bool_decide; [done|].
  destruct (FundingMatchPair.proof_uploaded _); [done|].
  destruct (deadline_passed _ _); [by intros [= <-]|].
  case_bool_decide; [done|]. by destruct stored.
Qed.

Lemma confirm_proof_rejected pair_id user_id now db e :
  (confirm_proof pair_id user_id now db).2 = HTTPException e →
  (confirm_proof pair_id user_id now db).1 = db.
Proof. intros _. apply confirm_proof_unchanged. Qed.

Lemma request_extension_rejected pair_id user_id now db e :
  (request_extension pair_id user_id now db).2 = HTTPException e →
  (request_extension pair_id user_id now db).1 = db.
Proof.
  unfold request_extension.
  destruct (funding_match_pairs db !! _); [|done]. destruct (funding_requests db !! _); [|done].
  destruct (wallets db !! _); [|done]. case_bool_decide; [done|].
  destruct (FundingMatchPair.extension_requested _); [done|].
  destruct (FundingMatchPair.proof_uploaded _); [done|].
  destruct (deadline_passed _ _); [done|]. by destruct (FundingMatchPair.proof_deadline _).
Qed.


(** C6, as amended.  Every rejection of an endpoint other than the
    proof-deadline rejection of [upload_proof] leaves the database as it
    was: that covers the duplicate pending request, the request already
    matched or completed, the proof already uploaded or confirmed, the
    confirmation deadline passed, the extension already requested and the
    extension asked after the deadline.  The proof-deadline rejection of
    [upload_proof] is answered after the block of the funder's wallet, the
    re-queue of the withdrawal request and the flag of the pair have been
    committed. *)
Theorem rejections_leave_state :
  (∀ a now db e,
     (perform a now db).2 = Some e → e ≠ ProofDeadlinePassed → (perform a now db).1 = db) ∧
  (∀ pair_id file_ext stored user_id now db,
     (upload_proof pair_id file_ext stored user_id now db).2
     = HTTPException ProofDeadlinePassed →
     ∃ p freq,
       funding_match_pairs db !! pair_id = Some p ∧
       funding_requests db !! FundingMatchPair.funding_request_id p = Some freq ∧
       FundingMatchPair.proof_uploaded p = false ∧
       deadline_passed (FundingMatchPair.proof_deadline p) now = true ∧
       (upload_proof pair_id file_ext stored user_id now db).1
       = block_and_requeue pair_id p (FundingRequest.wallet_id freq) db).
Proof.
  split.
  - intros a now db e. destruct a; unfold perform; rewrite ?rejection_fst, ?rejection_snd;
      try done.
    + intros. by eapply create_funding_request_rejected.
    + intros. by eapply create_withdrawal_request_rejected.
    + intros. by eapply cancel_funding_request_rejected.
    + intros. by eapply cancel_withdrawal_request_rejected.
    + intros. by eapply upload_proof_rejected.
    + intros. by eapply confirm_proof_rejected.
    + intros. by eapply request_extension_rejected.
  - apply upload_proof_late.
Qed.

(** ** Cancellation *)

(** [get_next_merge_cycle] gives the pending cycle scheduled after [now]
    that comes first. *)
Lemma foldr_earlier_cycle l :
  match foldr earlier_cycle None l with
  | None => l = []
  | Some c => c ∈ l ∧ ∀ c', c' ∈ l →
                MergeCycle.scheduled_time c.2 ≤ MergeCycle.scheduled_time c'.2
  end.
Proof.
  induction l as [|x l IH]; simpl; [done|].
  destruct (foldr earlier_cycle None l) as [b|]; simpl.
  - destruct IH as [Hb Hmin]. case_bool_decide as Hle.
    + split; [by right|]. intros c' [->|Hc']%elem_of_cons; [done|by apply Hmin].
    + split; [by left|]. intros c' [->|Hc']%elem_of_cons; [done|].
      specialize (Hmin c' Hc'). lia.
  - subst l. split; [by left|]. by intros c' ->%list_elem_of_singleton.
Qed.

Lemma get_next_merge_cycle_spec now db :
  match get_next_merge_cycle now db with
  | None =>
      ∀ k c, merge_cycles db !! k = Some c →
             ¬ (now < MergeCycle.scheduled_time c ∧ MergeCycle.status c = pending)
  | Some next =>
      merge_cycles db !! next.1 = Some next.2 ∧
      now < MergeCycle.scheduled_time next.2 ∧ MergeCycle.status next.2 = pending ∧
      ∀ k c, merge_cycles db !! k = Some c →
             now < MergeCycle.scheduled_time c → MergeCycle.status c = pending →
             MergeCycle.scheduled_time next.2 ≤ MergeCycle.scheduled_time c
  end.
Proof.
  unfold get_next_merge_cycle.
  pose proof (foldr_earlier_cycle
                (filter (λ c : positive * MergeCycle.t,
                           now < MergeCycle.scheduled_time c.2 ∧ MergeCycle.status c.2 = pending)
                        (map_to_list (merge_cycles db)))) as H.
  destruct (foldr earlier_cycle None _) as [[k0 c0]|].
  - destruct H as [[[Hs Hp] Hin%elem_of_map_to_list]%list_elem_of_filter Hmin].
    split_and!; try done. intros k c Hc Hs' Hp'.
    apply (Hmin (k, c)). apply list_elem_of_filter. split; [done|].
    by apply elem_of_map_to_list.
  - intros k c Hc Hcond.
    assert ((k, c) ∈ filter (λ c : positive * MergeCycle.t,
                           now < MergeCycle.scheduled_time c.2 ∧ MergeCycle.status c.2 = pending)
                        (map_to_list (merge_cycles db))) as Hin.
    { apply list_elem_of_filter. split; [done|]. by apply elem_of_map_to_list. }
    rewrite H in Hin. by apply elem_of_nil in Hin.
Qed.

Lemma cutoff_check_None now db :
  cutoff_check now db = None ↔
  get_next_merge_cycle now db = None ∨
  ∃ c, get_next_merge_cycle now db = Some c ∧ now < MergeCycle.cutoff_time c.2.
Proof.
  unfold cutoff_check, is_before_cutoff.
  destruct (get_next_merge_cycle now db) as [c|].
  - case_bool_decide; split; try done.
    + intros _. right. by exists c.
    + intros [|(c' & [= <-] & ?)]; [done|lia].
  - split; [by left|done].
Qed.

Lemma cutoff_check_Some now db e :
  cutoff_check now db = Some e ↔
  ∃ c, get_next_merge_cycle now db = Some c ∧ MergeCycle.cutoff_time c.2 ≤ now ∧
       e = WithinCutoff (Z.quot (MergeCycle.scheduled_time c.2 - now) (timedelta_minutes 1)).
Proof.
  unfold cutoff_check, is_before_cutoff.
  destruct (get_next_merge_cycle now db) as [c|].
  - case_bool_decide; split.
    + done.
    + intros (c' & [= <-] & ? & _). lia.
    + intros [= <-]. exists c. split_and!; [done|lia|done].
    + by intros (c' & [= <-] & ? & ->).
  - split; [done|]. by intros (c' & ? & _).
Qed.


(** C7, as amended.  [cancel_funding_request] and
    [cancel_withdrawal_request] delete the request only for its owner,
    while it is not completed, not fully matched and [matched_at] is unset,
    and when no pending cycle is scheduled later or the current time is
    before the cutoff of the next one ([get_next_merge_cycle_spec]).  Every
    rejection leaves the database as it was.  A completed request and a
    request fully matched are rejected with their own message; the
    rejection that carries the minutes to the merge is the one of a request
    that passes these checks at or after the cutoff of the next cycle. *)
Theorem cancellation_guard :
  (∀ foreign_keys request_id user_id now db,
     let result := cancel_funding_request foreign_keys request_id user_id now db in
     (∀ data, result.2 = SuccessResponse data →
        ∃ r w,
          funding_requests db !! request_id = Some r ∧
          wallets db !! FundingRequest.wallet_id r = Some w ∧
          Wallet.user_id w = user_id ∧
          FundingRequest.is_completed r = false ∧
          FundingRequest.is_fully_matched r = false ∧
          FundingRequest.matched_at r = None ∧
          (get_next_merge_cycle now db = None ∨
           ∃ c, get_next_merge_cycle now db = Some c ∧ now < MergeCycle.cutoff_time c.2) ∧
          result.1 = set_funding_requests (delete request_id) db) ∧
     (∀ e, result.2 = HTTPException e → result.1 = db) ∧
     (∀ m, result.2 = HTTPException (WithinCutoff m) →
        ∃ c, get_next_merge_cycle now db = Some c ∧ MergeCycle.cutoff_time c.2 ≤ now ∧
             m = Z.quot (MergeCycle.scheduled_time c.2 - now) (timedelta_minutes 1)) ∧
     (∀ r w, funding_requests db !! request_id = Some r →
        wallets db !! FundingRequest.wallet_id r = Some w → Wallet.user_id w = user_id →
        (FundingRequest.is_completed r = true → result.2 = HTTPException RequestCompleted) ∧
        (FundingRequest.is_completed r = false →
         FundingRequest.is_fully_matched r = true ∨ is_Some (FundingRequest.matched_at r) →
         result.2 = HTTPException RequestAlreadyMatched) ∧
        (FundingRequest.is_completed r = false →
         FundingRequest.is_fully_matched r = false → FundingRequest.matched_at r = None →
         ∀ c, get_next_merge_cycle now db = Some c → MergeCycle.cutoff_time c.2 ≤ now →
              result.2
              = HTTPException
                  (WithinCutoff
                     (Z.quot (MergeCycle.scheduled_time c.2 - now) (timedelta_minutes 1)))))) ∧
  (∀ foreign_keys request_id user_id now db,
     let result := cancel_withdrawal_request foreign_keys request_id user_id now db in
     (∀ data, result.2 = SuccessResponse data →
        ∃ r w,
          withdrawal_requests db !! request_id = Some r ∧
          wallets db !! WithdrawalRequest.wallet_id r = Some w ∧
          Wallet.user_id w = user_id ∧
          WithdrawalRequest.is_completed r = false ∧
          WithdrawalRequest.is_fully_matched r = false ∧
          WithdrawalRequest.matched_at r = None ∧
          (get_next_merge_cycle now db = None ∨
           ∃ c, get_next_merge_cycle now db = Some c ∧ now < MergeCycle.cutoff_time c.2) ∧
          result.1 = set_withdrawal_requests (delete request_id) db) ∧
     (∀ e, result.2 = HTTPException e → result.1 = db) ∧
     (∀ m, result.2 = HTTPException (WithinCutoff m) →
        ∃ c, get_next_merge_cycle now db = Some c ∧ MergeCycle.cutoff_time c.2 ≤ now ∧
             m = Z.quot (MergeCycle.scheduled_time c.2 - now) (timedelta_minutes 1)) ∧
     (∀ r w, withdrawal_requests db !! request_id = Some r →
        wallets db !! WithdrawalRequest.wallet_id r = Some w → Wallet.user_id w = user_id →
        (WithdrawalRequest.is_completed r = true →
         result.2 = HTTPException RequestCompleted) ∧
        (WithdrawalRequest.is_completed r = false →
         WithdrawalRequest.is_fully_matched r = true
         ∨ is_Some (WithdrawalRequest.matched_at r) →
         result.2 = HTTPException RequestAlreadyMatched) ∧
        (WithdrawalRequest.is_completed r = false →
         WithdrawalRequest.is_fully_matched r = false →
         WithdrawalRequest.matched_at r = None →
         ∀ c, get_next_merge_cycle now db = Some c → MergeCycle.cutoff_time c.2 ≤ now →
              result.2
              = HTTPException
                  (WithinCutoff
                     (Z.quot (MergeCycle.scheduled_time c.2 - now) (timedelta_minutes 1)))))).
Proof.
  split.
  - intros fk request_id user_id now db result. unfold result, cancel_funding_request.
    destruct (funding_requests db !! request_id) as [r|] eqn:Hr;
      [|cbn [fst snd]; split_and!; first [done | by intros; simplify_eq]].
    destruct (wallets db !! FundingRequest.wallet_id r) as [w|] eqn:Hw;
      [|cbn [fst snd]; split_and!; first [done | by intros; simplify_eq]].
    case_bool_decide as Hu.
    { cbn [fst snd]. split_and!; try done. intros r' w' ? ? ?. by simplify_eq. }
    destruct (FundingRequest.is_completed r) eqn:Hc.
    { cbn [fst snd]. split_and!; try done. intros r' w' ? ? _. simplify_eq.
      split_and!; congruence. }
    destruct (FundingRequest.is_fully_matched r) eqn:Hm; simpl.
    { cbn [fst snd]. split_and!; try done. intros r' w' ? ? _. simplify_eq.
      split_and!; congruence. }
    case_bool_decide as Hma.
    { cbn [fst snd]. split_and!; try done. intros r' w' ? ? _. simplify_eq.
      split_and!; try congruence.
      intros _ _ Hn. rewrite Hn in Hma. by destruct Hma. }
    assert (FundingRequest.matched_at r = None) as Hnone.
    { destruct (FundingRequest.matched_at r); [|done]. by destruct Hma. }
    destruct (cutoff_check now db) as [e|] eqn:Hcut.
    + apply cutoff_check_Some in Hcut as (c & Hc1 & Hc2 & ->).
      cbn [fst snd]. split_and!; try done.
      * intros m [= <-]. by exists c.
      * intros r' w' ? ? _. simplify_eq. split_and!; try congruence.
        intros _ [?|Hs]; [congruence|]. rewrite Hnone in Hs. by destruct Hs.
    + apply cutoff_check_None in Hcut.
      assert (∀ r' w', Some r = Some r' →
                wallets db !! FundingRequest.wallet_id r' = Some w' →
                Wallet.user_id w' = user_id →
                (FundingRequest.is_completed r' = true → False) ∧
                (FundingRequest.is_completed r' = false →
                 FundingRequest.is_fully_matched r' = true
                 ∨ is_Some (FundingRequest.matched_at r') → False) ∧
                (FundingRequest.is_completed r' = false →
                 FundingRequest.is_fully_matched r' = false →
                 FundingRequest.matched_at r' = None →
                 ∀ c, get_next_merge_cycle now db = Some c →
                      MergeCycle.cutoff_time c.2 ≤ now → False)) as Hno.
      { intros r' w' ? ? _. simplify_eq. split_and!; try congruence.
        - intros _ [?|Hs]; [congruence|]. rewrite Hnone in Hs. by destruct Hs.
        - intros _ _ _ c' Hc' Hle. destruct Hcut as [?|(c & ? & ?)]; [congruence|].
          simplify_eq. lia. }
      destruct (fk && _); cbn [fst snd]; (split_and!; try done).
      * intros r' w' H1 H2 H3. destruct (Hno r' w' H1 H2 H3) as (Ha & Hb & Hd).
        split_and!; intros; exfalso; eauto.
      * intros data _. by exists r, w.
      * intros r' w' H1 H2 H3. destruct (Hno r' w' H1 H2 H3) as (Ha & Hb & Hd).
        split_and!; intros; exfalso; eauto.
  - intros fk request_id user_id now db result. unfold result, cancel_withdrawal_request.
    destruct (withdrawal_requests db !! request_id) as [r|] eqn:Hr;
      [|cbn [fst snd]; split_and!; first [done | by intros; simplify_eq]].
    destruct (wallets db !! WithdrawalRequest.wallet_id r) as [w|] eqn:Hw;
      [|cbn [fst snd]; split_and!; first [done | by intros; simplify_eq]].
    case_bool_decide as Hu.
    { cbn [fst snd]. split_and!; try done. intros r' w' ? ? ?. by simplify_eq. }
    destruct (WithdrawalRequest.is_completed r) eqn:Hc.
    { cbn [fst snd]. split_and!; try done. intros r' w' ? ? _. simplify_eq.
      split_and!; congruence. }
    destruct (WithdrawalRequest.is_fully_matched r) eqn:Hm; simpl.
    { cbn [fst snd]. split_and!; try done. intros r' w' ? ? _. simplify_eq.
      split_and!; congruence. }
    case_bool_decide as Hma.
    { cbn [fst snd]. split_and!; try done. intros r' w' ? ? _. simplify_eq.
      split_and!; try congruence.
      intros _ _ Hn. rewrite Hn in Hma. by destruct Hma. }
    assert (WithdrawalRequest.matched_at r = None) as Hnone.
    { destruct (WithdrawalRequest.matched_at r); [|done]. by destruct Hma. }
    destruct (cutoff_check now db) as [e|] eqn:Hcut.
    + apply cutoff_check_Some in Hcut as (c & Hc1 & Hc2 & ->).
      cbn [fst snd]. split_and!; try done.
      * intros m [= <-]. by exists c.
      * intros r' w' ? ? _. simplify_eq. split_and!; try congruence.
        intros _ [?|Hs]; [congruence|]. rewrite Hnone in Hs. by destruct Hs.
    + apply cutoff_check_None in Hcut.
      assert (∀ r' w', Some r = Some r' →
                wallets db !! WithdrawalRequest.wallet_id r' = Some w' →
                Wallet.user_id w' = user_id →
                (WithdrawalRequest.is_completed r' = true → False) ∧
                (WithdrawalRequest.is_completed r' = false →
                 WithdrawalRequest.is_fully_matched r' = true
                 ∨ is_Some (WithdrawalRequest.matched_at r') → False) ∧
                (WithdrawalRequest.is_completed r' = false →
                 WithdrawalRequest.is_fully_matched r' = false →
                 WithdrawalRequest.matched_at r' = None →
                 ∀ c, get_next_merge_cycle now db = Some c →
                      MergeCycle.cutoff_time c.2 ≤ now → False)) as Hno.
      { intros r' w' ? ? _. simplify_eq. split_and!; try congruence.
        - intros _ [?|Hs]; [congruence|]. rewrite Hnone in Hs. by destruct Hs.
        - intros _ _ _ c' Hc' Hle. destruct Hcut as [?|(c & ? & ?)]; [congruence|].
          simplify_eq. lia. }
      destruct (fk && _); cbn [fst snd]; (split_and!; try done).
      * intros r' w' H1 H2 H3. destruct (Hno r' w' H1 H2 H3) as (Ha & Hb & Hd).
        split_and!; intros; exfalso; eauto.
      * intros data _. by exists r, w.
      * intros r' w' H1 H2 H3. destruct (Hno r' w' H1 H2 H3) as (Ha & Hb & Hd).
        split_and!; intros; exfalso; eauto.
Qed.

(** ** The claims on the example states *)

Lemma merge_cycle_status_forward_witness :
  (∃ c', merge_cycles (perform (RunMergeCycle None 31) 0 leftover_db).1 !! 31%positive = Some c' ∧
         status_forward (MergeCycle.status pending_cycle_31) (MergeCycle.status c')) ∧
  run_merge_cycle None hour 31 matched_db = matched_db.
Proof.
  destruct merge_cycle_status_forward as [Hforward Hidle]. split.
  - apply (Hforward (RunMergeCycle None 31) 0 leftover_db 31%positive pending_cycle_31);
      reflexivity.
  - apply (Hidle None hour 31%positive matched_db cycle_31); [reflexivity|discriminate].
Defined.

Lemma matching_never_increases_remaining_witness :
  requests_bounded leftover_db ∧
  requests_bounded (run_matching 0 leftover_db) ∧
  (∃ r', funding_requests (run_matching 0 leftover_db) !! 21%positive = Some r' ∧
         FundingRequest.amount r' = 500000 ∧
         0 ≤ FundingRequest.amount_remaining r' ≤ 500000) ∧
  requests_bounded (run_merge_cycle None 0 31 leftover_db) ∧
  (∃ wreq', withdrawal_requests
              (upload_proof 41 ".png" (Some "proof-1"%string) 1 (5 * hour) matched_db).1
            !! 22%positive = Some wreq' ∧
            WithdrawalRequest.amount wreq' = 500000 ∧
            WithdrawalRequest.amount_remaining wreq' = 0 + 500000).
Proof.
  destruct matching_never_increases_remaining as (Hauto & Hcycle & Hlate).
  assert (requests_bounded leftover_db) as Hb.
  { split; apply (bool_decide_unpack _); by vm_compute. }
  destruct (Hauto 0 leftover_db Hb) as (Hb' & Hf & _).
  split_and!.
  - exact Hb.
  - exact Hb'.
  - apply (Hf 21%positive request_21_unmatched). reflexivity.
  - apply (Hcycle None 0 31%positive leftover_db Hb).
  - apply (Hlate 41%positive ".png"%string (Some "proof-1"%string) 1%positive (5 * hour)
             matched_db pair_41 request_22); reflexivity.
Defined.

Lemma merge_cycle_leaves_leftovers_witness :
  admin_wallets (run_merge_cycle None 0 31 leftover_db) = admin_wallets leftover_db ∧
  (21%positive, request_21_unmatched)
  ∈ cycle_funding_requests (run_merge_cycle None 0 31 leftover_db) NAIRA (6 * hour) ∧
  (match_with_admin_wallet [] two_leftovers NAIRA leftover_db).2
  = [("admin"%string, 25%positive, 80000000)].
Proof.
  destruct merge_cycle_leaves_leftovers as (Hpool & _ & Hnext & Hhelper). split_and!.
  - apply Hpool.
  - assert (requests_bounded leftover_db) as Hb.
    { split; apply (bool_decide_unpack _); by vm_compute. }
    destruct (Hnext None 0 31%positive leftover_db NAIRA (- timedelta_minutes 10) (6 * hour)
                Hb) as [Hf _]; [vm_compute; discriminate|].
    apply (Hf 21%positive request_21_unmatched request_21_unmatched);
      [|vm_compute; reflexivity|reflexivity].
    assert (cycle_funding_requests leftover_db NAIRA (- timedelta_minutes 10)
            = [(21%positive, request_21_unmatched)]) as -> by (vm_compute; reflexivity).
    left.
  - specialize (Hhelper [] two_leftovers NAIRA leftover_db).
    change (head (filter (is_funding_pool NAIRA) (map_to_list (admin_wallets leftover_db))))
      with (Some (51%positive, AdminWallet.Build "funding_pool" NAIRA 100000000 0 0))
      in Hhelper.
    destruct Hhelper as (_ & _ & _ & _ & _ & Hnil & Hsnoc).
    pose proof (Hsnoc [] (25%positive,
                  WithdrawalRequest.Build 15 80000000 80000000 false false false None None 0
                    None false None 0)) as H1.
    pose proof (Hsnoc [(25%positive,
                  WithdrawalRequest.Build 15 80000000 80000000 false false false None None 0
                    None false None 0)]
                  (26%positive,
                  WithdrawalRequest.Build 16 50000000 50000000 false false false None None 0
                    None false None 0)) as H2.
    cbv zeta in H1, H2. cbn [app] in H1, H2. rewrite Hnil in H1. rewrite H1 in H2.
    unfold two_leftovers. rewrite H2. vm_compute. reflexivity.
Defined.

Lemma rejections_leave_state_witness :
  (perform (ConfirmProof 41 2) hour matched_db).2 = Some NoProofUploaded ∧
  (perform (ConfirmProof 41 2) hour matched_db).1 = matched_db.
Proof.
  destruct rejections_leave_state as (Hsame & _).
  split; [reflexivity|].
  apply (Hsame (ConfirmProof 41 2) hour matched_db NoProofUploaded);
    [reflexivity|discriminate].
Defined.

Lemma cancellation_guard_witness :
  (cancel_funding_request true 23 3 0 partial_db).2 = HTTPException RequestAlreadyMatched ∧
  (cancel_funding_request true 23 3 0 partial_db).1 = partial_db.
Proof.
  destruct cancellation_guard as (Hfunding & _).
  destruct (Hfunding true 23%positive 3%positive 0 partial_db) as (_ & Hsame & _ & Hguard).
  destruct (Hguard (FundingRequest.Build 13 500000 0 true false false None (Some 31%positive)
                      (- hour) (Some 0)) (wallet_of 3 0))
    as (_ & Hmatched & _); [reflexivity..|].
  assert ((cancel_funding_request true 23 3 0 partial_db).2
          = HTTPException RequestAlreadyMatched) as Hrej.
  { apply Hmatched; [reflexivity|]. by left. }
  split; [exact Hrej|]. by apply (Hsame RequestAlreadyMatched).
Defined.

(** C2.  The sweep on [matched_db] one microsecond after the proof deadline
    of the pair 41, whose proof is not uploaded: the pair is flagged and the
    funder's wallet blocked, but the withdrawal request 22 is left as it
    was, with no remainder and no priority; the branch of [upload_proof]
    for the same expiry puts the amount of the pair back and marks the
    request priority. *)
Theorem check_expired_deadlines_skips_requeue :
  let now := 4 * hour + 1 in
  let swept := check_expired_deadlines now matched_db in
  let late := (upload_proof 41 ".png" (Some "proof-1"%string) 1 now matched_db).1 in
  funding_match_pairs matched_db !! 41%positive = Some pair_41 ∧
  expired_proof now (41%positive, pair_41) ∧
  FundingMatchPair.funder_missed_deadline <$> funding_match_pairs swept !! 41%positive
  = Some true ∧
  Wallet.is_blocked <$> wallets swept !! 11%positive = Some true ∧
  withdrawal_requests swept = withdrawal_requests matched_db ∧
  withdrawal_requests swept !! 22%positive = Some request_22 ∧
  WithdrawalRequest.amount_remaining request_22 = 0 ∧
  WithdrawalRequest.is_priority request_22 = false ∧
  withdrawal_requests late !! 22%positive = Some (WithdrawalRequest.requeue 500000 request_22) ∧
  WithdrawalRequest.amount_remaining (WithdrawalRequest.requeue 500000 request_22) = 500000 ∧
  WithdrawalRequest.is_priority (WithdrawalRequest.requeue 500000 request_22) = true.
Proof.
  split_and!; try (vm_compute; reflexivity).
  unfold expired_proof. simpl. split_and!; first [done | vm_compute; discriminate].
Qed.

(** C4.  On [matched_db] the first request of extension, made before the
    deadline, sets the extended deadline one hour after the proof deadline,
    which is the deadline shown to the funder from then on, and a second
    request is rejected and changes nothing; yet an upload one microsecond
    after the original deadline, well within the extended one, is rejected
    as late and blocks the funder. *)
Theorem upload_proof_ignores_extension :
  let granted := request_extension 41 1 hour matched_db in
  let late := upload_proof 41 ".png" (Some "proof-1"%string) 1 (4 * hour + 1) granted.1 in
  FundingMatchPair.proof_deadline pair_41 = Some (4 * hour) ∧
  granted.2 = SuccessResponse (4 * hour + timedelta_hours 1) ∧
  funding_match_pairs granted.1 !! 41%positive
  = Some (FundingMatchPair.with_extension (Some (5 * hour)) pair_41) ∧
  shown_deadline (FundingMatchPair.with_extension (Some (5 * hour)) pair_41)
  = Some (5 * hour) ∧
  request_extension 41 1 (2 * hour) granted.1
  = (granted.1, HTTPException ExtensionAlreadyRequested) ∧
  4 * hour + 1 ≤ 5 * hour ∧
  late.2 = HTTPException ProofDeadlinePassed ∧
  Wallet.is_blocked <$> wallets late.1 !! 11%positive = Some true ∧
  FundingMatchPair.funder_missed_deadline <$> funding_match_pairs late.1 !! 41%positive
  = Some true.
Proof. split_and!; try (vm_compute; reflexivity). vm_compute. discriminate. Qed.

(** No check of [confirm_proof] reads a balance: its answer is the same
    whatever the balance of a wallet. *)
Lemma confirm_proof_ignores_balance pair_id user_id now db k balance total_deposited :
  (confirm_proof pair_id user_id now
     (set_wallets (alter (Wallet.with_balance balance total_deposited) k) db)).2
  = (confirm_proof pair_id user_id now db).2.
Proof.
  unfold confirm_proof. cbn [funding_match_pairs withdrawal_requests funding_requests wallets
                              set_wallets].
  assert (∀ i, alter (Wallet.with_balance balance total_deposited) k (wallets db) !! i
               = (λ w, if decide (k = i) then Wallet.with_balance balance total_deposited w
                       else w) <$> wallets db !! i) as Halt.
  { intros i. rewrite lookup_alter. case_decide; [by subst|].
    by destruct (wallets db !! i). }
  destruct (funding_match_pairs db !! pair_id) as [p|]; [|done].
  destruct (withdrawal_requests db !! _) as [wreq|]; [|done].
  rewrite Halt.
  destruct (wallets db !! WithdrawalRequest.wallet_id wreq) as [ww|]; [|done].
  cbn [fmap option_fmap option_map].
  assert (Wallet.user_id (if decide (k = WithdrawalRequest.wallet_id wreq)
                          then Wallet.with_balance balance total_deposited ww else ww)
          = Wallet.user_id ww) as -> by (by case_decide).
  case_bool_decide; [done|].
  destruct (negb _); [done|]. destruct (FundingMatchPair.proof_confirmed p); [done|].
  destruct (deadline_passed _ _); [done|].
  destruct (funding_requests db !! _) as [freq|]; [|done].
  rewrite Halt.
  destruct (wallets db !! FundingRequest.wallet_id freq) as [fw|]; [|done].
  cbn [fmap option_fmap option_map]. by rewrite !settle_raises.
Qed.

(** C10.  [overdraw_history] is run from [initial_db] by the operations of
    the service alone.  It leaves the withdrawer's wallet 12 with its
    balance of 5,000.00 and the pair 106, of 10,000.00, awaiting the
    confirmation of its proof.  The confirmation by the withdrawer passes
    every check, none of which reads a balance, and the debit made in the
    session leaves the balance at minus 5,000.00; then the construction of
    the [WalletLog] row raises: the answer is the internal error (500), the
    session is rolled back and the balance is still 5,000.00. *)
Theorem confirm_proof_debit_is_rolled_back :
  let db := run_history overdraw_history initial_db in
  let result := confirm_proof 106 2 (9 * hour) db in
  (∀ pair_id user_id now db k balance total_deposited,
     (confirm_proof pair_id user_id now
        (set_wallets (alter (Wallet.with_balance balance total_deposited) k) db)).2
     = (confirm_proof pair_id user_id now db).2) ∧
  Wallet.balance <$> wallets db !! 12%positive = Some 500000 ∧
  WithdrawalRequest.wallet_id <$> withdrawal_requests db !! 100%positive = Some 12%positive ∧
  FundingRequest.wallet_id <$> funding_requests db !! 104%positive = Some 13%positive ∧
  (∃ p, funding_match_pairs db !! 106%positive = Some p ∧
        FundingMatchPair.amount p = 1000000 ∧
        FundingMatchPair.withdrawal_request_id p = 100%positive ∧
        FundingMatchPair.funding_request_id p = 104%positive ∧
        FundingMatchPair.proof_uploaded p = true ∧
        FundingMatchPair.proof_confirmed p = false ∧
        FundingMatchPair.confirmation_deadline p = Some (12 * hour) ∧
        Wallet.balance
          <$> wallets (update_balances 106 p 13 12 (9 * hour) db) !! 12%positive
        = Some (-500000)) ∧
  500000 < 1000000 ∧ 9 * hour ≤ 12 * hour ∧ -500000 < 0 ∧
  result = (db, HTTPException InternalServerError) ∧
  Wallet.balance <$> wallets result.1 !! 12%positive = Some 500000.
Proof.
  cbv zeta. split; [apply confirm_proof_ignores_balance|].
  do 3 (split; [vm_compute; reflexivity|]).
  split.
  { eexists. split; [vm_compute; reflexivity|]. split_and!; vm_compute; reflexivity. }
  split_and!; try (vm_compute; reflexivity); vm_compute; discriminate.
Qed.

(** C3 as stated fails.  On [leftover_db] a funding pool exists and the
    pending cycle 31 finds the funding request 21 with its 5,000.00 and no
    withdrawal request; the completed cycle has counted the request as
    unmatched and left it as it was, with its positive remainder, and has
    made no pair and changed no admin wallet, whereas the helper would have
    proposed the request to the pool. *)
Lemma run_merge_cycle_ignores_pool :
  let db' := run_merge_cycle None 0 31 leftover_db in
  head (filter (is_funding_pool NAIRA) (map_to_list (admin_wallets leftover_db)))
  = Some (51%positive, AdminWallet.Build "funding_pool" NAIRA 100000000 0 0) ∧
  cycle_funding_requests leftover_db NAIRA (MergeCycle.cutoff_time pending_cycle_31)
  = [(21%positive, request_21_unmatched)] ∧
  MergeCycle.status <$> merge_cycles db' !! 31%positive = Some completed ∧
  MergeCycle.unmatched_funding <$> merge_cycles db' !! 31%positive = Some 1 ∧
  funding_requests db' !! 21%positive = Some request_21_unmatched ∧
  0 < FundingRequest.amount_remaining request_21_unmatched ∧
  funding_match_pairs db' = ∅ ∧
  admin_wallets db' = admin_wallets leftover_db ∧
  (match_with_admin_wallet [(21%positive, request_21_unmatched)] [] NAIRA leftover_db).1
  = [(21%positive, "admin"%string, 500000)].
Proof. split_and!; try (vm_compute; reflexivity). Qed.

(** C5 as stated fails.  On [matched_db] an upload after the proof deadline
    raises the remainder of the withdrawal request 22 from zero to
    5,000.00. *)
Lemma late_upload_raises_remaining :
  let db' := (upload_proof 41 ".png" (Some "proof-1"%string) 1 (5 * hour) matched_db).1 in
  WithdrawalRequest.amount_remaining <$> withdrawal_requests matched_db !! 22%positive
  = Some 0 ∧
  WithdrawalRequest.amount_remaining <$> withdrawal_requests db' !! 22%positive
  = Some 500000 ∧
  ¬ (500000 ≤ 0).
Proof. split_and!; try (vm_compute; reflexivity). lia. Qed.

(** C6 as stated fails.  On [matched_db] an upload after the proof deadline
    is rejected, and the database it leaves is another one: the funder's
    wallet is blocked, the pair is flagged and the withdrawal request is
    back in the queue. *)
Lemma late_upload_changes_state :
  let result := upload_proof 41 ".png" (Some "proof-1"%string) 1 (5 * hour) matched_db in
  result.2 = HTTPException ProofDeadlinePassed ∧
  result.1 ≠ matched_db ∧
  Wallet.is_blocked <$> wallets matched_db !! 11%positive = Some false ∧
  Wallet.is_blocked <$> wallets result.1 !! 11%positive = Some true ∧
  funding_match_pairs matched_db !! 41%positive = Some pair_41 ∧
  funding_match_pairs result.1 !! 41%positive
  = Some (FundingMatchPair.with_funder_missed_deadline true pair_41) ∧
  withdrawal_requests matched_db !! 22%positive = Some request_22 ∧
  withdrawal_requests result.1 !! 22%positive
  = Some (WithdrawalRequest.requeue 500000 request_22).
Proof.
  split_and!; try (vm_compute; reflexivity).
  intros H. apply (f_equal (λ db, Wallet.is_blocked <$> wallets db !! 11%positive)) in H.
  vm_compute in H. discriminate.
Qed.

(** C7 as stated fails.  On [partial_db] the cancellation of the fully
    matched request 23 is rejected with the message of a matched request,
    which carries no time to the merge.  And the request 21, matched for
    3,000.00 in the pair 41 and left with a remainder of 4,000.00, passes
    every check of the handler: it is deleted, the pair staying behind,
    unless the database enforces the foreign key of the pair, and then the
    answer is the internal error of the failed commit. *)
Lemma cancellation_counterexample :
  (∀ foreign_keys,
     (cancel_funding_request foreign_keys 23 3 0 partial_db).2
     = HTTPException RequestAlreadyMatched) ∧
  (∀ foreign_keys minutes,
     (cancel_funding_request foreign_keys 23 3 0 partial_db).2
     ≠ HTTPException (WithinCutoff minutes)) ∧
  FundingMatchPair.funding_request_id <$> funding_match_pairs partial_db !! 41%positive
  = Some 21%positive ∧
  FundingRequest.amount_remaining <$> funding_requests partial_db !! 21%positive
  = Some 400000 ∧
  (cancel_funding_request false 21 1 0 partial_db).2 = SuccessResponse 21%positive ∧
  funding_requests (cancel_funding_request false 21 1 0 partial_db).1 !! 21%positive = None ∧
  FundingMatchPair.funding_request_id
    <$> funding_match_pairs (cancel_funding_request false 21 1 0 partial_db).1 !! 41%positive
  = Some 21%positive ∧
  (cancel_funding_request true 21 1 0 partial_db).2 = HTTPException InternalServerError ∧
  (∀ minutes, (cancel_funding_request true 21 1 0 partial_db).2
              ≠ HTTPException (WithinCutoff minutes)).
Proof.
  assert (∀ foreign_keys,
            (cancel_funding_request foreign_keys 23 3 0 partial_db).2
            = HTTPException RequestAlreadyMatched) as Hmatched.
  { intros []; vm_compute; reflexivity. }
  assert ((cancel_funding_request true 21 1 0 partial_db).2
          = HTTPException InternalServerError) as Hrefused.
  { vm_compute; reflexivity. }
  split; [exact Hmatched|].
  split; [intros foreign_keys minutes; rewrite Hmatched; discriminate|].
  do 5 (split; [vm_compute; reflexivity|]).
  split; [exact Hrefused|].
  intros minutes. rewrite Hrefused. discriminate.
Qed.

(** * Further properties *)

(** ** The schedule of the merges *)

(** The wall clock of Lagos splits into the day and the time of the day. *)
Lemma wat_day_time now :
  get_current_wat_time now
  = combine (date_of (get_current_wat_time now)) (time_of (get_current_wat_time now)) ∧
  0 ≤ time_of (get_current_wat_time now) < timedelta_days 1.
Proof.
  unfold combine, date_of, time_of, timedelta_days.
  set (w := get_current_wat_time now).
  pose proof (Z.div_mod w (1 * 24 * 3600 * 1000000) ltac:(lia)).
  pose proof (Z.mod_pos_bound w (1 * 24 * 3600 * 1000000) ltac:(lia)).
  lia.
Qed.

Lemma merge_time_cases merge_time :
  merge_time ∈ MERGE_TIMES ↔
  merge_time = time_at 9 0 ∨ merge_time = time_at 15 0 ∨ merge_time = time_at 21 0.
Proof. unfold MERGE_TIMES. rewrite !elem_of_cons, elem_of_nil. tauto. Qed.

Lemma get_next_merge_time_next now :
  merge_instant (get_next_merge_time now).1 ∧
  now < (get_next_merge_time now).1 ≤ now + timedelta_hours 12 ∧
  (∀ m, merge_instant m → now < m → (get_next_merge_time now).1 ≤ m) ∧
  (get_next_merge_time now).2 = (get_next_merge_time now).1 + timedelta_minutes 5.
Proof.
  destruct (wat_day_time now) as [Hw Ht].
  unfold get_next_merge_time.
  set (today := date_of (get_current_wat_time now)) in *.
  set (t := time_of (get_current_wat_time now)) in *.
  assert (now = combine today t - WAT_utcoffset) as Hnow.
  { unfold get_current_wat_time in Hw. lia. }
  rewrite Hw. clearbody today t. clear Hw.
  assert (∀ m, merge_instant m ↔
               ∃ day, m = to_utc (combine day (time_at 9 0)) ∨
                      m = to_utc (combine day (time_at 15 0)) ∨
                      m = to_utc (combine day (time_at 21 0))) as Hmi.
  { intros m. unfold merge_instant. split.
    - intros (day & mt & Hmt%merge_time_cases & ->). exists day.
      destruct Hmt as [->|[->| ->]]; auto.
    - intros (day & [->|[->| ->]]); exists day; eexists; (split; [|done]);
        apply merge_time_cases; auto. }
  change (MERGE_TIMES !!! 0%nat) with (time_at 9 0).
  unfold MERGE_TIMES.
  rewrite !filter_cons, filter_nil.
  unfold combine, to_utc, time_at, WAT_utcoffset, JOIN_WINDOW_MINUTES, timedelta_days,
    timedelta_hours, timedelta_minutes in *.
  repeat case_decide; cbn [head fst snd]; (split; [apply Hmi|split; [lia|split; [|lia]]]).
  all: try (intros m (day & Hm)%Hmi Hlt; lia).
  all: try (exists today; lia).
  all: try (exists (today + 1); simpl; lia).
Qed.

(** X1.  [get_next_merge_time] returns the first merge instant (9:00, 15:00
    or 21:00 of Lagos) strictly after the instant the clock reads: it is a
    merge instant, later than now and at most twelve hours away, no merge
    instant lies between now and it, and the join window it returns closes
    five minutes after it. *)
Theorem get_next_merge_time_is_next now :
  merge_instant (get_next_merge_time now).1 ∧
  now < (get_next_merge_time now).1 ≤ now + timedelta_hours 12 ∧
  (∀ m, merge_instant m → now < m → (get_next_merge_time now).1 ≤ m) ∧
  (get_next_merge_time now).2 = (get_next_merge_time now).1 + timedelta_minutes 5.
Proof. apply get_next_merge_time_next. Qed.

Lemma combine_date_time day time :
  0 ≤ time < timedelta_days 1 →
  date_of (combine day time) = day ∧ time_of (combine day time) = time.
Proof.
  unfold date_of, time_of, combine, timedelta_days. intros Ht.
  assert (day * 24 * 3600 * 1000000 + time = time + day * (1 * 24 * 3600 * 1000000)) as ->
    by lia.
  rewrite Z.div_add, Z.mod_add by lia.
  rewrite Z.div_small, Z.mod_small by lia. lia.
Qed.

(** A window that opens at a merge time, on the wall clock of an instant. *)
Lemma merge_window_instant now merge_time length :
  merge_time ∈ MERGE_TIMES → 0 ≤ length ≤ timedelta_hours 1 →
  merge_time ≤ time_of (get_current_wat_time now) < merge_time + length ↔
  ∃ day, to_utc (combine day merge_time) ≤ now < to_utc (combine day merge_time) + length.
Proof.
  intros Hmt%merge_time_cases Hlen.
  destruct (wat_day_time now) as [Hw Ht].
  set (today := date_of (get_current_wat_time now)) in *.
  set (t := time_of (get_current_wat_time now)) in *.
  assert (now = combine today t - WAT_utcoffset) as Hnow.
  { unfold get_current_wat_time in Hw. lia. }
  clearbody today t. clear Hw. subst now.
  unfold to_utc, combine, time_at, WAT_utcoffset, timedelta_days, timedelta_hours,
    timedelta_minutes in *.
  split.
  - intros H. exists today. lia.
  - intros (day & H). destruct Hmt as [->|[->| ->]]; lia.
Qed.

Lemma in_join_window_instant now merge_time :
  merge_time ∈ MERGE_TIMES →
  in_join_window (date_of (get_current_wat_time now)) (time_of (get_current_wat_time now))
    merge_time ↔
  ∃ day, to_utc (combine day merge_time) ≤ now
         < to_utc (combine day merge_time) + timedelta_minutes 5.
Proof.
  intros Hmt. rewrite <- merge_window_instant by (done || (unfold timedelta_hours, timedelta_minutes; lia)).
  unfold in_join_window.
  replace (combine (date_of (get_current_wat_time now)) merge_time
           + timedelta_minutes JOIN_WINDOW_MINUTES)
    with (combine (date_of (get_current_wat_time now)) (merge_time + timedelta_minutes 5))
    by (unfold combine, JOIN_WINDOW_MINUTES; lia).
  assert (time_of (combine (date_of (get_current_wat_time now))
                     (merge_time + timedelta_minutes 5))
          = merge_time + timedelta_minutes 5) as ->; [|done].
  apply combine_date_time. apply merge_time_cases in Hmt.
  unfold time_at, timedelta_days, timedelta_hours, timedelta_minutes in *.
  destruct Hmt as [->|[->| ->]]; lia.
Qed.

Lemma is_within_join_window_iff now :
  is_within_join_window now = true ↔
  ∃ m, merge_instant m ∧ m ≤ now < m + timedelta_minutes 5.
Proof.
  unfold is_within_join_window. rewrite bool_decide_eq_true, Exists_exists.
  split.
  - intros (mt & Hmt & Hin). apply in_join_window_instant in Hin as (day & Hin); [|done].
    exists (to_utc (combine day mt)). split; [by exists day, mt|done].
  - intros (m & (day & mt & Hmt & ->) & Hin). exists mt. split; [done|].
    apply in_join_window_instant; [done|]. by exists day.
Qed.

(** X2.  [is_within_join_window] answers [True] exactly from a merge instant
    on, included, until five minutes after it, excluded. *)
Theorem is_within_join_window_spec now :
  is_within_join_window now = true ↔
  ∃ m, merge_instant m ∧ m ≤ now < m + timedelta_minutes 5.
Proof. apply is_within_join_window_iff. Qed.

(** The hour and the minute of a time of the day. *)
Lemma time_hour_minute t h :
  0 ≤ h < 24 → 0 ≤ t →
  time_hour t = h ∧ 0 ≤ time_minute t < 0 + 1 ↔ time_at h 0 ≤ t < time_at h 0 + timedelta_minutes 1.
Proof.
  intros Hh Ht. unfold time_hour, time_minute, time_at, timedelta_hours, timedelta_minutes.
  Z.div_mod_to_equations. lia.
Qed.

(** X3.  [is_merge_time_now] answers [True] exactly from a merge instant on,
    included, until one minute after it, excluded. *)
Theorem is_merge_time_now_spec now :
  is_merge_time_now now = true ↔
  ∃ m, merge_instant m ∧ m ≤ now < m + timedelta_minutes 1.
Proof.
  unfold is_merge_time_now. rewrite bool_decide_eq_true, Exists_exists.
  destruct (wat_day_time now) as [_ Ht].
  assert (∀ mt, mt ∈ MERGE_TIMES →
            (time_hour (time_of (get_current_wat_time now)) = time_hour mt ∧
             time_minute mt ≤ time_minute (time_of (get_current_wat_time now))
             < time_minute mt + 1) ↔
            ∃ day, to_utc (combine day mt) ≤ now
                   < to_utc (combine day mt) + timedelta_minutes 1) as Hmt.
  { intros mt Hmt.
    rewrite <- merge_window_instant
      by (done || (unfold timedelta_hours, timedelta_minutes; lia)).
    apply merge_time_cases in Hmt as [->|[->| ->]].
    - change (time_hour (time_at 9 0)) with 9. change (time_minute (time_at 9 0)) with 0.
      apply time_hour_minute; lia.
    - change (time_hour (time_at 15 0)) with 15. change (time_minute (time_at 15 0)) with 0.
      apply time_hour_minute; lia.
    - change (time_hour (time_at 21 0)) with 21. change (time_minute (time_at 21 0)) with 0.
      apply time_hour_minute; lia. }
  split.
  - intros (mt & Hin & H). apply Hmt in H as (day & H); [|done].
    exists (to_utc (combine day mt)). split; [by exists day, mt|done].
  - intros (m & (day & mt & Hin & ->) & H). exists mt. split; [done|].
    apply Hmt; [done|]. by exists day.
Qed.

Lemma merge_window_info_of_instant system_utcoffset now :
  match get_current_merge_window_info system_utcoffset now with
  | None => is_within_join_window now = false
  | Some info =>
      ∃ m, merge_instant m ∧ m ≤ now < m + timedelta_minutes 5 ∧
           seconds_remaining info = (m + timedelta_minutes 5 - now) `quot` timedelta_seconds 1 ∧
           0 ≤ seconds_remaining info ≤ 300 ∧
           merge_time_utc info = m + (WAT_utcoffset - system_utcoffset) ∧
           window_closes_utc info = merge_time_utc info + timedelta_minutes 5 ∧
           merge_time_wat info ∈ ["09:00 AM WAT"; "03:00 PM WAT"; "09:00 PM WAT"]%string
  end.
Proof.
  unfold get_current_merge_window_info.
  destruct (is_within_join_window now) eqn:Hin; [|done]. cbn [negb].
  unfold is_within_join_window in Hin. apply bool_decide_eq_true in Hin.
  apply Exists_exists in Hin as (mt0 & Hmt0 & Hin0).
  destruct (head (filter _ MERGE_TIMES)) as [mt|] eqn:Hhead.
  2:{ apply head_None in Hhead. by destruct (filter_nil_not_elem_of _ _ mt0 Hhead Hin0). }
  clear mt0 Hmt0 Hin0.
  apply head_Some_elem_of, list_elem_of_filter in Hhead as [Hin Hmt].
  destruct (wat_day_time now) as [Hw Ht].
  set (today := date_of (get_current_wat_time now)) in *.
  set (t := time_of (get_current_wat_time now)) in *.
  assert (now = combine today t - WAT_utcoffset) as Hnow.
  { unfold get_current_wat_time in Hw. lia. }
  clearbody today t. clear Hw.
  exists (to_utc (combine today mt)). cbn [seconds_remaining merge_time_utc window_closes_utc
                                            merge_time_wat].
  assert (0 ≤ mt ∧ mt + timedelta_minutes 5 < timedelta_days 1) as Hbound.
  { apply merge_time_cases in Hmt.
    destruct Hmt as [->|[->| ->]];
      unfold time_at, timedelta_days, timedelta_hours, timedelta_minutes; lia. }
  unfold in_join_window in Hin.
  replace (combine today mt + timedelta_minutes JOIN_WINDOW_MINUTES)
    with (combine today (mt + timedelta_minutes 5)) in *
    by (unfold combine, JOIN_WINDOW_MINUTES; lia).
  rewrite (proj2 (combine_date_time today (mt + timedelta_minutes 5)
                    ltac:(unfold timedelta_minutes in *; lia))) in Hin.
  split; [by exists today, mt|].
  split; [unfold to_utc, combine in *; lia|].
  split; [f_equal; unfold to_utc, combine in *; lia|].
  split.
  { assert (0 ≤ combine today (mt + timedelta_minutes 5) - combine today t
            ≤ timedelta_seconds 300) as Hr.
    { unfold combine, timedelta_seconds, timedelta_minutes in *. lia. }
    revert Hr. generalize (combine today (mt + timedelta_minutes 5) - combine today t).
    intros r Hr. unfold timedelta_seconds in *.
    Z.quot_rem_to_equations. lia. }
  split; [unfold to_utc; lia|].
  split; [unfold combine; lia|].
  rewrite (proj2 (combine_date_time today mt ltac:(unfold timedelta_minutes in *; lia))).
  apply merge_time_cases in Hmt as [->|[->| ->]]; vm_compute; repeat constructor.
Qed.

(** X4.  [get_current_merge_window_info] returns [None] exactly outside of
    the join windows.  Inside the window of the merge instant [m] it returns
    the whole seconds left until [m] plus five minutes, between 0 and 300,
    one of the three merge times of Lagos as text, and as [merge_time_utc]
    the instant [m] moved by the difference between the offset of Lagos and
    the offset of the zone of the host, which is [m] itself only on a host
    whose zone is one hour ahead of UTC; [window_closes_utc] is five minutes
    after [merge_time_utc]. *)
Theorem get_current_merge_window_info_spec system_utcoffset now :
  match get_current_merge_window_info system_utcoffset now with
  | None => is_within_join_window now = false
  | Some info =>
      ∃ m, merge_instant m ∧ m ≤ now < m + timedelta_minutes 5 ∧
           seconds_remaining info = (m + timedelta_minutes 5 - now) `quot` timedelta_seconds 1 ∧
           0 ≤ seconds_remaining info ≤ 300 ∧
           merge_time_utc info = m + (WAT_utcoffset - system_utcoffset) ∧
           window_closes_utc info = merge_time_utc info + timedelta_minutes 5 ∧
           merge_time_wat info ∈ ["09:00 AM WAT"; "03:00 PM WAT"; "09:00 PM WAT"]%string
  end.
Proof. apply merge_window_info_of_instant. Qed.

(** ** The creation of the merge cycles *)

Lemma create_daily_merge_cycles_slots now s :
  create_daily_merge_cycles now s
  = foldl (create_cycle (merge_cycles s.1) now) s
      (merge_slots (date_of (get_current_wat_time now))).
Proof.
  unfold create_daily_merge_cycles, merge_slots.
  generalize (date_of (get_current_wat_time now)). intros today.
  generalize (create_cycle (merge_cycles s.1) now). intros f.
  change (seqZ 0 7) with [0; 1; 2; 3; 4; 5; 6].
  cbn [foldl mbind list_bind app]. reflexivity.
Qed.

(** What the query of [create_cycle] says of the committed table. *)
Lemma existing_cycle committed t :
  match head (filter (scheduled_at t) (map_to_list committed)) with
  | Some existing =>
      committed !! existing.1 = Some existing.2 ∧ MergeCycle.scheduled_time existing.2 = t
  | None => ∀ k c, committed !! k = Some c → MergeCycle.scheduled_time c ≠ t
  end.
Proof.
  destruct (head _) as [[k c]|] eqn:Hh.
  - apply head_Some_elem_of, list_elem_of_filter in Hh as [Hs Hin].
    by apply elem_of_map_to_list in Hin.
  - apply head_None in Hh. intros k c Hc Ht.
    by apply (filter_nil_not_elem_of _ _ (k, c) Hh Ht), elem_of_map_to_list.
Qed.

Lemma create_cycles_spec committed now s0 slots :
  (∀ k c, committed !! k = Some c → merge_cycles s0.1 !! k = Some c) →
  (∀ k c, merge_cycles s0.1 !! k = Some c → committed !! k = Some c) →
  cycles_below_counter s0.1 → NoDup slots →
  let s := foldl (create_cycle committed now) s0 slots in
  cycles_below_counter s.1 ∧
  (∀ k c, committed !! k = Some c → merge_cycles s.1 !! k = Some c) ∧
  (∀ k c, merge_cycles s.1 !! k = Some c → committed !! k = None →
     ∃ t, t ∈ slots ∧ now ≤ t ∧
          (∀ k0 c0, committed !! k0 = Some c0 → MergeCycle.scheduled_time c0 ≠ t) ∧
          created_cycle now t c (s.2 !! k)) ∧
  (∀ t, t ∈ slots → now ≤ t →
     ∃ k c, merge_cycles s.1 !! k = Some c ∧ MergeCycle.scheduled_time c = t) ∧
  (∀ k1 k2 c1 c2,
     merge_cycles s.1 !! k1 = Some c1 → merge_cycles s.1 !! k2 = Some c2 →
     committed !! k1 = None → committed !! k2 = None →
     MergeCycle.scheduled_time c1 = MergeCycle.scheduled_time c2 → k1 = k2) ∧
  (wallets s.1 = wallets s0.1 ∧ funding_requests s.1 = funding_requests s0.1 ∧
   withdrawal_requests s.1 = withdrawal_requests s0.1 ∧
   funding_match_pairs s.1 = funding_match_pairs s0.1 ∧
   admin_wallets s.1 = admin_wallets s0.1 ∧ wallet_logs s.1 = wallet_logs s0.1).
Proof.
  intros Hsub Hsup Hfresh0 Hnd.
  induction slots as [|t slots IH] using rev_ind; simpl.
  - split; [done|]. split; [done|]. split.
    { intros k c Hc Hn. apply Hsup in Hc. congruence. }
    split; [intros t Ht; by apply elem_of_nil in Ht|]. split; [|done].
    intros k1 k2 c1 c2 Hc1 _ Hn1. apply Hsup in Hc1. congruence.
  - apply NoDup_app in Hnd as (Hnd & Hnotin & _).
    destruct (IH Hnd) as (Hfresh & Hold & Hnew & Hcov & Huniq & Hframe). clear IH.
    rewrite foldl_snoc.
    set (s := foldl (create_cycle committed now) s0 slots) in *. clearbody s.
    assert (∀ t', t' ∈ slots ++ [t] ↔ t' ∈ slots ∨ t' = t) as Hin.
    { intros t'. rewrite elem_of_app, list_elem_of_singleton. tauto. }
    unfold create_cycle. case_bool_decide as Hpast.
    { split; [done|]. split; [done|]. split; [|split; [|done]].
      - intros k c Hc Hn. destruct (Hnew k c Hc Hn) as (t' & Ht' & H).
        exists t'. split; [|done]. apply Hin. by left.
      - intros t' [Ht'| ->]%Hin Hle; [by apply Hcov|lia]. }
    pose proof (existing_cycle committed t) as Hex.
    destruct (head _) as [existing|].
    { split; [done|]. split; [done|]. split; [|split; [|done]].
      - intros k c Hc Hn. destruct (Hnew k c Hc Hn) as (t' & Ht' & H).
        exists t'. split; [|done]. apply Hin. by left.
      - intros t' [Ht'| ->]%Hin Hle; [by apply Hcov|].
        destruct Hex as [Hc Ht]. exists existing.1, existing.2. split; [|done].
        by apply Hold. }
    set (id := next_uuid s.1).
    set (cycle := MergeCycle.Build t (t - timedelta_minutes 10) pending 0 0 0 0 0 None None).
    set (window := MergeCycleWindow.Build (Some (t + timedelta_minutes 5)) now).
    set (s' := (let '(id, db) := uuid4 s.1 in _)).
    assert (merge_cycles s'.1 = <[id := cycle]> (merge_cycles s.1)) as Hcycles by done.
    assert (next_uuid s'.1 = Pos.succ id) as Hnext by done.
    assert (s'.2 = <[id := window]> s.2) as Hwindows by done.
    assert (wallets s'.1 = wallets s.1 ∧ funding_requests s'.1 = funding_requests s.1 ∧
            withdrawal_requests s'.1 = withdrawal_requests s.1 ∧
            funding_match_pairs s'.1 = funding_match_pairs s.1 ∧
            admin_wallets s'.1 = admin_wallets s.1 ∧ wallet_logs s'.1 = wallet_logs s.1)
      as Hframe' by done.
    clearbody s'. unfold cycles_below_counter in *.
    rewrite Hcycles, Hnext, Hwindows.
    assert (merge_cycles s.1 !! id = None) as Hid.
    { destruct (merge_cycles s.1 !! id) eqn:Hc; [|done].
      specialize (Hfresh id ltac:(eauto)). unfold id in Hfresh. lia. }
    assert (∀ k c, merge_cycles s.1 !! k = Some c → committed !! k = None →
              MergeCycle.scheduled_time c ≠ t) as Hnot.
    { intros k c Hc Hn Ht. destruct (Hnew k c Hc Hn) as (t' & Ht' & _ & _ & [-> _]).
      simpl in Ht. subst t'. apply (Hnotin t Ht'). by left. }
    split; [|split; [|split; [|split; [|split]]]].
    + intros k [c Hc]. destruct (decide (id = k)) as [<-|Hne]; [lia|].
      rewrite lookup_insert_ne in Hc by done.
      specialize (Hfresh k ltac:(eauto)). unfold id in *. lia.
    + intros k c Hc. destruct (decide (id = k)) as [<-|Hne].
      * apply Hold in Hc. congruence.
      * rewrite lookup_insert_ne by done. by apply Hold.
    + intros k c Hc Hn. destruct (decide (id = k)) as [<-|Hne].
      * rewrite lookup_insert_eq in Hc. simplify_eq.
        exists t. split; [apply Hin; by right|]. split; [lia|]. split; [done|].
        split; [done|]. by rewrite lookup_insert_eq.
      * rewrite lookup_insert_ne in Hc by done.
        destruct (Hnew k c Hc Hn) as (t' & Ht' & Hle & Hno & Hc' & Hw).
        exists t'. split; [apply Hin; by left|]. split; [done|]. split; [done|].
        split; [done|]. by rewrite lookup_insert_ne.
    + intros t' [Ht'| ->]%Hin Hle.
      * destruct (Hcov t' Ht' Hle) as (k & c & Hc & Ht). exists k, c. split; [|done].
        rewrite lookup_insert_ne; [done|]. intros <-. congruence.
      * exists id, cycle. by rewrite lookup_insert_eq.
    + intros k1 k2 c1 c2 Hc1 Hc2 Hn1 Hn2 Ht.
      destruct (decide (id = k1)) as [<-|Hne1]; destruct (decide (id = k2)) as [<-|Hne2];
        [done|..].
      * rewrite lookup_insert_eq in Hc1. rewrite lookup_insert_ne in Hc2 by done.
        simplify_eq. by destruct (Hnot k2 c2 Hc2 Hn2).
      * rewrite lookup_insert_eq in Hc2. rewrite lookup_insert_ne in Hc1 by done.
        simplify_eq. by destruct (Hnot k1 c1 Hc1 Hn1).
      * rewrite lookup_insert_ne in Hc1, Hc2 by done. by eapply Huniq.
    + destruct Hframe as (<- & <- & <- & <- & <- & <-). exact Hframe'.
Qed.

Lemma merge_slots_elem today t :
  t ∈ merge_slots today ↔
  ∃ day_offset hour, 0 ≤ day_offset < 7 ∧ hour ∈ [9; 15; 21] ∧
                     t = to_utc (combine (today + day_offset) (time_at hour 0)).
Proof.
  unfold merge_slots. rewrite list_elem_of_bind. split.
  - intros (d & (h & ->%list_elem_of_singleton & Hh)%list_elem_of_bind & Hd%elem_of_seqZ).
    exists d, h. split; [lia|done].
  - intros (d & h & Hd & Hh & ->). exists d. split; [|apply elem_of_seqZ; lia].
    apply list_elem_of_bind. exists h. split; [by apply list_elem_of_singleton|done].
Qed.

Lemma merge_slots_NoDup today : NoDup (merge_slots today).
Proof.
  assert (∀ h : Z, h ∈ [9; 15; 21] ↔ h = 9 ∨ h = 15 ∨ h = 21) as Hh.
  { intros h. rewrite !elem_of_cons, elem_of_nil. tauto. }
  unfold merge_slots. apply NoDup_bind; [| |apply NoDup_seqZ].
  - intros d1 d2 t Hd1%elem_of_seqZ Hd2%elem_of_seqZ.
    intros (h1 & ->%list_elem_of_singleton & Hh1%Hh)%list_elem_of_bind.
    intros (h2 & Ht%list_elem_of_singleton & Hh2%Hh)%list_elem_of_bind.
    unfold to_utc, combine, time_at, timedelta_days, timedelta_hours, timedelta_minutes in Ht.
    destruct Hh1 as [->|[->| ->]], Hh2 as [->|[->| ->]]; lia.
  - intros d _. apply NoDup_bind; [| |].
    + intros h1 h2 t _ _ ->%list_elem_of_singleton Ht%list_elem_of_singleton.
      unfold to_utc, combine, time_at, timedelta_days, timedelta_hours, timedelta_minutes in Ht.
      lia.
    + intros h _. apply NoDup_singleton.
    + repeat (apply NoDup_cons; split; [rewrite ?elem_of_cons, elem_of_nil; lia|]).
      apply NoDup_nil_2.
Qed.

Lemma merge_slots_instant today t :
  t ∈ merge_slots today →
  merge_instant t ∧
  to_utc (combine today (time_at 9 0)) ≤ t ≤ to_utc (combine (today + 6) (time_at 21 0)).
Proof.
  intros (d & h & Hd & Hh & ->)%merge_slots_elem.
  rewrite !elem_of_cons, elem_of_nil in Hh. split.
  - exists (today + d), (time_at h 0). split; [|done].
    apply merge_time_cases. destruct Hh as [->|[->|[->|[]]]]; auto.
  - unfold to_utc, combine, time_at, timedelta_days, timedelta_hours, timedelta_minutes.
    destruct Hh as [->|[->|[->|[]]]]; lia.
Qed.

Lemma merge_instant_slot now m :
  merge_instant m → now ≤ m < now + timedelta_days 6 →
  m ∈ merge_slots (date_of (get_current_wat_time now)).
Proof.
  intros (d & mt & Hmt%merge_time_cases & ->) Hm.
  destruct (wat_day_time now) as [Hw Ht].
  set (today := date_of (get_current_wat_time now)) in *.
  set (t := time_of (get_current_wat_time now)) in *.
  assert (now = combine today t - WAT_utcoffset) as Hnow.
  { unfold get_current_wat_time in Hw. lia. }
  clearbody today t. clear Hw. subst now.
  apply merge_slots_elem. exists (d - today).
  unfold to_utc, combine, time_at, WAT_utcoffset, timedelta_days, timedelta_hours,
    timedelta_minutes in *.
  destruct Hmt as [->|[->| ->]];
    [exists 9|exists 15|exists 21];
    (split; [lia|]); (split; [rewrite !elem_of_cons; auto|f_equal; lia]).
Qed.

Lemma create_daily_merge_cycles_spec now db windows :
  cycles_below_counter db →
  let s := create_daily_merge_cycles now (db, windows) in
  let slots := merge_slots (date_of (get_current_wat_time now)) in
  cycles_below_counter s.1 ∧
  (∀ k c, merge_cycles db !! k = Some c → merge_cycles s.1 !! k = Some c) ∧
  (∀ k c, merge_cycles s.1 !! k = Some c → merge_cycles db !! k = None →
     ∃ t, t ∈ slots ∧ now ≤ t ∧
          (∀ k0 c0, merge_cycles db !! k0 = Some c0 → MergeCycle.scheduled_time c0 ≠ t) ∧
          created_cycle now t c (s.2 !! k)) ∧
  (∀ t, t ∈ slots → now ≤ t →
     ∃ k c, merge_cycles s.1 !! k = Some c ∧ MergeCycle.scheduled_time c = t) ∧
  (∀ k1 k2 c1 c2,
     merge_cycles s.1 !! k1 = Some c1 → merge_cycles s.1 !! k2 = Some c2 →
     merge_cycles db !! k1 = None → merge_cycles db !! k2 = None →
     MergeCycle.scheduled_time c1 = MergeCycle.scheduled_time c2 → k1 = k2) ∧
  (wallets s.1 = wallets db ∧ funding_requests s.1 = funding_requests db ∧
   withdrawal_requests s.1 = withdrawal_requests db ∧
   funding_match_pairs s.1 = funding_match_pairs db ∧
   admin_wallets s.1 = admin_wallets db ∧ wallet_logs s.1 = wallet_logs db).
Proof.
  intros Hfresh. cbv zeta. rewrite create_daily_merge_cycles_slots.
  apply (create_cycles_spec (merge_cycles db) now (db, windows)); try done.
  apply merge_slots_NoDup.
Qed.

(** X5.  [create_daily_merge_cycles] keeps every merge cycle there is and
    touches no other table.  Every cycle it adds is pending, with counters
    at zero, scheduled at a merge instant between now, included, and seven
    days from now at which no cycle was scheduled before, with its cutoff
    ten minutes before the merge and its join window closing five minutes
    after it. *)
Theorem create_daily_merge_cycles_rows now db windows :
  cycles_below_counter db →
  let s := create_daily_merge_cycles now (db, windows) in
  (∀ k c, merge_cycles db !! k = Some c → merge_cycles s.1 !! k = Some c) ∧
  (∀ k c, merge_cycles s.1 !! k = Some c → merge_cycles db !! k = None →
     ∃ t, merge_instant t ∧ now ≤ t < now + timedelta_days 7 ∧
          (∀ k0 c0, merge_cycles db !! k0 = Some c0 → MergeCycle.scheduled_time c0 ≠ t) ∧
          c = MergeCycle.Build t (t - timedelta_minutes 10) pending 0 0 0 0 0 None None ∧
          s.2 !! k = Some (MergeCycleWindow.Build (Some (t + timedelta_minutes 5)) now)) ∧
  wallets s.1 = wallets db ∧ funding_requests s.1 = funding_requests db ∧
  withdrawal_requests s.1 = withdrawal_requests db ∧
  funding_match_pairs s.1 = funding_match_pairs db ∧
  admin_wallets s.1 = admin_wallets db ∧ wallet_logs s.1 = wallet_logs db.
Proof.
  intros Hfresh.
  destruct (create_daily_merge_cycles_spec now db windows Hfresh)
    as (_ & Hold & Hnew & _ & _ & Hframe).
  cbv zeta. split; [done|]. split; [|done].
  intros k c Hc Hn. destruct (Hnew k c Hc Hn) as (t & Ht & Hle & Hno & [-> Hw]).
  exists t. apply merge_slots_instant in Ht as [Hmi Hrange].
  split; [done|]. split; [|done].
  destruct (wat_day_time now) as [Hw' Ht'].
  set (today := date_of (get_current_wat_time now)) in *.
  set (tod := time_of (get_current_wat_time now)) in *. clearbody today tod.
  unfold get_current_wat_time, to_utc, combine, time_at, WAT_utcoffset, timedelta_days,
    timedelta_hours, timedelta_minutes in *. lia.
Qed.

(** X6.  After [create_daily_merge_cycles] every merge instant between now,
    included, and six days from now has a merge cycle scheduled at it; and
    if no two cycles were scheduled at the same time before, no two are
    after. *)
Theorem create_daily_merge_cycles_covers now db windows :
  cycles_below_counter db →
  let s := create_daily_merge_cycles now (db, windows) in
  (∀ m, merge_instant m → now ≤ m < now + timedelta_days 6 →
        ∃ k c, merge_cycles s.1 !! k = Some c ∧ MergeCycle.scheduled_time c = m) ∧
  (scheduled_once (merge_cycles db) → scheduled_once (merge_cycles s.1)).
Proof.
  intros Hfresh.
  destruct (create_daily_merge_cycles_spec now db windows Hfresh)
    as (_ & Hold & Hnew & Hcov & Huniq & _).
  cbv zeta. split.
  - intros m Hm Hrange. apply Hcov; [|lia]. by apply merge_instant_slot.
  - intros Hdb k1 k2 c1 c2 Hc1 Hc2 Ht.
    destruct (merge_cycles db !! k1) as [c1'|] eqn:H1;
      destruct (merge_cycles db !! k2) as [c2'|] eqn:H2.
    + pose proof (Hold _ _ H1). pose proof (Hold _ _ H2). simplify_eq.
      by apply (Hdb k1 k2 c1 c2).
    + pose proof (Hold _ _ H1). simplify_eq.
      destruct (Hnew k2 c2 Hc2 H2) as (t & _ & _ & Hno & [-> _]).
      by destruct (Hno k1 c1 H1).
    + pose proof (Hold _ _ H2). simplify_eq.
      destruct (Hnew k1 c1 Hc1 H1) as (t & _ & _ & Hno & [-> _]).
      by destruct (Hno k2 c2 H2).
    + by apply (Huniq k1 k2 c1 c2).
Qed.

(** A merge time for which the committed table has a cycle is passed over. *)
Lemma create_cycles_skip committed now s slots :
  (∀ t, t ∈ slots → now ≤ t →
        ∃ k c, committed !! k = Some c ∧ MergeCycle.scheduled_time c = t) →
  foldl (create_cycle committed now) s slots = s.
Proof.
  induction slots as [|t slots IH]; intros Hcov; [done|]. simpl.
  assert (create_cycle committed now s t = s) as ->.
  { unfold create_cycle. case_bool_decide as Hpast; [done|].
    pose proof (existing_cycle committed t) as Hex.
    destruct (head _); [done|].
    destruct (Hcov t ltac:(left) ltac:(lia)) as (k & c & Hc & Ht).
    by destruct (Hex k c Hc). }
  apply IH. intros t' Ht'. apply Hcov. by right.
Qed.

(** X7.  A second run of [create_daily_merge_cycles], later on the same day
    of Lagos, adds nothing: it leaves the tables as the first run left
    them. *)
Theorem create_daily_merge_cycles_again now now' db windows :
  cycles_below_counter db →
  date_of (get_current_wat_time now') = date_of (get_current_wat_time now) → now ≤ now' →
  create_daily_merge_cycles now' (create_daily_merge_cycles now (db, windows))
  = create_daily_merge_cycles now (db, windows).
Proof.
  intros Hfresh Hday Hle.
  destruct (create_daily_merge_cycles_spec now db windows Hfresh)
    as (_ & _ & _ & Hcov & _).
  rewrite (create_daily_merge_cycles_slots now'). rewrite Hday.
  apply create_cycles_skip. intros t Ht Hnow. apply Hcov; [done|lia].
Qed.

(** X8.  Once [create_daily_merge_cycles] has run at the instant [now], on a
    table whose cycles scheduled after [now] are pending cycles of merge
    instants with their cutoff ten minutes before, the database and the
    clock agree: the cycle [get_next_merge_cycle] finds is scheduled at the
    instant [get_next_merge_time] computes, and a cancellation passes the
    check of the cutoff exactly when that instant is more than ten minutes
    away. *)
Theorem next_cycle_is_next_merge_time now db windows :
  cycles_below_counter db →
  (∀ k c, merge_cycles db !! k = Some c → now < MergeCycle.scheduled_time c →
          MergeCycle.status c = pending ∧ merge_instant (MergeCycle.scheduled_time c) ∧
          MergeCycle.cutoff_time c = MergeCycle.scheduled_time c - timedelta_minutes 10) →
  let db' := (create_daily_merge_cycles now (db, windows)).1 in
  (∃ next, get_next_merge_cycle now db' = Some next ∧
           MergeCycle.scheduled_time next.2 = (get_next_merge_time now).1) ∧
  (cutoff_check now db' = None ↔ now < (get_next_merge_time now).1 - timedelta_minutes 10).
Proof.
  intros Hfresh Hdb. cbv zeta.
  destruct (create_daily_merge_cycles_spec now db windows Hfresh)
    as (_ & Hold & Hnew & Hcov & _).
  destruct (get_next_merge_time_next now) as (Hmi & Hrange & Hmin & _).
  set (T := (get_next_merge_time now).1) in *.
  set (db' := (create_daily_merge_cycles now (db, windows)).1) in *.
  assert (∀ k c, merge_cycles db' !! k = Some c → now < MergeCycle.scheduled_time c →
            MergeCycle.status c = pending ∧ merge_instant (MergeCycle.scheduled_time c) ∧
            MergeCycle.cutoff_time c = MergeCycle.scheduled_time c - timedelta_minutes 10)
    as Hall.
  { intros k c Hc Hlt. destruct (merge_cycles db !! k) as [c0|] eqn:Hk.
    - pose proof (Hold _ _ Hk). unfold db' in *. simplify_eq. by apply (Hdb k).
    - destruct (Hnew k c Hc Hk) as (t & Ht%merge_slots_instant & _ & _ & [-> _]).
      simpl. by destruct Ht. }
  assert (∃ k c, merge_cycles db' !! k = Some c ∧ MergeCycle.scheduled_time c = T)
    as (kT & cT & HcT & HT).
  { apply Hcov; [|lia]. apply merge_instant_slot; [done|].
    unfold timedelta_days, timedelta_hours in *. lia. }
  pose proof (get_next_merge_cycle_spec now db') as Hspec.
  assert (∃ next, get_next_merge_cycle now db' = Some next ∧
                  MergeCycle.scheduled_time next.2 = T ∧
                  MergeCycle.cutoff_time next.2 = T - timedelta_minutes 10)
    as (next & Hnext & Hs & Hcut).
  { destruct (get_next_merge_cycle now db') as [next|].
    - exists next. split; [done|]. destruct Hspec as (Hc & Hlt & Hp & Hleast).
      destruct (Hall _ _ Hc Hlt) as (_ & Hmi' & Hcut').
      assert (MergeCycle.scheduled_time next.2 = T) as Heq; [|by rewrite Hcut', Heq].
      pose proof (Hmin _ Hmi' Hlt).
      pose proof (Hleast kT cT HcT ltac:(lia) (proj1 (Hall kT cT HcT ltac:(lia)))). lia.
    - destruct (Hspec kT cT HcT). split; [lia|]. apply (Hall kT cT HcT). lia. }
  split; [by exists next|].
  rewrite cutoff_check_None, Hnext. split.
  - intros [|(c & [= <-] & Hlt)]; [done|lia].
  - intros Hlt. right. exists next. split; [done|lia].
Qed.

(** ** The execution of the scheduled cycles *)

(** [run_merge_cycle] leaves no cycle it is called for pending, and takes
    none back to pending. *)
Lemma run_merge_cycle_not_pending failure now id db k :
  k = id ∨ statuses db !! k ≠ Some pending →
  statuses (run_merge_cycle failure now id db) !! k ≠ Some pending.
Proof.
  intros Hk.
  destruct (run_merge_cycle_statuses failure now id db) as [Hsame|(Hp & s & Hs & ->)].
  - rewrite Hsame. destruct Hk as [->|Hk]; [|done].
    intros Hp. revert Hsame. unfold run_merge_cycle.
    unfold statuses in Hp. rewrite lookup_fmap in Hp.
    destruct (merge_cycles db !! id) as [cycle|] eqn:Hc; [|done]. simpl in Hp.
    rewrite bool_decide_eq_false_2 by (intros ?; congruence).
    set (db1 := set_merge_cycles _ db).
    pose proof (process_currencies_statuses failure id (MergeCycle.cutoff_time cycle) now
                  [NAIRA; USDT] db1) as Hst.
    assert (statuses db1 !! id = Some processing) as H1.
    { unfold db1. rewrite (statuses_alter_set processing) by done.
      rewrite lookup_alter_eq. unfold statuses. by rewrite lookup_fmap, Hc. }
    intros Hsame.
    assert (statuses db !! id = Some pending) as Hp' by (unfold statuses; by rewrite lookup_fmap, Hc).
    rewrite <- Hsame in Hp'.
    destruct (process_currencies _ _ _ _ _ db1) as [d|d].
    + rewrite (statuses_alter_set failed) in Hp' by done.
      rewrite lookup_alter_eq, Hst, H1 in Hp'. done.
    + rewrite (statuses_alter_set completed) in Hp' by done.
      rewrite lookup_alter_eq, Hst, H1 in Hp'. done.
  - destruct (decide (id = k)) as [<-|Hne].
    + rewrite lookup_insert_eq. by destruct Hs as [->| ->].
    + rewrite lookup_insert_ne by done. destruct Hk as [->|Hk]; done.
Qed.

(** The scheduled times of the cycles. *)
Lemma schedule_alter f k db :
  (∀ c, MergeCycle.scheduled_time (f c) = MergeCycle.scheduled_time c) →
  schedule (set_merge_cycles (alter f k) db) = schedule db.
Proof.
  intros Hf. unfold schedule. simpl. apply map_eq. intros i.
  rewrite !lookup_fmap, lookup_alter. case_decide; [subst|done].
  destruct (merge_cycles db !! i); simpl; [|done]. by rewrite Hf.
Qed.

Lemma create_match_pair_schedule c now db m :
  schedule (create_match_pair c now db m) = schedule db.
Proof. destruct m as [[f w] a]. unfold create_match_pair. simpl. by rewrite schedule_alter. Qed.

Lemma process_currency_schedule c cutoff now db cur :
  schedule (process_currency c cutoff now db cur) = schedule db.
Proof.
  unfold process_currency. case_bool_decide.
  - by rewrite schedule_alter.
  - rewrite schedule_alter by done.
    rewrite (foldl_frame (create_match_pair c now) schedule) by apply create_match_pair_schedule.
    by rewrite schedule_alter.
Qed.

Lemma process_currencies_schedule failure c cutoff now l db :
  schedule (match process_currencies failure c cutoff now l db with inl d | inr d => d end)
  = schedule db.
Proof.
  revert db. induction l as [|cur l IH]; intros db; simpl; [done|].
  case_bool_decide; [done|]. by rewrite IH, process_currency_schedule.
Qed.

Lemma run_merge_cycle_schedule failure now id db :
  schedule (run_merge_cycle failure now id db) = schedule db.
Proof.
  unfold run_merge_cycle.
  destruct (merge_cycles db !! id) as [cycle|]; [|done].
  case_bool_decide; [done|].
  set (db1 := set_merge_cycles _ db).
  pose proof (process_currencies_schedule failure id (MergeCycle.cutoff_time cycle) now
                [NAIRA; USDT] db1) as Hs.
  assert (schedule db1 = schedule db) as H1 by (by apply schedule_alter).
  destruct (process_currencies _ _ _ _ _ db1) as [d|d];
    rewrite schedule_alter by done; by rewrite Hs.
Qed.

Lemma run_history_cons step history db :
  run_history (step :: history) db = run_history history (perform step.2 step.1 db).1.
Proof. done. Qed.

(** X9.  When the tasks [schedule_merge_cycle_execution] queues at the
    instant [now] have run, in any order, at any instants, with or without a
    failure, and among any other runs of merge cycles, no cycle scheduled at
    or before [now] is pending any more. *)
Theorem scheduled_cycles_are_run now db
    (tasks : list (datetime * option CurrencyEnum * positive)) :
  schedule_merge_cycle_execution now db ⊆ tasks.*2 →
  let db' := run_history ((λ task, (task.1.1, RunMergeCycle task.1.2 task.2)) <$> tasks) db in
  ∀ k c, merge_cycles db' !! k = Some c →
         MergeCycle.scheduled_time c ≤ now → MergeCycle.status c ≠ pending.
Proof.
  intros Hqueued. cbv zeta.
  assert (∀ tasks db,
            let db' := run_history ((λ task : datetime * option CurrencyEnum * positive,
                                       (task.1.1, RunMergeCycle task.1.2 task.2)) <$> tasks) db in
            schedule db' = schedule db ∧
            ∀ k, k ∈ tasks.*2 ∨ statuses db !! k ≠ Some pending →
                 statuses db' !! k ≠ Some pending) as Hruns.
  { clear. induction tasks as [|[[t f] id] tasks IH]; intros db; cbv zeta.
    - split; [done|]. intros k [Hk|Hk]; [by apply elem_of_nil in Hk|done].
    - rewrite !fmap_cons, run_history_cons. cbn [fst snd perform].
      destruct (IH (run_merge_cycle f t id db)) as [Hs Hst].
      split; [by rewrite Hs, run_merge_cycle_schedule|].
      intros k Hk. apply Hst. rewrite elem_of_cons in Hk.
      destruct (decide (k ∈ tasks.*2)) as [Hin|Hnin]; [by left|]. right.
      apply run_merge_cycle_not_pending. destruct Hk as [[->|Hk]|Hk]; [by left|done|by right]. }
  destruct (Hruns tasks db) as [Hs Hst]. simpl in Hs, Hst.
  intros k c Hc Ht Hp.
  assert (schedule db !! k = Some (MergeCycle.scheduled_time c)) as Hk.
  { rewrite <- Hs. unfold schedule. by rewrite lookup_fmap, Hc. }
  unfold schedule in Hk. rewrite lookup_fmap in Hk.
  destruct (merge_cycles db !! k) as [c0|] eqn:Hc0; [|done]. simpl in Hk.
  apply (Hst k); [|unfold statuses; by rewrite lookup_fmap, Hc; simpl; rewrite Hp].
  destruct (decide (MergeCycle.status c0 = pending)) as [Hp0|Hp0].
  - left. apply Hqueued. unfold schedule_merge_cycle_execution.
    apply (list_elem_of_fmap_2 fst _ (k, c0)).
    apply list_elem_of_filter. split; [|by apply elem_of_map_to_list].
    split; simpl; [|done]. simplify_eq. lia.
  - right. unfold statuses. rewrite lookup_fmap, Hc0. simpl. congruence.
Qed.

(** ** The requests a merge cycle leaves alone *)

(** The triples of the matcher name requests of its two lists. *)
Lemma smart_match_requests_ids F W m :
  m ∈ smart_match_requests F W → m.1.1 ∈ F.*1 ∧ m.1.2 ∈ W.*1.
Proof.
  destruct (smart_match_requests_exit F W) as (s & Hloop & ->).
  set (s0 := match_init F W) in *.
  destruct (match_loop_invariant
              (λ s, (funders s).*1 = (funders s0).*1 ∧ (withdrawers s).*1 = (withdrawers s0).*1 ∧
                    ∀ m, m ∈ matches s → m.1.1 ∈ (funders s0).*1 ∧ m.1.2 ∈ (withdrawers s0).*1))
    with (fuel := (length F + length W)%nat) (s := s0) (s' := s) as [(_ & _ & Hm) _];
    [|done| |].
  - intros s1 s2 (Hf & Hw & Hm) (fid & fr & wid & wr & Hfi & Hwj & ->)%match_step_Some.
    cbn [funders withdrawers matches].
    assert ((funders s1).*1 !! cursor_i s1 = Some fid) as Hfid.
    { by rewrite list_lookup_fmap, Hfi. }
    assert ((withdrawers s1).*1 !! cursor_j s1 = Some wid) as Hwid.
    { by rewrite list_lookup_fmap, Hwj. }
    split; [|split].
    + rewrite list_fmap_insert. cbn [fst]. by rewrite list_insert_id.
    + rewrite list_fmap_insert. cbn [fst]. by rewrite list_insert_id.
    + intros m' [Hin| ->%list_elem_of_singleton]%elem_of_app; [by apply Hm|]. cbn [fst snd].
      rewrite <- Hf, <- Hw. split; by eapply list_elem_of_lookup_2.
  - split; [done|]. split; [done|]. intros m' Hin. by apply elem_of_nil in Hin.
  - intros Hin. destruct (Hm m Hin) as [H1 H2]. unfold s0, match_init in H1, H2. simpl in H1, H2.
    split.
    + apply list_elem_of_fmap in H1 as (x & -> & (y & -> & Hy)%list_elem_of_fmap). simpl.
      apply list_elem_of_fmap_2. by rewrite sorted_perm in Hy.
    + apply list_elem_of_fmap in H2 as (x & -> & (y & -> & Hy)%list_elem_of_fmap). simpl.
      apply list_elem_of_fmap_2. by rewrite sorted_perm in Hy.
Qed.

Lemma create_match_pairs_untouched c now ms db :
  (∀ k, k ∉ ms.*1.*1 →
        funding_requests (foldl (create_match_pair c now) db ms) !! k
        = funding_requests db !! k) ∧
  (∀ k, k ∉ ms.*1.*2 →
        withdrawal_requests (foldl (create_match_pair c now) db ms) !! k
        = withdrawal_requests db !! k).
Proof.
  revert db. induction ms as [|[[f w] a] ms IH]; intros db; [done|].
  destruct (IH (create_match_pair c now db (f, w, a))) as [IHf IHw].
  rewrite !fmap_cons. cbn [foldl fst snd].
  split; intros k [Hne Hk]%not_elem_of_cons.
  - rewrite IHf by done. unfold create_match_pair. simpl. by rewrite lookup_alter_ne.
  - rewrite IHw by done. unfold create_match_pair. simpl. by rewrite lookup_alter_ne.
Qed.

Lemma process_currency_untouched c cutoff now db cur :
  (∀ k r, funding_requests db !! k = Some r →
     ¬ (funding_pending (k, r) ∧ FundingRequest.requested_at r < cutoff) →
     funding_requests (process_currency c cutoff now db cur) !! k = Some r) ∧
  (∀ k r, withdrawal_requests db !! k = Some r →
     ¬ (withdrawal_pending (k, r) ∧ WithdrawalRequest.requested_at r < cutoff) →
     withdrawal_requests (process_currency c cutoff now db cur) !! k = Some r).
Proof.
  unfold process_currency. case_bool_decide; [done|].
  set (F := cycle_funding_requests db cur cutoff).
  set (W := cycle_withdrawal_requests db cur cutoff).
  set (db1 := set_merge_cycles _ db).
  destruct (create_match_pairs_untouched c now (smart_match_requests F W) db1) as [Hf Hw].
  split; intros k r Hr Hsel; cbn [set_merge_cycles funding_requests withdrawal_requests].
  - rewrite Hf; [done|].
    intros (fw & -> & (m & -> & Hin)%list_elem_of_fmap)%list_elem_of_fmap.
    apply smart_match_requests_ids in Hin as [Hin _].
    apply list_elem_of_fmap in Hin as ([k' r'] & Hk & Hin). simpl in Hk. subst k'.
    apply list_elem_of_filter in Hin as [(_ & Hp & Hlt) Hin%elem_of_map_to_list].
    simpl in *. assert (r' = r) as -> by congruence. by apply Hsel.
  - rewrite Hw; [done|].
    intros (fw & -> & (m & -> & Hin)%list_elem_of_fmap)%list_elem_of_fmap.
    apply smart_match_requests_ids in Hin as [_ Hin].
    apply list_elem_of_fmap in Hin as ([k' r'] & Hk & Hin). simpl in Hk. subst k'.
    apply list_elem_of_filter in Hin as [(_ & Hp & Hlt) Hin%elem_of_map_to_list].
    simpl in *. assert (r' = r) as -> by congruence. by apply Hsel.
Qed.

Lemma process_currencies_untouched failure c cutoff now l db :
  let db' := match process_currencies failure c cutoff now l db with inl d | inr d => d end in
  (∀ k r, funding_requests db !! k = Some r →
     ¬ (funding_pending (k, r) ∧ FundingRequest.requested_at r < cutoff) →
     funding_requests db' !! k = Some r) ∧
  (∀ k r, withdrawal_requests db !! k = Some r →
     ¬ (withdrawal_pending (k, r) ∧ WithdrawalRequest.requested_at r < cutoff) →
     withdrawal_requests db' !! k = Some r).
Proof.
  revert db. induction l as [|cur l IH]; intros db; cbv zeta; simpl; [done|].
  case_bool_decide; [done|].
  destruct (process_currency_untouched c cutoff now db cur) as [Hf Hw].
  destruct (IH (process_currency c cutoff now db cur)) as [IHf IHw].
  split; intros k r Hr Hsel; [apply IHf|apply IHw]; auto.
Qed.

(** X10.  [run_merge_cycle] leaves unchanged every request that is fully
    matched, or completed, or was made at or after the cutoff time of the
    cycle. *)
Theorem run_merge_cycle_skips_requests failure now id db cycle :
  merge_cycles db !! id = Some cycle →
  let db' := run_merge_cycle failure now id db in
  (∀ k r, funding_requests db !! k = Some r →
     FundingRequest.is_fully_matched r = true ∨ FundingRequest.is_completed r = true ∨
     MergeCycle.cutoff_time cycle ≤ FundingRequest.requested_at r →
     funding_requests db' !! k = Some r) ∧
  (∀ k r, withdrawal_requests db !! k = Some r →
     WithdrawalRequest.is_fully_matched r = true ∨ WithdrawalRequest.is_completed r = true ∨
     MergeCycle.cutoff_time cycle ≤ WithdrawalRequest.requested_at r →
     withdrawal_requests db' !! k = Some r).
Proof.
  intros Hc. cbv zeta. unfold run_merge_cycle. rewrite Hc.
  case_bool_decide; [done|].
  set (db1 := set_merge_cycles _ db).
  destruct (process_currencies_untouched failure id (MergeCycle.cutoff_time cycle) now
              [NAIRA; USDT] db1) as [Hf Hw].
  destruct (process_currencies _ _ _ _ _ db1) as [d|d];
    cbn [set_merge_cycles funding_requests withdrawal_requests];
    (split; intros k r Hr Hsel; [apply Hf|apply Hw]; [done| |done|]);
    unfold funding_pending, withdrawal_pending; simpl;
    intros [[H1 H2] H3]; destruct Hsel as [?|[?|?]]; (congruence || lia).
Qed.

(** ** The join window *)

Lemma join_merge_cycle_fails system_utcoffset user_id utcnow db :
  (join_merge_cycle system_utcoffset user_id utcnow db).1 = db ∧
  (∀ data, (join_merge_cycle system_utcoffset user_id utcnow db).2 ≠ Success data) ∧
  (is_within_join_window utcnow = true →
   (∃ r, joinable_funding db user_id r ∧ funding_requests db !! r.1 = Some r.2) ∨
   (∃ r, joinable_withdrawal db user_id r ∧ withdrawal_requests db !! r.1 = Some r.2) →
   (join_merge_cycle system_utcoffset user_id utcnow db).2 = Rejected ServerError).
Proof.
  unfold join_merge_cycle.
  pose proof (merge_window_info_of_instant system_utcoffset utcnow) as Hinfo.
  destruct (get_current_merge_window_info system_utcoffset utcnow) as [info|].
  - assert (∀ f w, join_updates None f w info db = None ∨ (f = None ∧ w = None)) as Hup.
    { intros [f|] [w|]; unfold join_updates; simpl; auto. }
    set (f := head (filter (joinable_funding db user_id) _)).
    set (w := head (filter (joinable_withdrawal db user_id) _)).
    case_bool_decide as Hnone.
    + split; [done|]. split; [done|]. intros _ [(r & Hr & Hin)|(r & Hr & Hin)].
      * destruct Hnone as [Hf%head_None _]. unfold f in *.
        destruct (filter_nil_not_elem_of _ _ r Hf Hr). destruct r. by apply elem_of_map_to_list.
      * destruct Hnone as [_ Hw%head_None]. unfold w in *.
        destruct (filter_nil_not_elem_of _ _ r Hw Hr). destruct r. by apply elem_of_map_to_list.
    + destruct (Hup f w) as [->|Hfw]; [done|]. by destruct Hnone.
  - split; [done|]. split; [done|]. intros Hwin. congruence.
Qed.

(** X11.  [join_merge_cycle] never opts a request in: whatever the instant
    and the requests, it leaves the database as it was and does not answer
    with a success.  Inside a join window, for a user with a request to opt
    in, it answers with the internal error (500): the local variable [now]
    is read without having been assigned. *)
Theorem join_merge_cycle_never_joins system_utcoffset user_id utcnow db :
  (join_merge_cycle system_utcoffset user_id utcnow db).1 = db ∧
  (∀ data, (join_merge_cycle system_utcoffset user_id utcnow db).2 ≠ Success data) ∧
  (is_within_join_window utcnow = true →
   (∃ r, joinable_funding db user_id r ∧ funding_requests db !! r.1 = Some r.2) ∨
   (∃ r, joinable_withdrawal db user_id r ∧ withdrawal_requests db !! r.1 = Some r.2) →
   (join_merge_cycle system_utcoffset user_id utcnow db).2 = Rejected ServerError).
Proof. apply join_merge_cycle_fails. Qed.

(** X12.  Whenever [get_my_merge_cycle_status] tells a user [can_join],
    [join_merge_cycle], called at the same instant on the same database,
    answers with the internal error (500) and changes nothing. *)
Theorem can_join_cannot_join system_utcoffset user_id utcnow db :
  status_can_join (get_my_merge_cycle_status system_utcoffset user_id utcnow db) = true →
  join_merge_cycle system_utcoffset user_id utcnow db = (db, Rejected ServerError).
Proof.
  unfold get_my_merge_cycle_status.
  destruct (get_next_merge_time utcnow) as [next closes]. cbn [status_can_join].
  set (f := head (filter (open_funding db user_id) _)).
  set (w := head (filter (open_withdrawal db user_id) _)).
  intros [[Hpending Hnot%negb_true_iff]%andb_true_iff Hwin]%andb_true_iff.
  apply bool_decide_eq_true in Hpending, Hwin. apply bool_decide_eq_false in Hnot.
  destruct Hwin as [info Hinfo].
  pose proof (join_merge_cycle_fails system_utcoffset user_id utcnow db)
    as (Hdb & _ & Hfail).
  pose proof (merge_window_info_of_instant system_utcoffset utcnow) as Hspec.
  rewrite Hinfo in Hspec.
  destruct (join_merge_cycle system_utcoffset user_id utcnow db) as [db' reply].
  simpl in *. subst db'. f_equal. apply Hfail.
  { apply is_within_join_window_iff. destruct Hspec as (m & Hm & Hr & _). by exists m. }
  assert (∀ r, f = Some r → open_funding db user_id r ∧ funding_requests db !! r.1 = Some r.2)
    as Hf.
  { intros [k r] [Hr Hin%elem_of_map_to_list]%head_Some_elem_of%list_elem_of_filter. done. }
  assert (∀ r, w = Some r →
               open_withdrawal db user_id r ∧ withdrawal_requests db !! r.1 = Some r.2) as Hw.
  { intros [k r] [Hr Hin%elem_of_map_to_list]%head_Some_elem_of%list_elem_of_filter. done. }
  destruct f as [fr|] eqn:Hfr.
  - destruct (Hf fr eq_refl) as [[Hu Hc] Hin].
    destruct (FundingRequest.opted_in fr.2) eqn:Ho; [done|].
    left. by exists fr.
  - destruct w as [wr|] eqn:Hwr; [|by destruct Hpending as [[]|[]]].
    destruct (Hw wr eq_refl) as [[Hu Hc] Hin]. simpl in Hnot.
    right. exists wr. split; [|done]. split; [done|]. split; [done|].
    destruct (WithdrawalRequest.opted_in wr.2); done.
Qed.

(** ** The manual match *)

(** What a successful [manual_match_requests] does. *)
Lemma manual_match_requests_Success users f w amount user_id now db db' data :
  manual_match_requests users f w amount user_id now db = (db', Success data) →
  ∃ freq wreq next,
    is_Some (admin_user users user_id) ∧
    funding_requests db !! f = Some freq ∧ withdrawal_requests db !! w = Some wreq ∧
    amount ≤ FundingRequest.amount_remaining freq ∧
    amount ≤ WithdrawalRequest.amount_remaining wreq ∧
    get_next_merge_cycle now db = Some next ∧
    data = (next_uuid db, FundingRequest.amount_remaining freq - amount,
            WithdrawalRequest.amount_remaining wreq - amount) ∧
    funding_match_pairs db'
    = <[next_uuid db := manual_match_pair f w next.1 amount now]> (funding_match_pairs db) ∧
    funding_requests db' = alter (match_funding next.1 now amount) f (funding_requests db) ∧
    withdrawal_requests db'
    = alter (match_withdrawal next.1 now amount) w (withdrawal_requests db) ∧
    wallets db' = wallets db ∧ merge_cycles db' = merge_cycles db ∧
    admin_wallets db' = admin_wallets db ∧ wallet_logs db' = wallet_logs db.
Proof.
  unfold manual_match_requests.
  destruct (admin_user users user_id) as [user|] eqn:Hu; [|done].
  destruct (funding_requests db !! f) as [freq|] eqn:Hf; [|done].
  destruct (withdrawal_requests db !! w) as [wreq|] eqn:Hw; [|done].
  case_bool_decide as Ham; [done|].
  destruct (get_next_merge_cycle now db) as [next|] eqn:Hn; [|done].
  unfold uuid4. cbv beta iota zeta. intros [= <- <-].
  exists freq, wreq, next. split_and!; try done; lia.
Qed.

Lemma manual_match_requests_Rejected users f w amount user_id now db e :
  (manual_match_requests users f w amount user_id now db).2 = Rejected e →
  (manual_match_requests users f w amount user_id now db).1 = db.
Proof.
  unfold manual_match_requests.
  destruct (admin_user users user_id) as [user|]; [|done].
  destruct (funding_requests db !! f) as [freq|]; [|done].
  destruct (withdrawal_requests db !! w) as [wreq|]; [|done].
  case_bool_decide as Ham; [done|].
  destruct (get_next_merge_cycle now db) as [next|]; done.
Qed.

Lemma manual_match_requests_accepts users f w amount user_id now db freq wreq :
  is_Some (admin_user users user_id) →
  funding_requests db !! f = Some freq → withdrawal_requests db !! w = Some wreq →
  amount ≤ FundingRequest.amount_remaining freq →
  amount ≤ WithdrawalRequest.amount_remaining wreq →
  is_Some (get_next_merge_cycle now db) →
  ∃ data, (manual_match_requests users f w amount user_id now db).2 = Success data.
Proof.
  intros [user Hu] Hf Hw Haf Haw [next Hn]. unfold manual_match_requests.
  rewrite Hu, Hf, Hw, bool_decide_eq_false_2, Hn by lia.
  unfold uuid4. cbv beta iota zeta. eauto.
Qed.

(** X13.  [manual_match_requests].  A rejection leaves the database as it
    was.  The call succeeds as soon as the caller is an administrator, the
    two requests exist, a next merge cycle exists and the amount exceeds
    neither remainder: the amount has no lower bound.  A success lowers the
    two remainders by the amount and touches no other request; when the
    amount is not negative the remainders stay between zero and what they
    were. *)
Theorem manual_match_requests_amounts users f w amount user_id now db :
  let result := manual_match_requests users f w amount user_id now db in
  (∀ e, result.2 = Rejected e → result.1 = db) ∧
  (∀ data, result.2 = Success data →
     ∃ freq wreq,
       funding_requests db !! f = Some freq ∧ withdrawal_requests db !! w = Some wreq ∧
       amount ≤ FundingRequest.amount_remaining freq ∧
       amount ≤ WithdrawalRequest.amount_remaining wreq ∧
       FundingRequest.amount_remaining <$> funding_requests result.1 !! f
       = Some (FundingRequest.amount_remaining freq - amount) ∧
       WithdrawalRequest.amount_remaining <$> withdrawal_requests result.1 !! w
       = Some (WithdrawalRequest.amount_remaining wreq - amount) ∧
       (∀ k, k ≠ f → funding_requests result.1 !! k = funding_requests db !! k) ∧
       (∀ k, k ≠ w → withdrawal_requests result.1 !! k = withdrawal_requests db !! k)) ∧
  (0 ≤ amount → requests_bounded db → requests_shrink db result.1) ∧
  (∀ freq wreq,
     is_Some (admin_user users user_id) →
     funding_requests db !! f = Some freq → withdrawal_requests db !! w = Some wreq →
     amount ≤ FundingRequest.amount_remaining freq →
     amount ≤ WithdrawalRequest.amount_remaining wreq →
     is_Some (get_next_merge_cycle now db) →
     ∃ data, result.2 = Success data).
Proof.
  cbv zeta. split; [apply manual_match_requests_Rejected|].
  match goal with
  | |- ?A ∧ ?B ∧ _ =>
      cut (A ∧ B);
      [intros [? ?]; split_and!; [done|done|apply manual_match_requests_accepts]|]
  end.
  destruct (manual_match_requests users f w amount user_id now db) as [db' [data|e]] eqn:Hm;
    cbn [fst snd].
  - apply manual_match_requests_Success in Hm
      as (freq & wreq & next & _ & Hf & Hw & Haf & Haw & _ & _ & _ & Hfr & Hwr & _).
    split.
    + intros _ _. exists freq, wreq. rewrite Hfr, Hwr.
      rewrite !lookup_alter_eq, Hf, Hw. simpl.
      rewrite (proj2 (match_funding_amounts _ _ _ _)).
      rewrite (proj2 (match_withdrawal_amounts _ _ _ _)).
      split_and!; try done; intros k Hk; by rewrite lookup_alter_ne.
    + intros Hpos [Hbf Hbw]. split; intros k.
      * rewrite Hfr. destruct (decide (f = k)) as [<-|Hne].
        -- rewrite lookup_alter_eq, Hf. constructor. unfold funding_shrinks.
           destruct (match_funding_amounts next.1 now amount freq) as [-> ->].
           specialize (Hbf f freq Hf). simpl in Hbf. split; [done|lia].
        -- rewrite lookup_alter_ne by done.
           destruct (funding_requests db !! k) as [r|] eqn:Hr; constructor.
           specialize (Hbf k r Hr). simpl in Hbf. split; [done|lia].
      * rewrite Hwr. destruct (decide (w = k)) as [<-|Hne].
        -- rewrite lookup_alter_eq, Hw. constructor. unfold withdrawal_shrinks.
           destruct (match_withdrawal_amounts next.1 now amount wreq) as [-> ->].
           specialize (Hbw w wreq Hw). simpl in Hbw. split; [done|lia].
        -- rewrite lookup_alter_ne by done.
           destruct (withdrawal_requests db !! k) as [r|] eqn:Hr; constructor.
           specialize (Hbw k r Hr). simpl in Hbw. split; [done|lia].
  - pose proof (manual_match_requests_Rejected users f w amount user_id now db e) as Hrej.
    rewrite Hm in Hrej. simpl in Hrej. rewrite Hrej by done.
    split; [done|]. intros _. apply requests_shrink_refl.
Qed.

(** The sweep changes the pairs its two queries select, and no other. *)
Lemma flag_funder_missed_pairs l db k :
  k ∉ l.*1 →
  funding_match_pairs (foldl flag_funder_missed db l) !! k = funding_match_pairs db !! k.
Proof.
  revert db. induction l as [|p l IH]; intros db; [done|].
  rewrite fmap_cons. intros [Hne Hk]%not_elem_of_cons. cbn [foldl]. rewrite IH by done.
  unfold flag_funder_missed. simpl.
  destruct (funding_requests db !! _); simpl; by rewrite lookup_alter_ne.
Qed.

Lemma flag_withdrawer_missed_pairs l db k :
  k ∉ l.*1 →
  funding_match_pairs (foldl flag_withdrawer_missed db l) !! k = funding_match_pairs db !! k.
Proof.
  revert db. induction l as [|p l IH]; intros db; [done|].
  rewrite fmap_cons. intros [Hne Hk]%not_elem_of_cons. cbn [foldl]. rewrite IH by done.
  unfold flag_withdrawer_missed. simpl.
  destruct (withdrawal_requests db !! _); simpl; by rewrite lookup_alter_ne.
Qed.

Lemma check_expired_deadlines_pair now db k p :
  funding_match_pairs db !! k = Some p →
  ¬ expired_proof now (k, p) → ¬ expired_confirmation now (k, p) →
  funding_match_pairs (check_expired_deadlines now db) !! k = Some p.
Proof.
  intros Hp Hproof Hconf. unfold check_expired_deadlines.
  set (db1 := foldl flag_funder_missed db _).
  assert (funding_match_pairs db1 !! k = Some p) as Hp1.
  { unfold db1. rewrite flag_funder_missed_pairs; [done|].
    intros ([k' p'] & Hk & [He Hin%elem_of_map_to_list]%list_elem_of_filter)%list_elem_of_fmap.
    simpl in Hk. subst k'. by simplify_eq. }
  rewrite flag_withdrawer_missed_pairs; [done|].
  intros ([k' p'] & Hk & [He Hin%elem_of_map_to_list]%list_elem_of_filter)%list_elem_of_fmap.
  simpl in Hk. subst k'. by simplify_eq.
Qed.

(** X14.  The pair [manual_match_requests] creates has no proof deadline.
    The deadline sweep never changes it, [upload_proof] never rejects its
    proof as late, and [request_extension] never succeeds on it: for the
    funder of the pair it answers with the internal error (500). *)
Theorem manual_match_has_no_deadline users f w amount user_id now db db' pair_id rf rw :
  manual_match_requests users f w amount user_id now db = (db', Success (pair_id, rf, rw)) →
  ∃ p, funding_match_pairs db' !! pair_id = Some p ∧
       FundingMatchPair.proof_deadline p = None ∧
       ∀ t,
         funding_match_pairs (check_expired_deadlines t db') !! pair_id = Some p ∧
         (∀ user file_ext stored,
            (upload_proof pair_id file_ext stored user t db').2
            ≠ HTTPException ProofDeadlinePassed) ∧
         (∀ user, (request_extension pair_id user t db').1 = db' ∧
                  ∀ data, (request_extension pair_id user t db').2 ≠ SuccessResponse data) ∧
         (∀ user freq wallet,
            funding_requests db' !! f = Some freq →
            wallets db' !! FundingRequest.wallet_id freq = Some wallet →
            Wallet.user_id wallet = user →
            (request_extension pair_id user t db').2 = HTTPException InternalServerError).
Proof.
  intros (freq & wreq & next & _ & Hf & Hw & _ & _ & _ & [= -> _ _] & Hpairs & Hfr & _)
    %manual_match_requests_Success.
  set (p := manual_match_pair f w next.1 amount now) in *.
  assert (funding_match_pairs db' !! next_uuid db = Some p) as Hp.
  { by rewrite Hpairs, lookup_insert_eq. }
  exists p. split; [done|]. split; [done|]. intros t. split_and!.
  - apply check_expired_deadlines_pair; [done|..]; by intros [H _].
  - intros user file_ext stored. unfold upload_proof. rewrite Hp.
    repeat (case_match; try done).
  - intros user. unfold request_extension. rewrite Hp.
    repeat (case_match; try done).
  - intros user freq' wallet Hfreq Hwallet Huser. unfold request_extension.
    rewrite Hp. change (FundingMatchPair.funding_request_id p) with f.
    rewrite Hfreq, Hwallet. rewrite bool_decide_eq_false_2 by (intros ?; done). done.
Qed.

(** ** The unblocking of a user *)

Lemma unblock_unblock w : unblock (unblock w) = unblock w.
Proof. done. Qed.

Lemma unblock_not_blocked w : Wallet.is_blocked w = false → unblock w = w.
Proof. destruct w. simpl. by intros ->. Qed.

(** The loop of [unblock_user] over the wallets it loaded. *)
Lemma unblock_loop (l : list (positive * Wallet.t)) db count :
  let result :=
    foldl (λ '(db, unblocked_count) (wallet : positive * Wallet.t),
             if Wallet.is_blocked wallet.2
             then (set_wallets (alter unblock wallet.1) db, unblocked_count + 1)
             else (db, unblocked_count))
          (db, count) l in
  (∀ k, wallets result.1 !! k
        = if bool_decide (k ∈ (filter (λ w, Wallet.is_blocked w.2 = true) l).*1)
          then unblock <$> wallets db !! k else wallets db !! k) ∧
  result.2 = count + Z.of_nat (length (filter (λ w, Wallet.is_blocked w.2 = true) l)) ∧
  funding_requests result.1 = funding_requests db ∧
  withdrawal_requests result.1 = withdrawal_requests db ∧
  funding_match_pairs result.1 = funding_match_pairs db ∧
  merge_cycles result.1 = merge_cycles db ∧
  admin_wallets result.1 = admin_wallets db ∧ wallet_logs result.1 = wallet_logs db.
Proof.
  revert db count. induction l as [|[k0 w0] l IH]; intros db count; cbv zeta.
  - simpl. split; [done|split; [lia|done]].
  - cbn [foldl]. rewrite filter_cons. cbn [snd fst].
    destruct (Wallet.is_blocked w0) eqn:Hb.
    + destruct (IH (set_wallets (alter unblock k0) db) (count + 1)) as (Hw & Hc & Hrest).
      rewrite decide_True by done. split; [|split; [|done]].
      * intros k. rewrite Hw. cbn [set_wallets wallets]. rewrite fmap_cons. cbn [fst].
        destruct (decide (k = k0)) as [->|Hne].
        -- rewrite lookup_alter_eq. rewrite (bool_decide_eq_true_2 (k0 ∈ k0 :: _)) by left.
           case_bool_decide; [|done].
           destruct (wallets db !! k0); simpl; [|done]. by rewrite unblock_unblock.
        -- rewrite lookup_alter_ne by done.
           match goal with
           | |- _ = if bool_decide (k ∈ k0 :: ?X) then _ else _ =>
               assert (bool_decide (k ∈ k0 :: X) = bool_decide (k ∈ X)) as ->; [|done]
           end.
           apply bool_decide_ext. rewrite elem_of_cons. tauto.
      * rewrite Hc. cbn [length]. lia.
    + destruct (IH db count) as (Hw & Hc & Hrest).
      rewrite decide_False by done. done.
Qed.

(** X15.  [unblock_user].  A rejection leaves the database as it was.  A
    success clears the flag [is_blocked] of every wallet of the user found,
    keeps the reason of the block, leaves every other wallet and every other
    table as they were, and counts the wallets of the user that were
    blocked. *)
Theorem unblock_user_unblocks users user_email user_id db :
  let result := unblock_user users user_email user_id db in
  (∀ e, result.2 = Rejected e → result.1 = db) ∧
  (∀ target count, result.2 = Success (target, count) →
     (∀ k w, wallets db !! k = Some w →
        wallets result.1 !! k
        = Some (if bool_decide (Wallet.user_id w = target)
                then Wallet.with_block false (Wallet.block_reason w) w else w)) ∧
     (∀ k, wallets db !! k = None → wallets result.1 !! k = None) ∧
     count = Z.of_nat (length (filter (λ w : positive * Wallet.t,
                                         Wallet.is_blocked w.2 = true)
                                      (filter (λ w : positive * Wallet.t,
                                                 Wallet.user_id w.2 = target)
                                              (map_to_list (wallets db))))) ∧
     funding_requests result.1 = funding_requests db ∧
     withdrawal_requests result.1 = withdrawal_requests db ∧
     funding_match_pairs result.1 = funding_match_pairs db ∧
     merge_cycles result.1 = merge_cycles db ∧
     admin_wallets result.1 = admin_wallets db ∧ wallet_logs result.1 = wallet_logs db).
Proof.
  cbv zeta. unfold unblock_user.
  destruct (admin_user users user_id) as [admin|]; [|done].
  destruct (head _) as [target_user|]; [|done].
  set (user_wallets := filter _ (map_to_list (wallets db))).
  case_bool_decide as Hnil; [done|].
  pose proof (unblock_loop user_wallets db 0) as Hloop. cbv zeta in Hloop.
  destruct (foldl _ (db, 0) user_wallets) as [db' unblocked_count].
  cbn [fst snd] in *. destruct Hloop as (Hw & Hc & Hrest).
  split; [done|]. intros target count [= <- <-].
  split; [|split; [|split; [rewrite Hc; unfold user_wallets; lia|done]]].
  - intros k w Hk. rewrite Hw, Hk. simpl.
    assert (k ∈ (filter (λ w : positive * Wallet.t, Wallet.is_blocked w.2 = true)
                   user_wallets).*1
            ↔ Wallet.user_id w = target_user.1 ∧ Wallet.is_blocked w = true) as Hin.
    { rewrite list_elem_of_fmap. split.
      - intros ([k' w'] & -> & [Hb [Hu Hin%elem_of_map_to_list]%list_elem_of_filter]
                               %list_elem_of_filter).
        simpl in *. by simplify_eq.
      - intros [Hu Hb]. exists (k, w). split; [done|].
        apply list_elem_of_filter. split; [done|].
        apply list_elem_of_filter. split; [done|]. by apply elem_of_map_to_list. }
    rewrite (bool_decide_ext _ _ Hin).
    destruct (decide (Wallet.user_id w = target_user.1)) as [Hu|Hu];
      destruct (Wallet.is_blocked w) eqn:Hb.
    + by rewrite !bool_decide_eq_true_2.
    + rewrite bool_decide_eq_false_2 by (by intros [_ ?]).
      rewrite bool_decide_eq_true_2 by done. f_equal. symmetry.
      by apply unblock_not_blocked.
    + by rewrite !bool_decide_eq_false_2 by tauto.
    + by rewrite !bool_decide_eq_false_2 by tauto.
  - intros k Hk. rewrite Hw, Hk. by case_bool_decide.
Qed.

(** ** The creation of a request *)

(** What the checks of a creation have established when they pass. *)
Lemma request_wallet_Success amount currency user_id db wallet :
  request_wallet amount currency user_id db = SuccessResponse wallet →
  MIN_AMOUNT ≤ amount ≤ MAX_AMOUNT ∧
  currency = Some (Wallet.currency wallet.2) ∧
  has_pending_request user_id db = false ∧
  wallets db !! wallet.1 = Some wallet.2 ∧
  Wallet.user_id wallet.2 = user_id ∧
  Wallet.is_blocked wallet.2 = false.
Proof.
  unfold request_wallet.
  case_bool_decide as Hmin; [done|]. case_bool_decide as Hmax; [done|].
  destruct currency as [cur|]; [|done].
  destruct (has_pending_request user_id db) eqn:Hp; [done|].
  destruct (head _) as [[k w]|] eqn:Hh; [|done].
  apply head_Some_elem_of, list_elem_of_filter in Hh as [[Hu Hc] Hin%elem_of_map_to_list].
  simpl in *.
  destruct (Wallet.is_blocked w) eqn:Hb; [done|].
  destruct cur; case_bool_decide; try done; intros [= <-]; simpl;
    (split_and!; [lia|lia|by rewrite Hc|done..]).
Qed.

Lemma has_pending_request_funding user_id db k r w :
  funding_requests db !! k = Some r →
  wallets db !! FundingRequest.wallet_id r = Some w → Wallet.user_id w = user_id →
  FundingRequest.is_completed r = false →
  has_pending_request user_id db = true.
Proof.
  intros Hr Hw Hu Hc. unfold has_pending_request. apply bool_decide_eq_true. left.
  destruct (head _) eqn:Hh; [done|]. apply head_None in Hh.
  destruct (filter_nil_not_elem_of _ _ (k, r) Hh).
  - split; [|done]. unfold wallet_of_user. simpl. by rewrite Hw; simpl; rewrite Hu.
  - by apply elem_of_map_to_list.
Qed.

Lemma has_pending_request_withdrawal user_id db k r w :
  withdrawal_requests db !! k = Some r →
  wallets db !! WithdrawalRequest.wallet_id r = Some w → Wallet.user_id w = user_id →
  WithdrawalRequest.is_completed r = false →
  has_pending_request user_id db = true.
Proof.
  intros Hr Hw Hu Hc. unfold has_pending_request. apply bool_decide_eq_true. right.
  destruct (head (filter _ (map_to_list (withdrawal_requests db)))) eqn:Hh; [done|].
  apply head_None in Hh.
  destruct (filter_nil_not_elem_of _ _ (k, r) Hh).
  - split; [|done]. unfold wallet_of_user. simpl. by rewrite Hw; simpl; rewrite Hu.
  - by apply elem_of_map_to_list.
Qed.

Lemma pending_refuses_creation user_id db :
  has_pending_request user_id db = true → creation_refused user_id db.
Proof.
  intros Hp amount currency now [Hmin Hmax] [cur ->].
  unfold create_funding_request, create_withdrawal_request, request_wallet.
  rewrite !bool_decide_eq_false_2 by lia. by rewrite Hp.
Qed.

(** X16.  After a request has been created, funding or withdrawal, its user
    has a pending request, and every further creation by that user, of
    either kind, with a valid amount and currency, is rejected for the
    pending request and changes nothing. *)
Theorem one_open_request_per_user amount currency user_id now db request_id :
  ((create_funding_request amount currency user_id now db).2 = SuccessResponse request_id →
   has_pending_request user_id (create_funding_request amount currency user_id now db).1 = true ∧
   creation_refused user_id (create_funding_request amount currency user_id now db).1) ∧
  ((create_withdrawal_request amount currency user_id now db).2 = SuccessResponse request_id →
   has_pending_request user_id (create_withdrawal_request amount currency user_id now db).1
   = true ∧
   creation_refused user_id (create_withdrawal_request amount currency user_id now db).1).
Proof.
  split.
  - unfold create_funding_request.
    destruct (request_wallet amount currency user_id db) as [wallet|e] eqn:Hw; [|done].
    apply request_wallet_Success in Hw as (_ & _ & _ & Hwallet & Hu & _).
    unfold uuid4. cbv beta iota zeta. cbn [fst snd]. intros _.
    assert (has_pending_request user_id
              (set_funding_requests
                 (insert (next_uuid db)
                    (FundingRequest.Build wallet.1 amount amount false false false None None
                       now None))
                 (Db (wallets db) (funding_requests db) (withdrawal_requests db)
                    (funding_match_pairs db) (merge_cycles db) (admin_wallets db)
                    (wallet_logs db) (Pos.succ (next_uuid db)))) = true) as Hp.
    { eapply has_pending_request_funding; [apply lookup_insert_eq|exact Hwallet|done..]. }
    split; [done|]. by apply pending_refuses_creation.
  - unfold create_withdrawal_request.
    destruct (request_wallet amount currency user_id db) as [wallet|e] eqn:Hw; [|done].
    apply request_wallet_Success in Hw as (_ & _ & _ & Hwallet & Hu & _).
    case_bool_decide; [done|].
    unfold uuid4. cbv beta iota zeta. cbn [fst snd]. intros _.
    assert (has_pending_request user_id
              (set_withdrawal_requests
                 (insert (next_uuid db)
                    (WithdrawalRequest.Build wallet.1 amount amount false false false None None
                       now None false None 0))
                 (Db (wallets db) (funding_requests db) (withdrawal_requests db)
                    (funding_match_pairs db) (merge_cycles db) (admin_wallets db)
                    (wallet_logs db) (Pos.succ (next_uuid db)))) = true) as Hp.
    { eapply has_pending_request_withdrawal; [apply lookup_insert_eq|exact Hwallet|done..]. }
    split; [done|]. by apply pending_refuses_creation.
Qed.

(** ** A request that is created and cancelled *)

(** X17.  A request that has just been created, funding or withdrawal, can
    be cancelled by its user as long as the cutoff of the next merge cycle
    is not reached, and the cancellation restores the tables: only the
    counter of the keys has moved.  The key drawn is new: no request has it
    and, where the database enforces the foreign keys, no pair refers to
    it. *)
Theorem create_then_cancel foreign_keys amount currency user_id now now' db :
  funding_requests db !! next_uuid db = None →
  withdrawal_requests db !! next_uuid db = None →
  (foreign_keys = true →
   ¬ funding_request_referenced (next_uuid db) db ∧
   ¬ withdrawal_request_referenced (next_uuid db) db) →
  cutoff_check now' db = None →
  (∀ db' request_id,
     create_funding_request amount currency user_id now db = (db', SuccessResponse request_id) →
     cancel_funding_request foreign_keys request_id user_id now' db'
     = ((uuid4 db).2, SuccessResponse request_id)) ∧
  (∀ db' request_id,
     create_withdrawal_request amount currency user_id now db
     = (db', SuccessResponse request_id) →
     cancel_withdrawal_request foreign_keys request_id user_id now' db'
     = ((uuid4 db).2, SuccessResponse request_id)).
Proof.
  intros Hf Hw Hfk Hcut. split; intros db' request_id.
  - unfold create_funding_request.
    destruct (request_wallet amount currency user_id db) as [wallet|e] eqn:Hrw; [|done].
    apply request_wallet_Success in Hrw as (_ & _ & _ & Hwallet & Hu & _).
    unfold uuid4. cbv beta iota zeta. intros [= <- <-].
    unfold cancel_funding_request. cbn [funding_requests set_funding_requests wallets].
    rewrite lookup_insert_eq. cbn [FundingRequest.wallet_id FundingRequest.is_completed
      FundingRequest.is_fully_matched FundingRequest.matched_at].
    rewrite Hwallet. rewrite bool_decide_eq_false_2 by (by intros []).
    cbn [orb]. rewrite bool_decide_eq_false_2 by (by intros [? [=]]).
    change (cutoff_check now' _) with (cutoff_check now' db). rewrite Hcut.
    destruct foreign_keys; cbn [andb];
      [rewrite bool_decide_eq_false_2 by exact (proj1 (Hfk eq_refl))|];
    f_equal; unfold set_funding_requests; cbn; f_equal;
      by rewrite delete_insert_eq, delete_id.
  - unfold create_withdrawal_request.
    destruct (request_wallet amount currency user_id db) as [wallet|e] eqn:Hrw; [|done].
    apply request_wallet_Success in Hrw as (_ & _ & _ & Hwallet & Hu & _).
    case_bool_decide; [done|].
    unfold uuid4. cbv beta iota zeta. intros [= <- <-].
    unfold cancel_withdrawal_request. cbn [withdrawal_requests set_withdrawal_requests wallets].
    rewrite lookup_insert_eq. cbn [WithdrawalRequest.wallet_id WithdrawalRequest.is_completed
      WithdrawalRequest.is_fully_matched WithdrawalRequest.matched_at].
    rewrite Hwallet. rewrite bool_decide_eq_false_2 by (by intros []).
    cbn [orb]. rewrite bool_decide_eq_false_2 by (by intros [? [=]]).
    change (cutoff_check now' _) with (cutoff_check now' db). rewrite Hcut.
    destruct foreign_keys; cbn [andb];
      [rewrite bool_decide_eq_false_2 by exact (proj2 (Hfk eq_refl))|];
    f_equal; unfold set_withdrawal_requests; cbn; f_equal;
      by rewrite delete_insert_eq, delete_id.
Qed.

(** ** The balances *)

Lemma balances_alter f k db :
  (∀ w, Wallet.balance (f w) = Wallet.balance w ∧
        Wallet.total_deposited (f w) = Wallet.total_deposited w) →
  balances (set_wallets (alter f k) db) = balances db.
Proof.
  intros Hf. unfold balances. simpl. apply map_eq. intros i.
  rewrite !lookup_fmap, lookup_alter. case_decide; [subst|done].
  destruct (wallets db !! i) as [w|]; simpl; [|done].
  by destruct (Hf w) as [-> ->].
Qed.

Lemma block_if_not_blocked_balance w :
  Wallet.balance (block_if_not_blocked w) = Wallet.balance w ∧
  Wallet.total_deposited (block_if_not_blocked w) = Wallet.total_deposited w.
Proof. unfold block_if_not_blocked. by destruct (Wallet.is_blocked w). Qed.

Lemma create_auto_match_pair_wallets c now db m :
  wallets (create_auto_match_pair c now db m) = wallets db.
Proof. by destruct m as [[f w] a]. Qed.

Lemma match_currency_wallets c now db cur :
  wallets (match_currency c now db cur) = wallets db.
Proof.
  unfold match_currency. case_bool_decide; [done|].
  by rewrite (foldl_frame (create_auto_match_pair c now) wallets)
    by apply create_auto_match_pair_wallets.
Qed.

Lemma run_matching_wallets now db : wallets (run_matching now db) = wallets db.
Proof.
  unfold run_matching, uuid4. cbv beta iota zeta.
  unfold set_merge_cycles at 1. cbn [wallets].
  by rewrite (foldl_frame (match_currency (next_uuid db) now) wallets)
    by apply match_currency_wallets.
Qed.

Lemma check_expired_deadlines_balances now db :
  balances (check_expired_deadlines now db) = balances db.
Proof.
  unfold check_expired_deadlines.
  rewrite (foldl_frame flag_withdrawer_missed balances).
  - rewrite (foldl_frame flag_funder_missed balances); [done|].
    intros d a. unfold flag_funder_missed. case_match; [|done].
    rewrite balances_alter by apply block_if_not_blocked_balance. done.
  - intros d a. unfold flag_withdrawer_missed. case_match; [|done].
    rewrite balances_alter by apply block_if_not_blocked_balance. done.
Qed.

Lemma upload_proof_balances pair_id file_ext stored user_id now db :
  balances (upload_proof pair_id file_ext stored user_id now db).1 = balances db.
Proof.
  unfold upload_proof. repeat case_match; try done.
  unfold block_and_requeue. simpl.
  by apply (balances_alter _ _ db).
Qed.

Lemma perform_balances a now db :
  (∀ pair_id user_id, a ≠ ConfirmProof pair_id user_id) →
  balances (perform a now db).1 = balances db.
Proof.
  intros Hne. destruct a; simpl; rewrite ?rejection_fst.
  - unfold create_funding_request. endpoint_frame.
  - unfold create_withdrawal_request. endpoint_frame.
  - unfold cancel_funding_request. endpoint_frame.
  - unfold cancel_withdrawal_request. endpoint_frame.
  - apply upload_proof_balances.
  - by destruct (Hne pair_id user_id).
  - unfold request_extension. endpoint_frame.
  - unfold balances. by rewrite run_merge_cycle_wallets.
  - unfold balances. by rewrite run_matching_wallets.
  - apply check_expired_deadlines_balances.
Qed.

Lemma unblock_user_balances users user_email user_id db :
  balances (unblock_user users user_email user_id db).1 = balances db.
Proof.
  unfold unblock_user.
  destruct (admin_user users user_id) as [admin|]; [|done].
  destruct (head _) as [target_user|]; [|done].
  set (user_wallets := filter _ (map_to_list (wallets db))).
  case_bool_decide as Hnil; [done|].
  pose proof (unblock_loop user_wallets db 0) as Hloop. cbv zeta in Hloop.
  destruct (foldl _ _ user_wallets) as [db' count]. destruct Hloop as (Hw & _).
  cbn [fst] in *. unfold balances. apply map_eq. intros k.
  rewrite !lookup_fmap, Hw. case_bool_decide; [|done].
  by destruct (wallets db !! k).
Qed.

Lemma create_cycle_wallets committed now s t :
  wallets (create_cycle committed now s t).1 = wallets s.1.
Proof. unfold create_cycle, uuid4. endpoint_frame. Qed.

Lemma create_daily_merge_cycles_wallets now s :
  wallets (create_daily_merge_cycles now s).1 = wallets s.1.
Proof.
  unfold create_daily_merge_cycles. cbv zeta.
  generalize (merge_cycles s.1) (seqZ 0 7). intros committed l. revert s.
  induction l as [|d l IH]; intros s; [done|].
  cbn [foldl]. rewrite IH. by rewrite !create_cycle_wallets.
Qed.

(** X18.  No operation other than [confirm_proof] changes the balance or the
    total of the deposits of a wallet: neither the other actions of the
    service, nor the opt-in, the manual match, the unblocking, the
    administrator's run of the matcher or the creation of the merge
    cycles. *)
Theorem only_confirm_proof_moves_balances users system_utcoffset now db :
  (∀ a, (∀ pair_id user_id, a ≠ ConfirmProof pair_id user_id) →
        balances (perform a now db).1 = balances db) ∧
  (∀ user_id, balances (join_merge_cycle system_utcoffset user_id now db).1 = balances db) ∧
  (∀ funding_request_id withdrawal_request_id amount user_id,
     balances (manual_match_requests users funding_request_id withdrawal_request_id amount
                 user_id now db).1 = balances db) ∧
  (∀ user_email user_id, balances (unblock_user users user_email user_id db).1 = balances db) ∧
  (∀ user_id, balances (demo_trigger_merge users user_id now db).1 = balances db) ∧
  (∀ windows, balances (create_daily_merge_cycles now (db, windows)).1 = balances db).
Proof.
  split; [intros a; apply perform_balances|].
  split; [intros user_id; by rewrite (proj1 (join_merge_cycle_fails _ _ _ _))|].
  split.
  { intros f w amount user_id. unfold manual_match_requests, uuid4. endpoint_frame. }
  split; [intros; apply unblock_user_balances|].
  split.
  { intros user_id. unfold demo_trigger_merge. case_match; [|done]. simpl.
    unfold balances. by rewrite run_matching_wallets. }
  intros windows. unfold balances. by rewrite create_daily_merge_cycles_wallets.
Qed.

(** ** The pairs of the matching algorithm *)

(** The number of triples: an iteration moves a cursor, and the last one to
    reach both ends moves the two. *)
Lemma smart_match_requests_length F W :
  (length (smart_match_requests F W) ≤ length F + length W - 1)%nat.
Proof.
  destruct (smart_match_requests_exit F W) as (s & Hloop & ->).
  set (s0 := match_init F W) in *.
  assert (length (funders s0) = length F ∧ length (withdrawers s0) = length W) as [HnF HnW].
  { unfold s0. simpl. by rewrite !length_fmap, !sorted_perm. }
  destruct (match_loop_invariant
              (λ s, length (funders s) = length F ∧ length (withdrawers s) = length W ∧
                    (cursor_i s ≤ length F)%nat ∧ (cursor_j s ≤ length W)%nat ∧
                    (length (matches s) ≤ cursor_i s + cursor_j s)%nat ∧
                    (cursor_i s = length F → cursor_j s = length W →
                     length (matches s) = 0%nat ∨
                     (length (matches s) + 1 ≤ cursor_i s + cursor_j s)%nat)))
    with (fuel := (length F + length W)%nat) (s := s0) (s' := s)
    as [(Hf & Hw & Hi & Hj & Hlen & Hend) Hexit]; [|done| |].
  - intros s1 s2 (Hf & Hw & Hi & Hj & Hlen & Hend)
      (fid & fr & wid & wr & Hfi & Hwj & ->)%match_step_Some.
    apply lookup_lt_Some in Hfi, Hwj.
    cbn [funders withdrawers matches cursor_i cursor_j].
    rewrite !length_insert, length_app. cbn [length].
    repeat case_bool_decide; split_and!; try lia.
  - unfold s0 at 3 4 5 6 7 8. simpl. split_and!; try done; try lia.
  - unfold match_step in Hexit.
    destruct (funders s !! cursor_i s) as [[fid fr]|] eqn:Hfi.
    + destruct (withdrawers s !! cursor_j s) as [[wid wr]|] eqn:Hwj; [done|].
      apply lookup_ge_None in Hwj. apply lookup_lt_Some in Hfi. lia.
    + apply lookup_ge_None in Hfi.
      destruct (decide (cursor_j s = length W)) as [Hjw|Hjw]; [|lia].
      destruct Hend as [H0|H1]; [lia|done|lia|lia].
Qed.

(** With positive remainders, every triple has a positive amount. *)
Lemma smart_match_requests_positive F W :
  Forall (λ r, 0 < FundingRequest.amount_remaining r.2) F →
  Forall (λ r, 0 < WithdrawalRequest.amount_remaining r.2) W →
  Forall (λ m, 0 < m.2) (smart_match_requests F W).
Proof.
  intros HF HW.
  destruct (smart_match_requests_exit F W) as (s & Hloop & ->).
  set (s0 := match_init F W) in *.
  destruct (match_loop_invariant
              (λ s, (∀ k e, (cursor_i s ≤ k)%nat → funders s !! k = Some e → 0 < e.2) ∧
                    (∀ k e, (cursor_j s ≤ k)%nat → withdrawers s !! k = Some e → 0 < e.2) ∧
                    Forall (λ m, 0 < m.2) (matches s)))
    with (fuel := (length F + length W)%nat) (s := s0) (s' := s)
    as [(_ & _ & Hm) _]; [|done| |done].
  - intros s1 s2 (Hf & Hw & Hm) (fid & fr & wid & wr & Hfi & Hwj & ->)%match_step_Some.
    cbn [funders withdrawers matches cursor_i cursor_j].
    pose proof (Hf _ _ (Nat.le_refl _) Hfi) as Hfr.
    pose proof (Hw _ _ (Nat.le_refl _) Hwj) as Hwr. simpl in Hfr, Hwr.
    split_and!.
    + intros k e Hk. destruct (decide (k = cursor_i s1)) as [->|Hne].
      * rewrite list_lookup_insert_eq by (by eapply lookup_lt_Some).
        intros [= <-]. simpl. case_bool_decide; lia.
      * rewrite list_lookup_insert_ne by done. apply Hf. case_bool_decide; lia.
    + intros k e Hk. destruct (decide (k = cursor_j s1)) as [->|Hne].
      * rewrite list_lookup_insert_eq by (by eapply lookup_lt_Some).
        intros [= <-]. simpl. case_bool_decide; lia.
      * rewrite list_lookup_insert_ne by done. apply Hw. case_bool_decide; lia.
    + apply Forall_app. split; [done|]. constructor; [simpl; lia|constructor].
  - unfold s0. simpl. split_and!; [| |constructor].
    + intros k e _ Hk. apply list_lookup_fmap_Some in Hk as (r & -> & Hr%list_elem_of_lookup_2).
      simpl. rewrite sorted_perm in Hr. by apply (proj1 (Forall_forall _ _) HF).
    + intros k e _ Hk. apply list_lookup_fmap_Some in Hk as (r & -> & Hr%list_elem_of_lookup_2).
      simpl. rewrite sorted_perm in Hr. by apply (proj1 (Forall_forall _ _) HW).
Qed.

(** X19.  [smart_match_requests] returns at most [n + m - 1] triples for [n]
    funding requests and [m] withdrawal requests; every triple pairs a
    request of the first list with a request of the second; and when all
    the remainders are strictly positive, every amount matched is strictly
    positive. *)
Theorem smart_match_requests_pairs F W :
  (length (smart_match_requests F W) ≤ length F + length W - 1)%nat ∧
  (∀ m, m ∈ smart_match_requests F W → m.1.1 ∈ F.*1 ∧ m.1.2 ∈ W.*1) ∧
  (Forall (λ r, 0 < FundingRequest.amount_remaining r.2) F →
   Forall (λ r, 0 < WithdrawalRequest.amount_remaining r.2) W →
   Forall (λ m, 0 < m.2) (smart_match_requests F W)).
Proof.
  split; [apply smart_match_requests_length|].
  split; [apply smart_match_requests_ids|apply smart_match_requests_positive].
Qed.

(** ** The deadline sweep *)

Lemma block_if_not_blocked_idemp w :
  block_if_not_blocked (block_if_not_blocked w) = block_if_not_blocked w.
Proof. unfold block_if_not_blocked. by destruct (Wallet.is_blocked w) eqn:Hb; simpl; rewrite ?Hb. Qed.

Lemma block_if_not_blocked_blocked w : Wallet.is_blocked (block_if_not_blocked w) = true.
Proof. unfold block_if_not_blocked. by destruct (Wallet.is_blocked w) eqn:Hb. Qed.

Lemma selected_keys {A} (P : positive * A → Prop) `{!∀ x, Decision (P x)}
    (m : gmap positive A) k :
  k ∈ (filter P (map_to_list m)).*1 ↔ ∃ p, m !! k = Some p ∧ P (k, p).
Proof.
  rewrite list_elem_of_fmap. split.
  - intros ([k' p] & -> & [HP Hin%elem_of_map_to_list]%list_elem_of_filter). by exists p.
  - intros (p & Hp & HP). exists (k, p). split; [done|].
    apply list_elem_of_filter. split; [done|]. by apply elem_of_map_to_list.
Qed.

Lemma filter_none {A} (P : A → Prop) `{!∀ x, Decision (P x)} (l : list A) :
  (∀ x, x ∈ l → ¬ P x) → filter P l = [].
Proof.
  intros Hl. destruct (filter P l) as [|x l'] eqn:Hf; [done|].
  assert (x ∈ filter P l) as [HP Hin]%list_elem_of_filter by (rewrite Hf; left).
  by destruct (Hl x Hin).
Qed.

(** The first loop of the sweep. *)
Lemma flag_funder_missed_loop l db :
  let db' := foldl flag_funder_missed db l in
  (∀ k, k ∈ l.*1 →
        funding_match_pairs db' !! k
        = FundingMatchPair.with_funder_missed_deadline true <$> funding_match_pairs db !! k) ∧
  (∀ k, wallets db' !! k = wallets db !! k ∨
        wallets db' !! k = block_if_not_blocked <$> wallets db !! k) ∧
  (∀ p r, p ∈ l → funding_requests db !! FundingMatchPair.funding_request_id p.2 = Some r →
          wallets db' !! FundingRequest.wallet_id r
          = block_if_not_blocked <$> wallets db !! FundingRequest.wallet_id r) ∧
  (∀ k, (∀ p r, p ∈ l →
           funding_requests db !! FundingMatchPair.funding_request_id p.2 = Some r →
           FundingRequest.wallet_id r ≠ k) →
        wallets db' !! k = wallets db !! k) ∧
  funding_requests db' = funding_requests db ∧
  withdrawal_requests db' = withdrawal_requests db ∧
  merge_cycles db' = merge_cycles db ∧ admin_wallets db' = admin_wallets db ∧
  wallet_logs db' = wallet_logs db ∧ next_uuid db' = next_uuid db.
Proof.
  revert db. induction l as [|p l IH]; intros db; cbv zeta.
  { simpl. split_and!; try done; [by intros k ?%elem_of_nil|by left|by intros ?? ?%elem_of_nil]. }
  cbn [foldl]. set (db1 := flag_funder_missed db p).
  destruct (IH db1) as (Hp & Hw & Hb & Hn & Hf & Hwr & Hc & Ha & Hl & Hu). clear IH.
  assert (funding_match_pairs db1
          = alter (FundingMatchPair.with_funder_missed_deadline true) p.1
              (funding_match_pairs db)) as Hp1.
  { unfold db1, flag_funder_missed. simpl. by destruct (funding_requests db !! _). }
  assert (funding_requests db1 = funding_requests db ∧
          withdrawal_requests db1 = withdrawal_requests db ∧
          merge_cycles db1 = merge_cycles db ∧ admin_wallets db1 = admin_wallets db ∧
          wallet_logs db1 = wallet_logs db ∧ next_uuid db1 = next_uuid db)
    as (Hf1 & Hwr1 & Hc1 & Ha1 & Hl1 & Hu1).
  { unfold db1, flag_funder_missed. simpl. by destruct (funding_requests db !! _). }
  assert (∀ k, wallets db1 !! k
               = match funding_requests db !! FundingMatchPair.funding_request_id p.2 with
                 | Some r =>
                     if decide (FundingRequest.wallet_id r = k)
                     then block_if_not_blocked <$> wallets db !! k else wallets db !! k
                 | None => wallets db !! k
                 end) as Hw1.
  { intros k. unfold db1, flag_funder_missed. simpl.
    destruct (funding_requests db !! _) as [r|]; simpl; [|done].
    rewrite lookup_alter. by case_decide; subst. }
  assert (∀ o : option Wallet.t,
            block_if_not_blocked <$> (block_if_not_blocked <$> o) = block_if_not_blocked <$> o)
    as Hidem.
  { intros [w|]; simpl; [|done]. by rewrite block_if_not_blocked_idemp. }
  split_and!.
  - intros k Hk. destruct (decide (k ∈ l.*1)) as [Hin|Hnin].
    + rewrite Hp, Hp1 by done. rewrite lookup_alter. case_decide; [subst|done].
      by destruct (funding_match_pairs db !! _).
    + rewrite flag_funder_missed_pairs by done. rewrite Hp1.
      rewrite fmap_cons, elem_of_cons in Hk. destruct Hk as [->|?]; [|done].
      by rewrite lookup_alter_eq.
  - intros k. specialize (Hw k). specialize (Hw1 k).
    destruct (funding_requests db !! _) as [r|]; [case_decide|];
      rewrite Hw1, ?Hidem in Hw; tauto.
  - intros q r [->|Hq]%elem_of_cons Hr.
    + specialize (Hw1 (FundingRequest.wallet_id r)). rewrite Hr, decide_True in Hw1 by done.
      destruct (Hw (FundingRequest.wallet_id r)) as [H|H]; rewrite H, Hw1, ?Hidem; done.
    + rewrite (Hb q r) by (by rewrite ?Hf1). rewrite Hw1.
      destruct (funding_requests db !! FundingMatchPair.funding_request_id p.2);
        [case_decide|]; by rewrite ?Hidem.
  - intros k Hk. rewrite Hn.
    + rewrite Hw1. destruct (funding_requests db !! _) as [r|] eqn:Hr; [|done].
      rewrite decide_False; [done|]. eapply Hk; [left|done].
    + intros q r Hq Hr. rewrite Hf1 in Hr. eapply Hk; [by right|done].
  - by rewrite Hf.
  - by rewrite Hwr.
  - by rewrite Hc.
  - by rewrite Ha.
  - by rewrite Hl.
  - by rewrite Hu.
Qed.

(** The second loop of the sweep. *)
Lemma flag_withdrawer_missed_loop l db :
  let db' := foldl flag_withdrawer_missed db l in
  (∀ k, k ∈ l.*1 →
        funding_match_pairs db' !! k
        = FundingMatchPair.with_withdrawer_missed_deadline true <$> funding_match_pairs db !! k) ∧
  (∀ k, wallets db' !! k = wallets db !! k ∨
        wallets db' !! k = block_if_not_blocked <$> wallets db !! k) ∧
  (∀ p r, p ∈ l →
          withdrawal_requests db !! FundingMatchPair.withdrawal_request_id p.2 = Some r →
          wallets db' !! WithdrawalRequest.wallet_id r
          = block_if_not_blocked <$> wallets db !! WithdrawalRequest.wallet_id r) ∧
  (∀ k, (∀ p r, p ∈ l →
           withdrawal_requests db !! FundingMatchPair.withdrawal_request_id p.2 = Some r →
           WithdrawalRequest.wallet_id r ≠ k) →
        wallets db' !! k = wallets db !! k) ∧
  funding_requests db' = funding_requests db ∧
  withdrawal_requests db' = withdrawal_requests db ∧
  merge_cycles db' = merge_cycles db ∧ admin_wallets db' = admin_wallets db ∧
  wallet_logs db' = wallet_logs db ∧ next_uuid db' = next_uuid db.
Proof.
  revert db. induction l as [|p l IH]; intros db; cbv zeta.
  { simpl. split_and!; try done; [by intros k ?%elem_of_nil|by left|by intros ?? ?%elem_of_nil]. }
  cbn [foldl]. set (db1 := flag_withdrawer_missed db p).
  destruct (IH db1) as (Hp & Hw & Hb & Hn & Hf & Hwr & Hc & Ha & Hl & Hu). clear IH.
  assert (funding_match_pairs db1
          = alter (FundingMatchPair.with_withdrawer_missed_deadline true) p.1
              (funding_match_pairs db)) as Hp1.
  { unfold db1, flag_withdrawer_missed. simpl. by destruct (withdrawal_requests db !! _). }
  assert (funding_requests db1 = funding_requests db ∧
          withdrawal_requests db1 = withdrawal_requests db ∧
          merge_cycles db1 = merge_cycles db ∧ admin_wallets db1 = admin_wallets db ∧
          wallet_logs db1 = wallet_logs db ∧ next_uuid db1 = next_uuid db)
    as (Hf1 & Hwr1 & Hc1 & Ha1 & Hl1 & Hu1).
  { unfold db1, flag_withdrawer_missed. simpl. by destruct (withdrawal_requests db !! _). }
  assert (∀ k, wallets db1 !! k
               = match withdrawal_requests db
                       !! FundingMatchPair.withdrawal_request_id p.2 with
                 | Some r =>
                     if decide (WithdrawalRequest.wallet_id r = k)
                     then block_if_not_blocked <$> wallets db !! k else wallets db !! k
                 | None => wallets db !! k
                 end) as Hw1.
  { intros k. unfold db1, flag_withdrawer_missed. simpl.
    destruct (withdrawal_requests db !! _) as [r|]; simpl; [|done].
    rewrite lookup_alter. by case_decide; subst. }
  assert (∀ o : option Wallet.t,
            block_if_not_blocked <$> (block_if_not_blocked <$> o) = block_if_not_blocked <$> o)
    as Hidem.
  { intros [w|]; simpl; [|done]. by rewrite block_if_not_blocked_idemp. }
  split_and!.
  - intros k Hk. destruct (decide (k ∈ l.*1)) as [Hin|Hnin].
    + rewrite Hp, Hp1 by done. rewrite lookup_alter. case_decide; [subst|done].
      by destruct (funding_match_pairs db !! _).
    + rewrite flag_withdrawer_missed_pairs by done. rewrite Hp1.
      rewrite fmap_cons, elem_of_cons in Hk. destruct Hk as [->|?]; [|done].
      by rewrite lookup_alter_eq.
  - intros k. specialize (Hw k). specialize (Hw1 k).
    destruct (withdrawal_requests db !! _) as [r|]; [case_decide|];
      rewrite Hw1, ?Hidem in Hw; tauto.
  - intros q r [->|Hq]%elem_of_cons Hr.
    + specialize (Hw1 (WithdrawalRequest.wallet_id r)). rewrite Hr, decide_True in Hw1 by done.
      destruct (Hw (WithdrawalRequest.wallet_id r)) as [H|H]; rewrite H, Hw1, ?Hidem; done.
    + rewrite (Hb q r) by (by rewrite ?Hwr1). rewrite Hw1.
      destruct (withdrawal_requests db !! FundingMatchPair.withdrawal_request_id p.2);
        [case_decide|]; by rewrite ?Hidem.
  - intros k Hk. rewrite Hn.
    + rewrite Hw1. destruct (withdrawal_requests db !! _) as [r|] eqn:Hr; [|done].
      rewrite decide_False; [done|]. eapply Hk; [left|done].
    + intros q r Hq Hr. rewrite Hwr1 in Hr. eapply Hk; [by right|done].
  - by rewrite Hf.
  - by rewrite Hwr.
  - by rewrite Hc.
  - by rewrite Ha.
  - by rewrite Hl.
  - by rewrite Hu.
Qed.

Lemma expired_confirmation_flagged now k p :
  expired_confirmation now (k, FundingMatchPair.with_funder_missed_deadline true p)
  ↔ expired_confirmation now (k, p).
Proof. done. Qed.

Lemma expired_exclusive now k p :
  expired_proof now (k, p) → ¬ expired_confirmation now (k, p).
Proof. intros (_ & Hu & _) (_ & Hu' & _). simpl in *. congruence. Qed.

(** What the sweep does to the tables. *)
Lemma check_expired_deadlines_spec now db :
  let db' := check_expired_deadlines now db in
  (∀ k p, funding_match_pairs db !! k = Some p →
     (expired_proof now (k, p) →
      funding_match_pairs db' !! k
      = Some (FundingMatchPair.with_funder_missed_deadline true p) ∧
      ∀ r, funding_requests db !! FundingMatchPair.funding_request_id p = Some r →
           wallets db' !! FundingRequest.wallet_id r
           = block_if_not_blocked <$> wallets db !! FundingRequest.wallet_id r) ∧
     (expired_confirmation now (k, p) →
      funding_match_pairs db' !! k
      = Some (FundingMatchPair.with_withdrawer_missed_deadline true p) ∧
      ∀ r, withdrawal_requests db !! FundingMatchPair.withdrawal_request_id p = Some r →
           wallets db' !! WithdrawalRequest.wallet_id r
           = block_if_not_blocked <$> wallets db !! WithdrawalRequest.wallet_id r) ∧
     (¬ expired_proof now (k, p) → ¬ expired_confirmation now (k, p) →
      funding_match_pairs db' !! k = Some p)) ∧
  (∀ k, funding_match_pairs db !! k = None → funding_match_pairs db' !! k = None) ∧
  (∀ k, wallets db' !! k = wallets db !! k ∨
        wallets db' !! k = block_if_not_blocked <$> wallets db !! k) ∧
  (∀ k,
     (∀ kp p r, funding_match_pairs db !! kp = Some p → expired_proof now (kp, p) →
                funding_requests db !! FundingMatchPair.funding_request_id p = Some r →
                FundingRequest.wallet_id r ≠ k) →
     (∀ kp p r, funding_match_pairs db !! kp = Some p → expired_confirmation now (kp, p) →
                withdrawal_requests db !! FundingMatchPair.withdrawal_request_id p = Some r →
                WithdrawalRequest.wallet_id r ≠ k) →
     wallets db' !! k = wallets db !! k) ∧
  funding_requests db' = funding_requests db ∧
  withdrawal_requests db' = withdrawal_requests db ∧
  merge_cycles db' = merge_cycles db ∧ admin_wallets db' = admin_wallets db ∧
  wallet_logs db' = wallet_logs db ∧ next_uuid db' = next_uuid db.
Proof.
  cbv zeta. unfold check_expired_deadlines.
  set (Lp := filter (expired_proof now) (map_to_list (funding_match_pairs db))).
  set (db1 := foldl flag_funder_missed db Lp).
  set (Lc := filter (expired_confirmation now) (map_to_list (funding_match_pairs db1))).
  destruct (flag_funder_missed_loop Lp db)
    as (Hp1 & Hw1 & Hb1 & Hn1 & Hf1 & Hwr1 & Hc1 & Ha1 & Hl1 & Hu1).
  destruct (flag_withdrawer_missed_loop Lc db1)
    as (Hp2 & Hw2 & Hb2 & Hn2 & Hf2 & Hwr2 & Hc2 & Ha2 & Hl2 & Hu2).
  cbv zeta in *. fold db1 in Hp1, Hw1, Hb1, Hn1, Hf1, Hwr1, Hc1, Ha1, Hl1, Hu1.
  assert (∀ o : option Wallet.t,
            block_if_not_blocked <$> (block_if_not_blocked <$> o) = block_if_not_blocked <$> o)
    as Hidem.
  { intros [w|]; simpl; [|done]. by rewrite block_if_not_blocked_idemp. }
  assert (∀ k p, funding_match_pairs db !! k = Some p →
            funding_match_pairs db1 !! k
            = Some (if decide (expired_proof now (k, p))
                    then FundingMatchPair.with_funder_missed_deadline true p else p)) as Hdb1.
  { intros k p Hk. case_decide as He.
    - rewrite Hp1, Hk; [done|]. apply selected_keys. eauto.
    - unfold db1. rewrite flag_funder_missed_pairs; [done|].
      intros (p' & Hk' & He')%selected_keys. by simplify_eq. }
  assert (∀ k, funding_match_pairs db !! k = None → funding_match_pairs db1 !! k = None)
    as Hdb1N.
  { intros k Hk. unfold db1. rewrite flag_funder_missed_pairs; [done|].
    intros (p' & Hk' & He')%selected_keys. by simplify_eq. }
  assert (∀ k, k ∈ Lc.*1 ↔ ∃ p, funding_match_pairs db !! k = Some p ∧
                                 expired_confirmation now (k, p)) as HLc.
  { intros k. unfold Lc. rewrite selected_keys. split.
    - intros (p1 & Hk1 & He1).
      destruct (funding_match_pairs db !! k) as [p|] eqn:Hk; [|by rewrite Hdb1N in Hk1].
      rewrite (Hdb1 _ _ Hk) in Hk1. exists p. split; [done|].
      case_decide; by simplify_eq.
    - intros (p & Hk & He). rewrite (Hdb1 _ _ Hk). eexists. split; [done|].
      by case_decide. }
  assert (∀ q, q ∈ Lc → ∃ p, funding_match_pairs db !! q.1 = Some p ∧
                             expired_confirmation now (q.1, p) ∧
                             FundingMatchPair.withdrawal_request_id q.2
                             = FundingMatchPair.withdrawal_request_id p) as HLc'.
  { intros [k p1] [He1 Hk1%elem_of_map_to_list]%list_elem_of_filter. simpl.
    destruct (funding_match_pairs db !! k) as [p|] eqn:Hk; [|by rewrite Hdb1N in Hk1].
    rewrite (Hdb1 _ _ Hk) in Hk1. exists p. split; [done|].
    case_decide; by simplify_eq. }
  split_and!.
  - intros k p Hk. split_and!.
    + intros He. split.
      * rewrite flag_withdrawer_missed_pairs.
        -- by rewrite (Hdb1 _ _ Hk), decide_True.
        -- intros (p' & Hk' & He')%HLc. simplify_eq. by eapply expired_exclusive.
      * intros r Hr.
        assert (wallets db1 !! FundingRequest.wallet_id r
                = block_if_not_blocked <$> wallets db !! FundingRequest.wallet_id r) as H1.
        { apply (Hb1 (k, p) r); [|done].
          apply list_elem_of_filter. split; [done|]. by apply elem_of_map_to_list. }
        destruct (Hw2 (FundingRequest.wallet_id r)) as [H|H]; by rewrite H, H1, ?Hidem.
    + intros He. split.
      * rewrite Hp2 by (apply HLc; eauto). rewrite (Hdb1 _ _ Hk).
        rewrite decide_False; [done|]. intros He'. by eapply expired_exclusive.
      * intros r Hr.
        assert ((k, p) ∈ Lc) as Hin.
        { apply list_elem_of_filter. split; [done|]. apply elem_of_map_to_list.
          rewrite (Hdb1 _ _ Hk). rewrite decide_False; [done|].
          intros He'. by eapply expired_exclusive. }
        rewrite (Hb2 (k, p) r Hin) by (by rewrite Hwr1).
        destruct (Hw1 (WithdrawalRequest.wallet_id r)) as [H|H]; by rewrite H, ?Hidem.
    + intros Hne1 Hne2. rewrite flag_withdrawer_missed_pairs.
      * by rewrite (Hdb1 _ _ Hk), decide_False.
      * intros (p' & Hk' & He')%HLc. by simplify_eq.
  - intros k Hk. rewrite flag_withdrawer_missed_pairs; [by apply Hdb1N|].
    intros (p' & Hk' & He')%HLc. by simplify_eq.
  - intros k. destruct (Hw2 k) as [H2|H2], (Hw1 k) as [H1|H1]; rewrite H2, H1, ?Hidem; tauto.
  - intros k Hproof Hconf. rewrite Hn2, Hn1; [done|..].
    + intros [kp p] r [He Hk%elem_of_map_to_list]%list_elem_of_filter Hr. simpl in *.
      by eapply Hproof.
    + intros q r Hq Hr. destruct (HLc' q Hq) as (p & Hk & He & Hid).
      rewrite Hid, Hwr1 in Hr. by eapply Hconf.
  - by rewrite Hf2.
  - by rewrite Hwr2.
  - by rewrite Hc2.
  - by rewrite Ha2.
  - by rewrite Hl2.
  - by rewrite Hu2.
Qed.

(** X20.  [check_expired_deadlines] at the instant [now].  A pair whose proof
    deadline is reached without a proof, not flagged yet, gets the flag
    [funder_missed_deadline] and the wallet of its funder is blocked; a pair
    whose confirmation deadline is reached without a confirmation, not
    flagged yet, gets the flag [withdrawer_missed_deadline] and the wallet
    of its withdrawer is blocked; every other pair is left as it was.  A
    wallet that belongs to no such funder or withdrawer is left as it was,
    and so are the two tables of requests. *)
Theorem check_expired_deadlines_flags_expired now db :
  let db' := check_expired_deadlines now db in
  (∀ k p, funding_match_pairs db !! k = Some p →
     (expired_proof now (k, p) →
      funding_match_pairs db' !! k
      = Some (FundingMatchPair.with_funder_missed_deadline true p) ∧
      ∀ r w, funding_requests db !! FundingMatchPair.funding_request_id p = Some r →
             wallets db !! FundingRequest.wallet_id r = Some w →
             wallets db' !! FundingRequest.wallet_id r = Some (block_if_not_blocked w)) ∧
     (expired_confirmation now (k, p) →
      funding_match_pairs db' !! k
      = Some (FundingMatchPair.with_withdrawer_missed_deadline true p) ∧
      ∀ r w, withdrawal_requests db !! FundingMatchPair.withdrawal_request_id p = Some r →
             wallets db !! WithdrawalRequest.wallet_id r = Some w →
             wallets db' !! WithdrawalRequest.wallet_id r = Some (block_if_not_blocked w)) ∧
     (¬ expired_proof now (k, p) → ¬ expired_confirmation now (k, p) →
      funding_match_pairs db' !! k = Some p)) ∧
  (∀ k,
     (∀ kp p r, funding_match_pairs db !! kp = Some p → expired_proof now (kp, p) →
                funding_requests db !! FundingMatchPair.funding_request_id p = Some r →
                FundingRequest.wallet_id r ≠ k) →
     (∀ kp p r, funding_match_pairs db !! kp = Some p → expired_confirmation now (kp, p) →
                withdrawal_requests db !! FundingMatchPair.withdrawal_request_id p = Some r →
                WithdrawalRequest.wallet_id r ≠ k) →
     wallets db' !! k = wallets db !! k) ∧
  funding_requests db' = funding_requests db ∧
  withdrawal_requests db' = withdrawal_requests db.
Proof.
  destruct (check_expired_deadlines_spec now db)
    as (Hp & HpN & Hw & Hn & Hf & Hwr & _).
  cbv zeta in *. split_and!; [|done..].
  intros k p Hk. destruct (Hp k p Hk) as (H1 & H2 & H3). split_and!; [| |done].
  - intros He. destruct (H1 He) as [Hpair Hb]. split; [done|].
    intros r w Hr Hwal. by rewrite (Hb r Hr), Hwal.
  - intros He. destruct (H2 He) as [Hpair Hb]. split; [done|].
    intros r w Hr Hwal. by rewrite (Hb r Hr), Hwal.
Qed.

(** X21.  After [check_expired_deadlines] no pair is left that the sweep
    selects at that instant, and a second sweep at the same instant changes
    nothing. *)
Theorem check_expired_deadlines_once now db :
  let db' := check_expired_deadlines now db in
  (∀ k p, funding_match_pairs db' !! k = Some p →
          ¬ expired_proof now (k, p) ∧ ¬ expired_confirmation now (k, p)) ∧
  check_expired_deadlines now db' = db'.
Proof.
  destruct (check_expired_deadlines_spec now db)
    as (Hp & HpN & _).
  cbv zeta in *. set (db' := check_expired_deadlines now db) in *.
  assert (∀ k p, funding_match_pairs db' !! k = Some p →
                 ¬ expired_proof now (k, p) ∧ ¬ expired_confirmation now (k, p)) as Hnone.
  { intros k p' Hk'.
    destruct (funding_match_pairs db !! k) as [p|] eqn:Hk; [|by rewrite HpN in Hk'].
    destruct (Hp k p Hk) as (H1 & H2 & H3).
    destruct (decide (expired_proof now (k, p))) as [He|Hne].
    - destruct (H1 He) as [Hpair _]. rewrite Hpair in Hk'. simplify_eq.
      split; [by intros (_ & _ & ?)|].
      intros He'. by eapply expired_exclusive.
    - destruct (decide (expired_confirmation now (k, p))) as [He|Hne'].
      + destruct (H2 He) as [Hpair _]. rewrite Hpair in Hk'. simplify_eq.
        split; [done|]. by intros (_ & _ & _ & ?).
      + rewrite H3 in Hk' by done. by simplify_eq. }
  split; [done|].
  unfold check_expired_deadlines at 1.
  assert (filter (expired_proof now) (map_to_list (funding_match_pairs db')) = []) as ->.
  { apply filter_none. intros [k p] Hk%elem_of_map_to_list. by apply Hnone. }
  cbn [foldl].
  assert (filter (expired_confirmation now) (map_to_list (funding_match_pairs db')) = [])
    as ->; [|done].
  apply filter_none. intros [k p] Hk%elem_of_map_to_list. by apply Hnone.
Qed.

(** ** The further properties on the example states *)

Lemma initial_db_below_counter : cycles_below_counter initial_db.
Proof. intros k [c Hc]. simpl in Hc. by rewrite lookup_empty in Hc. Qed.

Lemma create_daily_merge_cycles_rows_witness :
  wallets (create_daily_merge_cycles 0 (initial_db, ∅)).1 = wallets initial_db ∧
  ∃ t, merge_instant t ∧ 0 ≤ t < 0 + timedelta_days 7 ∧
       merge_cycles (create_daily_merge_cycles 0 (initial_db, ∅)).1 !! 100%positive
       = Some (MergeCycle.Build t (t - timedelta_minutes 10) pending 0 0 0 0 0 None None).
Proof.
  destruct (create_daily_merge_cycles_rows 0 initial_db ∅ initial_db_below_counter)
    as (_ & Hnew & Hw & _).
  split; [exact Hw|].
  destruct (Hnew 100%positive
              (MergeCycle.Build (8 * hour) (8 * hour - timedelta_minutes 10) pending
                 0 0 0 0 0 None None))
    as (t & Hm & Ht & _ & Hc & _); [vm_compute; reflexivity|reflexivity|].
  exists t. split; [exact Hm|]. split; [exact Ht|].
  rewrite <- Hc. vm_compute. reflexivity.
Defined.

Lemma create_daily_merge_cycles_covers_witness :
  ∃ k c, merge_cycles (create_daily_merge_cycles 0 (initial_db, ∅)).1 !! k = Some c ∧
         MergeCycle.scheduled_time c = 8 * hour.
Proof.
  destruct (create_daily_merge_cycles_covers 0 initial_db ∅ initial_db_below_counter)
    as [Hcover _].
  apply Hcover.
  - exists 0, (time_at 9 0). split; [left|reflexivity].
  - vm_compute. split; [discriminate|reflexivity].
Defined.

Lemma create_daily_merge_cycles_again_witness :
  create_daily_merge_cycles hour (create_daily_merge_cycles 0 (initial_db, ∅))
  = create_daily_merge_cycles 0 (initial_db, ∅).
Proof.
  apply (create_daily_merge_cycles_again 0 hour initial_db ∅ initial_db_below_counter).
  - reflexivity.
  - vm_compute. discriminate.
Defined.

Lemma next_cycle_is_next_merge_time_witness :
  ∃ next,
    get_next_merge_cycle 0 (create_daily_merge_cycles 0 (initial_db, ∅)).1 = Some next ∧
    MergeCycle.scheduled_time next.2 = (get_next_merge_time 0).1.
Proof.
  apply (next_cycle_is_next_merge_time 0 initial_db ∅ initial_db_below_counter).
  intros k c Hc. simpl in Hc. by rewrite lookup_empty in Hc.
Defined.

Lemma scheduled_cycles_are_run_witness :
  ∃ c, merge_cycles (run_history [(0, RunMergeCycle None 31)] leftover_db) !! 31%positive
       = Some c ∧
       MergeCycle.status c ≠ pending.
Proof.
  eexists. split; [vm_compute; reflexivity|].
  apply (scheduled_cycles_are_run 0 leftover_db [(0, None, 31%positive)])
    with (k := 31%positive).
  - assert (schedule_merge_cycle_execution 0 leftover_db = [31%positive]) as ->
      by (vm_compute; reflexivity).
    done.
  - vm_compute. reflexivity.
  - vm_compute. discriminate.
Defined.

Lemma run_merge_cycle_skips_requests_witness :
  withdrawal_requests (run_merge_cycle None 0 31 late_withdrawal_db) !! 22%positive
  = Some late_request_22.
Proof.
  destruct (run_merge_cycle_skips_requests None 0 31%positive late_withdrawal_db
              pending_cycle_31) as [_ Hw]; [reflexivity|].
  apply Hw; [reflexivity|].
  right. right. vm_compute. discriminate.
Defined.

Lemma can_join_cannot_join_witness :
  join_merge_cycle 0 1 (8 * hour) leftover_db = (leftover_db, Rejected ServerError).
Proof.
  apply can_join_cannot_join. vm_compute. reflexivity.
Defined.

Lemma manual_match_has_no_deadline_witness :
  ∃ p, funding_match_pairs
         (manual_match_requests example_users 21 22 500000 9 (- timedelta_minutes 20)
            late_withdrawal_db).1 !! 100%positive = Some p ∧
       FundingMatchPair.proof_deadline p = None.
Proof.
  destruct (manual_match_has_no_deadline example_users 21%positive 22%positive 500000
              9%positive (- timedelta_minutes 20) late_withdrawal_db
              (manual_match_requests example_users 21 22 500000 9 (- timedelta_minutes 20)
                 late_withdrawal_db).1 100%positive 0 0)
    as (p & Hp & Hd & _); [vm_compute; reflexivity|].
  by exists p.
Defined.

Lemma create_then_cancel_witness :
  cancel_funding_request true 100 1 hour
    (create_funding_request 500000 (Some NAIRA) 1 0 initial_db).1
  = ((uuid4 initial_db).2, SuccessResponse 100%positive).
Proof.
  destruct (create_then_cancel true 500000 (Some NAIRA) 1%positive 0 hour initial_db)
    as [Hf _]; [reflexivity|reflexivity| |reflexivity|].
  - intros _. split; intros Href; apply Href; apply map_Forall_empty.
  - apply Hf. reflexivity.
Defined.
